(** * Shopify Insights Fetcher: a shallow embedding of
    [shopify_insights_fastapi.py] and the properties of its extraction
    pipeline.

    Conventions of the model.
    - Python [str] values are [string]s; the text handled is taken to be
      ASCII, so [str.lower], [str.strip] and the regular expressions act
      on ASCII letters, digits and white space.
    - Python dictionaries keep insertion order, so they are association
      lists updated in place ([Dict.set]).
    - Exceptions are values of [exn]; code that performs HTTP requests
      runs in the monad [IO], which threads the list of requested URLs.
    - Library behaviour the file relies on but does not define (the HTTP
      transport, [urljoin], the HTML parser, pydantic's validation of a
      [Product] and of the [HttpUrl] of the aggregate, the iteration
      order of a [set]) is a variable of the section [Pipeline].  The
      calls of [requests.get], [Response.json()], [urljoin] and the two
      pydantic models have the exceptions they raise among their
      outcomes; the HTML parser is taken to build a tree from every
      page.
    - The optional write to the database is outside the model: its
      errors are swallowed and it does not change the value returned. *)

From Stdlib Require Import String Ascii List ZArith Bool DecimalString Permutation.
From Stdlib Require PrimFloat.
From Stdlib Require Import Lia.
Import ListNotations.
Open Scope string_scope.
Open Scope list_scope.

Set Implicit Arguments.
Set Warnings "-register-all".

(* ================================================================== *)
(** ** Python strings *)

Module Str.

Definition nonempty (s : string) : bool :=
  match s with EmptyString => false | String _ _ => true end.

(** [s or ''] for an optional string. *)
Definition or_empty (o : option string) : string :=
  match o with Some s => s | None => "" end.

(** Truthiness of an optional string: neither [None] nor [''].  *)
Definition truthy (o : option string) : bool :=
  match o with Some s => nonempty s | None => false end.

Definition is_upper (c : ascii) : bool :=
  (65 <=? nat_of_ascii c)%nat && (nat_of_ascii c <=? 90)%nat.

Definition lower_char (c : ascii) : ascii :=
  if is_upper c then ascii_of_nat (nat_of_ascii c + 32) else c.

(** [s.lower()] *)
Fixpoint lower (s : string) : string :=
  match s with
  | EmptyString => EmptyString
  | String c r => String (lower_char c) (lower r)
  end.

(** [s.startswith(p)] *)
Fixpoint startswith (p s : string) : bool :=
  match p, s with
  | EmptyString, _ => true
  | String _ _, EmptyString => false
  | String a p', String b s' => Ascii.eqb a b && startswith p' s'
  end.

(** [sub in s] *)
Fixpoint contains (sub s : string) : bool :=
  startswith sub s ||
  match s with
  | EmptyString => false
  | String _ r => contains sub r
  end.

(** [s[n:]] *)
Fixpoint drop (n : nat) (s : string) : string :=
  match n, s with
  | O, _ => s
  | S _, EmptyString => EmptyString
  | S m, String _ r => drop m r
  end.

Fixpoint take_while (f : ascii -> bool) (s : string) : string :=
  match s with
  | EmptyString => EmptyString
  | String c r => if f c then String c (take_while f r) else EmptyString
  end.

Fixpoint drop_while (f : ascii -> bool) (s : string) : string :=
  match s with
  | EmptyString => EmptyString
  | String c r => if f c then drop_while f r else s
  end.

(** [s.rstrip(...)]: the trailing characters that satisfy [f] are
    removed. *)
Fixpoint rstrip_by (f : ascii -> bool) (s : string) : string :=
  match s with
  | EmptyString => EmptyString
  | String c r =>
      match rstrip_by f r with
      | EmptyString => if f c then EmptyString else String c EmptyString
      | r' => String c r'
      end
  end.

(** [s.rstrip('/')] *)
Definition rstrip_slash (s : string) : string :=
  rstrip_by (fun c => Ascii.eqb c "/") s.

(** White space as [str.strip] and the pattern [\s] see it on ASCII
    text. *)
Definition is_space (c : ascii) : bool :=
  let n := nat_of_ascii c in
  (n =? 32)%nat || ((9 <=? n)%nat && (n <=? 13)%nat)
  || ((28 <=? n)%nat && (n <=? 31)%nat).

(** [s.strip()] *)
Definition strip (s : string) : string :=
  rstrip_by is_space (drop_while is_space s).

Definition is_digit (c : ascii) : bool :=
  (48 <=? nat_of_ascii c)%nat && (nat_of_ascii c <=? 57)%nat.

Definition is_alnum (c : ascii) : bool :=
  let n := nat_of_ascii c in
  is_digit c || ((65 <=? n)%nat && (n <=? 90)%nat)
  || ((97 <=? n)%nat && (n <=? 122)%nat).

(** [s.replace(old, new)]: the occurrences of [old] are replaced from
    left to right without overlap ([skip] counts the characters of the
    occurrence just replaced that are still to be passed over); an
    empty [old] matches before every character and at the end. *)
Fixpoint replace_from (old new : string) (skip : nat) (s : string) : string :=
  match s with
  | EmptyString => EmptyString
  | String c r =>
      match skip with
      | S k => replace_from old new k r
      | O =>
          if startswith old s
          then (new ++ replace_from old new (String.length old - 1) r)%string
          else String c (replace_from old new 0 r)
      end
  end.

Fixpoint intersperse (new s : string) : string :=
  match s with
  | EmptyString => new
  | String c r => (new ++ String c (intersperse new r))%string
  end.

Definition replace (old new s : string) : string :=
  if nonempty old then replace_from old new 0 s else intersperse new s.

End Str.

(* ================================================================== *)
(** ** Python dictionaries, insertion ordered *)

Module Dict.

Section Ops.
Variable V : Type.

Definition t := list (string * V).

(** [d.get(k)] *)
Fixpoint get (k : string) (d : t) : option V :=
  match d with
  | [] => None
  | (k', v) :: r => if String.eqb k k' then Some v else get k r
  end.

(** [d[k] = v]: an existing key keeps its place, a new one goes last. *)
Fixpoint set (k : string) (v : V) (d : t) : t :=
  match d with
  | [] => [(k, v)]
  | (k', v') :: r =>
      if String.eqb k k' then (k', v) :: r else (k', v') :: set k v r
  end.

Definition keys (d : t) : list string := map fst d.

(** [k in d] *)
Definition mem (k : string) (d : t) : bool :=
  match get k d with Some _ => true | None => false end.
End Ops.

End Dict.

(* ================================================================== *)
(** ** Values decoded from JSON, and the pydantic models *)

(** What [Response.json()] can return. *)
Inductive json : Type :=
| JNull
| JBool (b : bool)
| JInt (z : Z)
| JFloat (f : PrimFloat.float)
| JStr (s : string)
| JList (l : list json)
| JDict (d : list (string * json)).

(** [class Product(BaseModel)] *)
Record Product : Type := mkProduct {
  id : option Z;
  title : option string;
  handle : option string;
  variants : option (list (list (string * json)));
  images : option (list string)
}.

(** [class ContactInfo(BaseModel)] *)
Record ContactInfo : Type := mkContactInfo {
  emails : list string;
  phones : list string;
  addresses : list string
}.

(** [class BrandContext(BaseModel)] *)
Record BrandContext : Type := mkBrandContext {
  website_url : string;
  store_title : option string;
  about_text : option string;
  products : list Product;
  hero_products : list Product;
  policies : Dict.t (option string);
  faqs : list (Dict.t string);
  social_handles : Dict.t string;
  contact : ContactInfo;
  important_links : Dict.t string;
  metadata : Dict.t Z
}.

(** [str(x)] for an optional integer. *)
Definition str_of_id (o : option Z) : string :=
  match o with
  | None => "None"
  | Some z => NilZero.string_of_int (Z.to_int z)
  end.

(* ================================================================== *)
(** ** Hero Matcher: [hero_product_matches] *)

Module Hero.

(** [re.search(r'/products/([^/?#]+)', href)], group 1: the leftmost
    place where [/products/] is followed by at least one character
    other than [/], [?] and [#], and the longest run of such
    characters there. *)
Definition segment_char (c : ascii) : bool :=
  negb (Ascii.eqb c "/" || Ascii.eqb c "?" || Ascii.eqb c "#").

Fixpoint products_segment (href : string) : option string :=
  match href with
  | EmptyString => None
  | String _ r =>
      if Str.startswith "/products/" href
      then match Str.take_while segment_char (Str.drop 10 href) with
           | EmptyString => products_segment r
           | seg => Some seg
           end
      else products_segment r
  end.

(** [{ (p.handle or '').lower(): p for p in products }] *)
Definition handles_to_product (products : list Product) : Dict.t Product :=
  fold_left
    (fun d p => Dict.set (Str.lower (Str.or_empty (handle p))) p d)
    products [].

(** The title fallback: the first product of the catalog whose
    non-empty title, lowercased, occurs in the card's text. *)
Definition title_in (text : string) (p : Product) : bool :=
  match title p with
  | Some t => Str.nonempty t && Str.contains (Str.lower t) text
  | None => false
  end.

(** One iteration of [for card in product_cards]: the product the
    card appends to [heroes], if any. *)
Definition card_match (products : list Product) (lookup : Dict.t Product)
    (card : Dict.t string) : option Product :=
  let href := Str.or_empty (Dict.get "href" card) in
  let text := Str.lower (Str.or_empty (Dict.get "text" card)) in
  let handle := option_map Str.lower (products_segment href) in
  match match handle with
        | Some h => if Str.nonempty h then Dict.get h lookup else None
        | None => None
        end
  with
  | Some p => Some p
  | None => find (title_in text) products
  end.

Fixpoint collect (products : list Product) (lookup : Dict.t Product)
    (product_cards : list (Dict.t string)) (heroes : list Product)
    : list Product :=
  match product_cards with
  | [] => heroes
  | card :: rest =>
      match card_match products lookup card with
      | Some p => collect products lookup rest (heroes ++ [p])
      | None => collect products lookup rest heroes
      end
  end.

(** [key = h.handle or h.title or str(h.id)] *)
Definition identity_key (h : Product) : string :=
  if Str.truthy (handle h) then Str.or_empty (handle h)
  else if Str.truthy (title h) then Str.or_empty (title h)
  else str_of_id (id h).

Definition seen_mem (key : string) (seen : list string) : bool :=
  existsb (String.eqb key) seen.

(** The deduplication loop, with its two accumulators. *)
Fixpoint dedup (heroes unique : list Product) (seen : list string)
    : list Product :=
  match heroes with
  | [] => unique
  | h :: rest =>
      let key := identity_key h in
      if seen_mem key seen then dedup rest unique seen
      else dedup rest (unique ++ [h]) (key :: seen)
  end.

(** The list [heroes] as it stands when the first loop ends. *)
Definition matches (product_cards : list (Dict.t string))
    (products : list Product) : list Product :=
  collect products (handles_to_product products) product_cards [].

Definition hero_product_matches (product_cards : list (Dict.t string))
    (products : list Product) (base_url : string) : list Product :=
  match products with
  | [] => []
  | _ => dedup (matches product_cards products) [] []
  end.

(** [subseq l1 l2]: [l1] is [l2] with some elements left out, the
    others in their order. *)
Inductive subseq (A : Type) : list A -> list A -> Prop :=
| subseq_nil : subseq [] []
| subseq_skip : forall x l1 l2, subseq l1 l2 -> subseq l1 (x :: l2)
| subseq_keep : forall x l1 l2, subseq l1 l2 -> subseq (x :: l1) (x :: l2).

Definition same_key (h x : Product) : bool :=
  String.eqb (identity_key x) (identity_key h).

(** The deduplication loop without its accumulators: what it appends
    to [unique] from [heroes] when the keys of [seen] were met. *)
Fixpoint keep_first (seen : list string) (heroes : list Product)
    : list Product :=
  match heroes with
  | [] => []
  | h :: rest =>
      if seen_mem (identity_key h) seen then keep_first seen rest
      else h :: keep_first (identity_key h :: seen) rest
  end.

End Hero.

(* ================================================================== *)
(** ** Exceptions and the request log *)

(** The exceptions the file can meet.  [ValueError] stands for itself
    and for its subclasses [JSONDecodeError] (raised by
    [Response.json()]) and pydantic's [ValidationError].
    [LibraryError name] is an exception of the class [name] that leaves
    a library call at a place where no [except] clause of the file
    applies to it: urllib3's [LocationParseError] out of
    [requests.get], which is not a [requests.RequestException], or the
    [RecursionError] of [Response.json()], which is not a
    [ValueError]. *)
Inductive exn : Type :=
| AttributeError
| TypeError
| ValueError
| HTTPException (status_code : Z) (detail : string)
| LibraryError (name : string).

Inductive result (A : Type) : Type :=
| Ok (a : A)
| Raise (e : exn).
Arguments Raise {A} e.

Definition rbind (A B : Type) (r : result A) (k : A -> result B) : result B :=
  match r with
  | Ok a => k a
  | Raise e => Raise e
  end.

Notation "'let?' x ':=' r 'in' k" := (rbind r (fun x => k))
  (at level 10, x name, r at level 100, k at level 200).

Fixpoint map_result (A B : Type) (f : A -> result B) (l : list A)
    : result (list B) :=
  match l with
  | [] => Ok []
  | x :: r =>
      let? y := f x in
      let? ys := map_result f r in
      Ok (y :: ys)
  end.

(** A loop whose body can raise: the first exception ends it. *)
Fixpoint fold_result (A B : Type) (f : B -> A -> result B) (l : list A)
    (b : B) : result B :=
  match l with
  | [] => Ok b
  | x :: r =>
      let? b' := f b x in
      fold_result f r b'
  end.

(** A computation that performs HTTP requests: it extends the list of
    the URLs requested so far and returns a value or raises. *)
Definition IO (A : Type) : Type := list string -> result A * list string.

Definition ret (A : Type) (a : A) : IO A := fun log => (Ok a, log).

Definition raise (A : Type) (e : exn) : IO A := fun log => (Raise e, log).
Arguments raise {A} e.

(** A step that makes no request. *)
Definition lift (A : Type) (r : result A) : IO A := fun log => (r, log).

Definition bind (A B : Type) (m : IO A) (k : A -> IO B) : IO B :=
  fun log =>
    match m log with
    | (Ok a, log') => k a log'
    | (Raise e, log') => (Raise e, log')
    end.

Notation "x <- m ;; k" := (bind m (fun x => k))
  (at level 61, m at next level, right associativity).

(** How [Response.json()] fails on a body it does not decode: with a
    [JSONDecodeError], which is a [ValueError], or with an exception
    of another class (a [RecursionError] on a body nested too
    deeply). *)
Inductive decode_error : Type :=
| JSONDecodeError
| DecodeRaised (name : string).

(** [requests.Response], as [requests.get] returns it: the status of
    the final answer, the statuses of the redirects that were followed
    to reach it ([Response.history]), the body as text, and what
    [.json()] does: the value decoded from the body, or [None] where
    it raises, and then [json_error] tells what. *)
Record Response : Type := mkResponse {
  status_code : Z;
  history : list Z;
  text : string;
  json_body : option json;
  json_error : decode_error
}.

(** What [requests.get] does: it returns a response, raises a
    [requests.RequestException] (connection error, timeout, too many
    redirects, a URL it rejects), or lets an exception of another
    class through ([Raised], with the name of the class: urllib3's
    [LocationParseError] for a host with an empty or over-long
    label). *)
Inductive outcome : Type :=
| Returned (r : Response)
| RequestException
| Raised (name : string).

(* ================================================================== *)
(** ** Python operations on decoded JSON *)

Module Py.

(** [bool(x)] *)
Definition truthy (x : json) : bool :=
  match x with
  | JNull => false
  | JBool b => b
  | JInt z => negb (z =? 0)%Z
  | JFloat f => negb (PrimFloat.eqb f PrimFloat.zero)
  | JStr s => Str.nonempty s
  | JList l => match l with [] => false | _ => true end
  | JDict d => match d with [] => false | _ => true end
  end.

(** [x.get(k)]: only a dictionary has the method. *)
Definition get (x : json) (k : string) : result json :=
  match x with
  | JDict d => Ok (match Dict.get k d with Some v => v | None => JNull end)
  | _ => Raise AttributeError
  end.

(** [for y in x]: a list gives its elements, a string its characters,
    a dictionary its keys; nothing else is iterable. *)
Definition iter (x : json) : result (list json) :=
  match x with
  | JList l => Ok l
  | JStr s =>
      Ok (map (fun c => JStr (String c EmptyString)) (list_ascii_of_string s))
  | JDict d => Ok (map (fun kv => JStr (fst kv)) d)
  | JNull | JBool _ | JInt _ | JFloat _ => Raise TypeError
  end.

End Py.

(* ================================================================== *)
(** ** The two patterns scanned over the raw markup *)

Module Re.

(** [re.findall]: the matches from left to right, without overlap.
    [at_start s] is the match of the pattern at the start of [s];
    [skip] counts the characters of the last match still to pass. *)
Fixpoint findall (at_start : string -> option string) (skip : nat)
    (s : string) : list string :=
  match s with
  | EmptyString => []
  | String _ r =>
      match skip with
      | S k => findall at_start k r
      | O =>
          match at_start s with
          | Some m => m :: findall at_start (String.length m - 1) r
          | None => findall at_start 0 r
          end
      end
  end.

Definition one_of (cs : string) (c : ascii) : bool :=
  existsb (Ascii.eqb c) (list_ascii_of_string cs).

Definition email_local (c : ascii) : bool := Str.is_alnum c || one_of "_.+-" c.
Definition email_domain (c : ascii) : bool := Str.is_alnum c || one_of "-" c.
Definition email_tail (c : ascii) : bool := Str.is_alnum c || one_of "-." c.

(** [[a-zA-Z0-9_.+-]+@[a-zA-Z0-9-]+\.[a-zA-Z0-9-.]+] at the start of
    [s].  [@] is outside the first class and [.] outside the second,
    so each of the first two runs is the longest one. *)
Definition email_at (s : string) : option string :=
  let a := Str.take_while email_local s in
  match a, Str.drop (String.length a) s with
  | String _ _, String "@" r1 =>
      let b := Str.take_while email_domain r1 in
      match b, Str.drop (String.length b) r1 with
      | String _ _, String "." r2 =>
          match Str.take_while email_tail r2 with
          | EmptyString => None
          | c => Some (a ++ "@" ++ b ++ "." ++ c)%string
          end
      | _, _ => None
      end
  | _, _ => None
  end.

Definition phone_mid (c : ascii) : bool :=
  Str.is_digit c || one_of "-()" c || Str.is_space c.

(** [\d[\d\-\s()]{6,}\d] at the start of [s]: after the first digit,
    the longest run of the class cut back to its last digit, which
    must leave at least seven characters. *)
Definition phone_body (s : string) : option string :=
  match s with
  | EmptyString => None
  | String d r =>
      if Str.is_digit d then
        let run :=
          Str.rstrip_by (fun c => negb (Str.is_digit c))
                        (Str.take_while phone_mid r) in
        if (7 <=? String.length run)%nat then Some (String d run) else None
      else None
  end.

(** [\+?\d[\d\-\s()]{6,}\d] at the start of [s]. *)
Definition phone_at (s : string) : option string :=
  match s with
  | String "+" r => option_map (String "+") (phone_body r)
  | _ => phone_body s
  end.

Definition findall_emails (html : string) : list string :=
  findall email_at 0 html.

Definition findall_phones (html : string) : list string :=
  findall phone_at 0 html.

End Re.

(* ================================================================== *)
(** ** The parsed document *)

Module Soup.

(** A BeautifulSoup tree.  A tag has its name, its attributes other
    than [class] (strings), its [class] attribute (which BeautifulSoup
    keeps as the list of the class names) and its contents. *)
Inductive node : Type :=
| NavigableString (s : string)
| Tag (name : string) (attrs : Dict.t string) (class_ : option (list string))
      (contents : list node).

Definition name (n : node) : string :=
  match n with Tag x _ _ _ => x | NavigableString _ => "" end.

(** [tag.get(k)] for an attribute other than [class]. *)
Definition get (k : string) (n : node) : option string :=
  match n with Tag _ a _ _ => Dict.get k a | NavigableString _ => None end.

(** [tag.get('class')] *)
Definition classes (n : node) : option (list string) :=
  match n with Tag _ _ c _ => c | NavigableString _ => None end.

Definition is_tag (n : node) : bool :=
  match n with Tag _ _ _ _ => true | NavigableString _ => false end.

(** The nodes below [n], in document order. *)
Fixpoint descendants (n : node) : list node :=
  match n with
  | NavigableString _ => []
  | Tag _ _ _ cs =>
      (fix go (l : list node) : list node :=
         match l with
         | [] => []
         | c :: r => c :: descendants c ++ go r
         end) cs
  end.

(** The strings below [n], in document order. *)
Fixpoint strings (n : node) : list string :=
  match n with
  | NavigableString s => [s]
  | Tag _ _ _ cs =>
      (fix go (l : list node) : list string :=
         match l with
         | [] => []
         | c :: r => strings c ++ go r
         end) cs
  end.

(** [tag.get_text(strip=True)]: the strings are stripped, the empty
    ones dropped, the others joined without a separator. *)
Definition get_text (n : node) : string :=
  String.concat "" (filter Str.nonempty (map Str.strip (strings n))).

(** [tag.string]: the single string of a tag, through single
    children. *)
Fixpoint string_ (n : node) : option string :=
  match n with
  | NavigableString s => Some s
  | Tag _ _ _ [c] => string_ c
  | Tag _ _ _ _ => None
  end.

(** [tag.find_all(...)] with the test [f] on tags, and [tag.find(...)],
    its first result. *)
Definition find_all (f : node -> bool) (n : node) : list node :=
  filter (fun d => is_tag d && f d) (descendants n).

Definition find (f : node -> bool) (n : node) : option node :=
  hd_error (find_all f n).

Definition named (x : string) (n : node) : bool := String.eqb (name n) x.

Definition has_attr (k : string) (n : node) : bool :=
  match get k n with Some _ => true | None => false end.

Definition has_class (c : string) (n : node) : bool :=
  match classes n with
  | Some l => existsb (String.eqb c) l
  | None => false
  end.

(** [tag.select('.c1, .c2, ...')]: the tags below that carry one of
    the classes, in document order. *)
Definition select (cs : list string) (n : node) : list node :=
  find_all (fun d => existsb (fun c => has_class c d) cs) n.

(** [class_=pattern]: the pattern is searched in each class name and
    in the names joined by spaces. *)
Definition class_search (re : string -> bool) (n : node) : bool :=
  match classes n with
  | Some l => existsb re l || re (String.concat " " l)
  | None => false
  end.

End Soup.

(* ================================================================== *)
(** ** FAQ Extractor: [try_fetch_faqs] *)

Module Faq.

(** The character a Python string literal writes [\b]: a backspace.
    The two patterns are not raw strings. *)
Definition backspace : string := String (ascii_of_nat 8) EmptyString.

(** [re.compile('question|q\b', re.I).search(s)] *)
Definition question_re (s : string) : bool :=
  Str.contains "question" (Str.lower s)
  || Str.contains ("q" ++ backspace)%string (Str.lower s).

(** [re.compile('answer|a\b', re.I).search(s)] *)
Definition answer_re (s : string) : bool :=
  Str.contains "answer" (Str.lower s)
  || Str.contains ("a" ++ backspace)%string (Str.lower s).

Definition entry (q a : string) : Dict.t string := [("q", q); ("a", a)].

(** The first loop: one entry per [details] element that has a
    [summary]. *)
Fixpoint details_loop (ds : list Soup.node) (faqs : list (Dict.t string))
    : list (Dict.t string) :=
  match ds with
  | [] => faqs
  | details :: rest =>
      match Soup.find (Soup.named "summary") details with
      | Some summary =>
          let q := Soup.get_text summary in
          let a := Str.strip (Str.replace q "" (Soup.get_text details)) in
          details_loop rest (faqs ++ [entry q a])
      | None => details_loop rest faqs
      end
  end.

(** The second loop, over the containers selected by class. *)
Fixpoint fallback_loop (lis : list Soup.node) (faqs : list (Dict.t string))
    : list (Dict.t string) :=
  match lis with
  | [] => faqs
  | li :: rest =>
      match Soup.find (Soup.class_search question_re) li,
            Soup.find (Soup.class_search answer_re) li with
      | Some q_tag, Some a_tag =>
          fallback_loop rest
            (faqs ++ [entry (Soup.get_text q_tag) (Soup.get_text a_tag)])
      | _, _ => fallback_loop rest faqs
      end
  end.

Definition containers : list string := ["faq"; "faqs"; "accordion"; "question"].

Definition try_fetch_faqs (soup : Soup.node) : list (Dict.t string) :=
  let faqs := details_loop (Soup.find_all (Soup.named "details") soup) [] in
  match faqs with
  | [] => fallback_loop (Soup.select containers soup) faqs
  | _ => faqs
  end.

End Faq.

(* ================================================================== *)
(** ** The pipeline *)

(** [extract_links_and_text]'s result, a dictionary with seven fixed
    keys. *)
Record Parsed : Type := mkParsed {
  parsed_title : option string;
  parsed_links : Dict.t string;
  parsed_product_cards : list (Dict.t string);
  parsed_emails : list string;
  parsed_phones : list string;
  parsed_about_text : option string;
  parsed_social : Dict.t string
}.

Section Pipeline.

(** [requests.get(url, headers=headers, timeout=timeout)] *)
Variable requests_get : string -> outcome.

(** [requests.compat.urljoin]: the joined URL, or [None] where it
    raises a [ValueError] (a reference with an unmatched bracket in its
    host part, such as [//[v6/contact]). *)
Variable urljoin : string -> string -> option string.

(** pydantic's [Product(id=.., title=.., handle=.., variants=..,
    images=..)]: the validated record, or [None] where it raises a
    [ValidationError]. *)
Variable new_Product : json -> json -> json -> json -> list json -> option Product.

(** [BeautifulSoup(html, "html.parser")] *)
Variable BeautifulSoup : string -> Soup.node.

(** [list(set(xs))]: the elements of a set of strings, in the order
    the interpreter iterates it. *)
Variable list_of_set : list string -> list string.

(** pydantic's validation of the field [website_url: HttpUrl] of the
    aggregate: the URL as the model keeps it (unchanged, or
    normalised), or [None] where it raises a [ValidationError]. *)
Variable HttpUrl : string -> option string.

(* ---------------------------------------------------------------- *)
(** *** Fetcher: [safe_get] *)

(** The [except] clause names [requests.RequestException] only. *)
Definition safe_get (url : string) : IO (option Response) :=
  fun log =>
    match requests_get url with
    | Returned r =>
        if (status_code r =? 200)%Z then (Ok (Some r), log ++ [url])
        else (Ok None, log ++ [url])
    | RequestException => (Ok None, log ++ [url])
    | Raised name => (Raise (LibraryError name), log ++ [url])
    end.

(* ---------------------------------------------------------------- *)
(** *** Catalog Normalizer: [fetch_products_json] *)

(** [data.get("products") or data.get("items") or []] *)
Definition raw_products (data : json) : result json :=
  let? a := Py.get data "products" in
  if Py.truthy a then Ok a else
  let? b := Py.get data "items" in
  if Py.truthy b then Ok b else Ok (JList []).

(** [[img.get("src") for img in p.get("images", [])] if p.get("images") else []] *)
Definition image_sources (p : json) : result (list json) :=
  let? flag := Py.get p "images" in
  if Py.truthy flag then
    let? imgs := Py.get p "images" in
    let? items := Py.iter imgs in
    map_result (fun img => Py.get img "src") items
  else Ok [].

(** The body of [for p in raw_products]: the arguments are evaluated
    in the order written, then the model validates them. *)
Definition product_of (p : json) : result Product :=
  let? i := Py.get p "id" in
  let? t := Py.get p "title" in
  let? h := Py.get p "handle" in
  let? v := Py.get p "variants" in
  let? imgs := image_sources p in
  match new_Product i t h v imgs with
  | Some prod => Ok prod
  | None => Raise ValueError
  end.

(** The loop: the products appended so far, and the exception that
    stopped it, if one did. *)
Fixpoint products_loop (raw : list json) (products : list Product)
    : list Product * option exn :=
  match raw with
  | [] => (products, None)
  | p :: rest =>
      match product_of p with
      | Ok prod => products_loop rest (products ++ [prod])
      | Raise e => (products, Some e)
      end
  end.

(** [r.json()] *)
Definition Response_json (r : Response) : result json :=
  match json_body r with
  | Some data => Ok data
  | None =>
      match json_error r with
      | JSONDecodeError => Raise ValueError
      | DecodeRaised name => Raise (LibraryError name)
      end
  end.

(** The [try] block. *)
Definition try_products (r : Response) : list Product * option exn :=
  match Response_json r with
  | Raise e => ([], Some e)
  | Ok data =>
      match raw_products data with
      | Raise e => ([], Some e)
      | Ok raw =>
          match Py.iter raw with
          | Raise e => ([], Some e)
          | Ok items => products_loop items []
          end
      end
  end.

Definition fetch_products_json (base_url : string) : IO (list Product) :=
  let candidate := (Str.rstrip_slash base_url ++ "/products.json")%string in
  r <- safe_get candidate ;;
  match r with
  | Some r =>
      match try_products r with
      | (products, None) => ret products
      | (products, Some ValueError) => ret products
      | (_, Some e) => raise e
      end
  | None => ret []
  end.

(* ---------------------------------------------------------------- *)
(** *** Page Analyzer: [extract_links_and_text] *)

Definition anchor (n : Soup.node) : bool :=
  Soup.named "a" n && Soup.has_attr "href" n.

(** [tag[k]] for an attribute known to be there. *)
Definition attr (k : string) (n : Soup.node) : string :=
  Str.or_empty (Soup.get k n).

Definition page_title (soup : Soup.node) : option string :=
  match Soup.find (Soup.named "title") soup with
  | Some t =>
      match Soup.string_ t with
      | Some s => if Str.nonempty s then Some (Str.strip s) else None
      | None => None
      end
  | None => None
  end.

Definition page_links (soup : Soup.node) : Dict.t string :=
  fold_left (fun d a => Dict.set (Soup.get_text a) (attr "href" a) d)
            (Soup.find_all anchor soup) [].

Definition card (href text : string) : Dict.t string :=
  [("href", href); ("text", text)].

Definition selectors : list string :=
  ["product-card"; "product"; "featured-product"; "grid-item";
   "product-grid-item"].

Definition selector_cards (soup : Soup.node) (sel : string)
    : list (Dict.t string) :=
  flat_map
    (fun c =>
       match Soup.find anchor c with
       | Some a => [card (attr "href" a) (Soup.get_text a)]
       | None => []
       end)
    (Soup.select [sel] soup).

Definition page_product_cards (soup : Soup.node) : list (Dict.t string) :=
  flat_map (selector_cards soup) selectors
  ++ map (fun tag => card (attr "data-product-handle" tag) (Soup.get_text tag))
         (Soup.find_all (Soup.has_attr "data-product-handle") soup).

Definition is_about (tag : Soup.node) : bool :=
  (Soup.named "p" tag || Soup.named "div" tag)
  && (Str.contains "about" (Str.lower (Str.or_empty (Soup.get "id" tag)))
      || Str.contains "about"
           (Str.lower
              (String.concat " "
                 (match Soup.classes tag with Some l => l | None => [] end)))).

Definition page_about_text (soup : Soup.node) : option string :=
  match Soup.find_all is_about soup with
  | [] =>
      match Soup.find
              (fun n => Soup.named "meta" n
                        && match Soup.get "name" n with
                           | Some v => String.eqb v "description"
                           | None => false
                           end) soup with
      | Some desc =>
          if Str.truthy (Soup.get "content" desc)
          then Soup.get "content" desc else None
      | None => None
      end
  | about_candidates =>
      Some (String.concat " " (map Soup.get_text (firstn 3 about_candidates)))
  end.

(** The body of the loop over the anchors that fills [social]. *)
Definition social_step (social : Dict.t string) (href : string)
    : Dict.t string :=
  if Str.contains "instagram.com" href then Dict.set "instagram" href social
  else if Str.contains "facebook.com" href then Dict.set "facebook" href social
  else if Str.contains "twitter.com" href || Str.contains "x.com" href
       then Dict.set "twitter" href social
  else if Str.contains "tiktok.com" href then Dict.set "tiktok" href social
  else if Str.contains "youtube.com" href then Dict.set "youtube" href social
  else social.

Definition page_social (soup : Soup.node) : Dict.t string :=
  fold_left social_step (map (attr "href") (Soup.find_all anchor soup)) [].

Definition extract_links_and_text (html : string) : Parsed :=
  let soup := BeautifulSoup html in
  {| parsed_title := page_title soup;
     parsed_links := page_links soup;
     parsed_product_cards := page_product_cards soup;
     parsed_emails := list_of_set (Re.findall_emails html);
     parsed_phones := list_of_set (Re.findall_phones html);
     parsed_about_text := page_about_text soup;
     parsed_social := page_social soup |}.

(* ---------------------------------------------------------------- *)
(** *** Policy Resolver: [find_policy_links] *)

Definition patterns : list (string * list string) :=
  [("privacy_policy",
    ["/policies/privacy-policy"; "/policies/privacy-policy/"]);
   ("refund_policy",
    ["/policies/refund-policy"; "/policies/refund-policy/";
     "/policies/returns"; "/policies/return-policy"]);
   ("terms_of_service",
    ["/policies/terms-of-service"; "/policies/terms-of-service/"])].

Definition initial_policies : Dict.t (option string) :=
  [("privacy_policy", None); ("refund_policy", None);
   ("terms_of_service", None)].

(** [requests.compat.urljoin(base, v)] as the file calls it, outside
    any [try]. *)
Definition joined (base v : string) : result string :=
  match urljoin base v with
  | Some u => Ok u
  | None => Raise ValueError
  end.

(** [for pat in pats: if pat in v: policies[name] = urljoin(base, v)] *)
Definition link_step (base name : string) (pats : list string)
    (policies : Dict.t (option string)) (v : string)
    : result (Dict.t (option string)) :=
  fold_result
    (fun pol pat =>
       if Str.contains pat v then
         let? u := joined base v in
         Ok (Dict.set name (Some u) pol)
       else Ok pol)
    pats policies.

(** [for k, v in html_links.items(): if not v: continue ...] *)
Definition link_scan (base name : string) (pats : list string)
    (html_links : Dict.t string) (policies : Dict.t (option string))
    : result (Dict.t (option string)) :=
  fold_result
    (fun pol kv =>
       if Str.nonempty (snd kv) then link_step base name pats pol (snd kv)
       else Ok pol)
    html_links policies.

(** The truth value of [policies[name]]; [name] is always a key. *)
Definition resolved (name : string) (policies : Dict.t (option string))
    : bool :=
  match Dict.get name policies with
  | Some o => Str.truthy o
  | None => false
  end.

(** The probing loop, left at the first reachable candidate. *)
Fixpoint probe (base name : string) (pats : list string)
    (policies : Dict.t (option string)) : IO (Dict.t (option string)) :=
  match pats with
  | [] => ret policies
  | pat :: rest =>
      let candidate := (base ++ pat)%string in
      r <- safe_get candidate ;;
      match r with
      | Some _ => ret (Dict.set name (Some candidate) policies)
      | None => probe base name rest policies
      end
  end.

(** [for name, pats in patterns.items()] *)
Fixpoint categories (base : string) (html_links : Dict.t string)
    (cats : list (string * list string))
    (policies : Dict.t (option string)) : IO (Dict.t (option string)) :=
  match cats with
  | [] => ret policies
  | (name, pats) :: rest =>
      scanned <- lift (link_scan base name pats html_links policies) ;;
      policies' <- (if resolved name scanned then ret scanned
                    else probe base name pats scanned) ;;
      categories base html_links rest policies'
  end.

Definition find_policy_links (base_url : string) (html_links : Dict.t string)
    : IO (Dict.t (option string)) :=
  categories (Str.rstrip_slash base_url) html_links patterns initial_policies.

(* ---------------------------------------------------------------- *)
(** *** Context Assembler: [fetch_insights] *)

(** [important[key] = requests.compat.urljoin(website_url, href)] *)
Definition file_link (website_url key href : string)
    (important : Dict.t string) : result (Dict.t string) :=
  let? u := joined website_url href in
  Ok (Dict.set key u important).

(** The body of the loop that fills [important]. *)
Definition important_step (website_url : string)
    (important : Dict.t string) (kv : string * string)
    : result (Dict.t string) :=
  let (text, href) := kv in
  if Str.nonempty href then
    let ltext := Str.lower text in
    let href_l := Str.lower href in
    let? i1 :=
      (if Str.contains "track" ltext || Str.contains "track" href_l
       then file_link website_url "order_tracking" href important
       else Ok important) in
    let? i2 :=
      (if Str.contains "contact" ltext || Str.contains "contact" href_l
       then file_link website_url "contact" href i1
       else Ok i1) in
    if Str.contains "blog" ltext || Str.contains "/blogs" href_l
    then file_link website_url "blog" href i2
    else Ok i2
  else Ok important.

(** The loop that fills [important]. *)
Definition important_loop (website_url : string) (html_links : Dict.t string)
    : result (Dict.t string) :=
  fold_result (important_step website_url) html_links [].

(** [fetch_insights] from [html = r.text] on: the page is analysed,
    the feed fetched, the policies resolved, the important links
    joined and the aggregate built and validated; the model keeps the
    URL as [HttpUrl] gives it.  The optional write to the database is
    left out: its errors are swallowed and it does not change the
    value returned. *)
Definition build_context (website_url html : string) : IO BrandContext :=
  let parsed := extract_links_and_text html in
  products <- fetch_products_json website_url ;;
  let hero_candidates := parsed_product_cards parsed in
  let hero_products :=
    Hero.hero_product_matches hero_candidates products website_url in
  policies <- find_policy_links website_url (parsed_links parsed) ;;
  let soup := BeautifulSoup html in
  let faqs := Faq.try_fetch_faqs soup in
  important <- lift (important_loop website_url (parsed_links parsed)) ;;
  let contact :=
    {| emails := parsed_emails parsed;
       phones := parsed_phones parsed;
       addresses := [] |} in
  let metadata :=
    [("found_products_count", Z.of_nat (length products));
     ("found_hero_count", Z.of_nat (length hero_products))] in
  match HttpUrl website_url with
  | Some validated =>
      ret {| website_url := validated;
             store_title := parsed_title parsed;
             about_text := parsed_about_text parsed;
             products := products;
             hero_products := hero_products;
             policies := policies;
             faqs := faqs;
             social_handles := parsed_social parsed;
             contact := contact;
             important_links := important;
             metadata := metadata |}
  | None => raise ValueError
  end.

(** The exception raised when the page cannot be fetched. *)
Definition unreachable (website_url : string) : exn :=
  HTTPException 401
    ("Website not found or unreachable: " ++ website_url)%string.

(** The retry of the page fetch: the response and the URL kept. *)
Definition retry_www (website_url : string) : IO (option Response * string) :=
  if Str.startswith "https://" website_url
     && negb (Str.contains "www." website_url)
  then
    let alt := Str.replace "https://" "https://www." website_url in
    r <- safe_get alt ;;
    match r with
    | Some _ => ret (r, alt)
    | None => ret (r, website_url)
    end
  else ret (None, website_url).

Definition fetch_insights (payload : Dict.t string) : IO BrandContext :=
  if Str.truthy (Dict.get "website_url" payload) then
    let website_url := Str.or_empty (Dict.get "website_url" payload) in
    let website_url :=
      if Str.startswith "http" website_url then website_url
      else ("https://" ++ website_url)%string in
    r <- safe_get website_url ;;
    fetched <- match r with
               | Some _ => ret (r, website_url)
               | None => retry_www website_url
               end ;;
    match fetched with
    | (Some r, website_url) => build_context website_url (text r)
    | (None, website_url) => raise (unreachable website_url)
    end
  else raise (HTTPException 400 "website_url is required").

End Pipeline.

(* ================================================================== *)
(** ** Reading the social-handle loop *)

Module Social.

Definition platforms : list string :=
  ["instagram"; "facebook"; "twitter"; "tiktok"; "youtube"].

(** The platform an href is filed under: the first test of the
    [if]/[elif] chain that succeeds. *)
Definition platform_of (href : string) : option string :=
  if Str.contains "instagram.com" href then Some "instagram"
  else if Str.contains "facebook.com" href then Some "facebook"
  else if Str.contains "twitter.com" href || Str.contains "x.com" href
       then Some "twitter"
  else if Str.contains "tiktok.com" href then Some "tiktok"
  else if Str.contains "youtube.com" href then Some "youtube"
  else None.

Definition filed (platform href : string) : bool :=
  match platform_of href with
  | Some q => String.eqb platform q
  | None => false
  end.

(** The last href of the list filed under the platform. *)
Fixpoint last_filed (platform : string) (hrefs : list string)
    : option string :=
  match hrefs with
  | [] => None
  | h :: r =>
      match last_filed platform r with
      | Some x => Some x
      | None => if filed platform h then Some h else None
      end
  end.

End Social.

(* ================================================================== *)
(** ** Reading the Policy Resolver *)

Module Policy.

(** [v] contains one of the path substrings of the category. *)
Definition hits (pats : list string) (v : string) : bool :=
  existsb (fun pat => Str.contains pat v) pats.

(** The last href of the link table that contains one of them. *)
Fixpoint last_match (pats : list string) (html_links : Dict.t string)
    : option string :=
  match html_links with
  | [] => None
  | (_, v) :: r =>
      match last_match pats r with
      | Some x => Some x
      | None => if hits pats v then Some v else None
      end
  end.

Section Probing.
Variable requests_get : string -> outcome.
Variable urljoin : string -> string -> option string.

(** [safe_get url] returns a response. *)
Definition reachable (url : string) : bool :=
  match requests_get url with
  | Returned r => (status_code r =? 200)%Z
  | RequestException => false
  | Raised _ => false
  end.

(** [safe_get url] returns [None]. *)
Definition absent (url : string) : bool :=
  match requests_get url with
  | Returned r => negb (status_code r =? 200)%Z
  | RequestException => true
  | Raised _ => false
  end.

(** [requests.get] raises nothing but a [RequestException] on the
    URLs of [urls], so [safe_get] returns on each. *)
Definition answered (urls : list string) : Prop :=
  forall url name, In url urls -> requests_get url <> Raised name.

(** Some href of the table contains one of the substrings of the
    category and [urljoin] raises on it. *)
Definition unjoinable (base : string) (pats : list string)
    (html_links : Dict.t string) : bool :=
  existsb
    (fun kv =>
       hits pats (snd kv)
       && match urljoin base (snd kv) with Some _ => false | None => true end)
    html_links.

(** [probed base pats probes value]: probing the candidates
    [base + pat] in the order of [pats] makes the requests [probes]
    and records [value]: every candidate before the first reachable
    one is requested and gives [None], the first reachable one is
    requested and recorded, and nothing is requested after it. *)
Inductive probed (base : string)
  : list string -> list string -> option string -> Prop :=
| probed_nil : probed base [] [] None
| probed_hit pat rest :
    reachable (base ++ pat)%string = true ->
    probed base (pat :: rest) [(base ++ pat)%string]
           (Some (base ++ pat)%string)
| probed_miss pat rest probes value :
    absent (base ++ pat)%string = true ->
    probed base rest probes value ->
    probed base (pat :: rest) ((base ++ pat)%string :: probes) value.

(** Why the resolver raises [e] on a link table, for the path
    substrings [pats]: [urljoin] raised its [ValueError] on an href
    that contains one of them, or [requests.get] let [e] through on
    one of the candidates. *)
Definition library_raised (base : string) (html_links : Dict.t string)
    (pats : list string) (e : exn) : Prop :=
  (e = ValueError
   /\ exists kv,
        In kv html_links /\ hits pats (snd kv) = true
        /\ urljoin base (snd kv) = None)
  \/ (exists pat name,
         In pat pats
         /\ requests_get (base ++ pat)%string = Raised name
         /\ e = LibraryError name).

(** What the resolver does for one category: when some href of the
    link table contains one of its substrings, the value is the
    join of the base and the last such href and nothing is probed;
    when none does, the candidates are probed. *)
Definition category (base : string) (html_links : Dict.t string)
    (pats : list string) (value : option string) (probes : list string)
    : Prop :=
  (forall l1 k v l2,
      html_links = l1 ++ (k, v) :: l2 ->
      hits pats v = true ->
      (forall kv, In kv l2 -> hits pats (snd kv) = false) ->
      value = urljoin base v /\ probes = [])
  /\ ((forall kv, In kv html_links -> hits pats (snd kv) = false) ->
      probed base pats probes value).
End Probing.

Definition privacy_pats : list string :=
  ["/policies/privacy-policy"; "/policies/privacy-policy/"].
Definition refund_pats : list string :=
  ["/policies/refund-policy"; "/policies/refund-policy/";
   "/policies/returns"; "/policies/return-policy"].
Definition terms_pats : list string :=
  ["/policies/terms-of-service"; "/policies/terms-of-service/"].

End Policy.

(* ================================================================== *)
(** ** Comparing two runs *)

Module Runs.

(** What the language promises of [list(set(xs))]: the elements of
    [xs], each once, in some order.  For strings the order follows
    their hashes, which the interpreter salts anew in every process
    unless [PYTHONHASHSEED] is fixed. *)
Definition set_order (list_of_set : list string -> list string) : Prop :=
  forall xs,
    NoDup (list_of_set xs) /\ (forall x, In x (list_of_set xs) <-> In x xs).

(** Two aggregates that agree on every field, the e-mail and phone
    lists being equal up to their order. *)
Definition same_but_contact_order (c1 c2 : BrandContext) : Prop :=
  website_url c1 = website_url c2
  /\ store_title c1 = store_title c2
  /\ about_text c1 = about_text c2
  /\ products c1 = products c2
  /\ hero_products c1 = hero_products c2
  /\ policies c1 = policies c2
  /\ faqs c1 = faqs c2
  /\ social_handles c1 = social_handles c2
  /\ important_links c1 = important_links c2
  /\ metadata c1 = metadata c2
  /\ addresses (contact c1) = addresses (contact c2)
  /\ Permutation (emails (contact c1)) (emails (contact c2))
  /\ Permutation (phones (contact c1)) (phones (contact c2)).

(** Two outcomes of the operation that agree in that sense. *)
Definition agree (r1 r2 : result BrandContext) : Prop :=
  match r1, r2 with
  | Ok c1, Ok c2 => same_but_contact_order c1 c2
  | Raise e1, Raise e2 => e1 = e2
  | _, _ => False
  end.

End Runs.

(* ================================================================== *)
(** ** Sample environments *)

(** Concrete instances of the section's variables, and sample pages,
    on which the pipeline is evaluated. *)
Module Sample.

(** A validator that accepts the values of the annotated types:
    [Optional[int]], [Optional[str]], [Optional[List[Dict]]] and
    [List[str]]. *)
Definition typed_Product (i t h v : json) (imgs : list json)
    : option Product :=
  let opt_int x :=
    match x with JNull => Some None | JInt z => Some (Some z) | _ => None end in
  let opt_str x :=
    match x with JNull => Some None | JStr s => Some (Some s) | _ => None end in
  let dict x := match x with JDict d => Some d | _ => None end in
  let str x := match x with JStr s => Some s | _ => None end in
  let fix all (A : Type) (f : json -> option A) (l : list json)
      : option (list A) :=
    match l with
    | [] => Some []
    | x :: r =>
        match f x, all A f r with
        | Some y, Some ys => Some (y :: ys)
        | _, _ => None
        end
    end in
  match opt_int i, opt_str t, opt_str h,
        match v with
        | JNull => Some None
        | JList l => option_map Some (all _ dict l)
        | _ => None
        end,
        all _ str imgs with
  | Some i', Some t', Some h', Some v', Some imgs' =>
      Some {| id := i'; title := t'; handle := h'; variants := v';
              images := Some imgs' |}
  | _, _, _, _, _ => None
  end.

(** A join that appends the reference to the base. *)
Definition concat_join (base v : string) : option string :=
  Some (base ++ v)%string.

(** A join that raises on a reference that opens a bracketed host,
    as [urljoin] does on [//[v6/contact] ("Invalid IPv6 URL"), and
    appends otherwise. *)
Definition strict_join (base v : string) : option string :=
  if Str.startswith "//[" v then None else Some (base ++ v)%string.

(** A validation that accepts every URL and keeps it. *)
Definition kept : string -> option string := fun u => Some u.

(** A validation that accepts every URL and gives it back with the
    empty path written out, as pydantic 2 does. *)
Definition slashed : string -> option string :=
  fun u => Some (u ++ "/")%string.

(** A validation that refuses every URL longer than [n] characters. *)
Definition at_most (n : nat) : string -> option string :=
  fun u => if Nat.leb (String.length u) n then Some u else None.

(** Two iteration orders of a set: by first occurrence, and the
    reverse. *)
Fixpoint first_seen (l : list string) : list string :=
  match l with
  | [] => []
  | x :: r => x :: filter (fun y => negb (String.eqb y x)) (first_seen r)
  end.

Definition last_seen (l : list string) : list string := rev (first_seen l).

Definition document (contents : list Soup.node) : Soup.node :=
  Soup.Tag "[document]" [] None contents.

Definition element (name : string) (class_ : string) (s : string)
    : Soup.node :=
  Soup.Tag name [] (Some [class_]) [Soup.NavigableString s].

Definition link (href s : string) : Soup.node :=
  Soup.Tag "a" [("href", href)] None [Soup.NavigableString s].

(** A direct answer with the status [status]; [decoded] is what
    [.json()] gives for the body, and it raises a [JSONDecodeError]
    when there is none. *)
Definition response (status : Z) (body : string) (decoded : option json)
    : Response :=
  {| status_code := status; history := []; text := body;
     json_body := decoded; json_error := JSONDecodeError |}.

(** An answer with status 200. *)
Definition ok (body : string) (decoded : option json) : outcome :=
  Returned (response 200 body decoded).

(** The answer of a page that moved: a redirect with status 301 was
    followed to a page that answered 200. *)
Definition moved (body : string) : Response :=
  {| status_code := 200; history := [301%Z]; text := body;
     json_body := None; json_error := JSONDecodeError |}.

(** An answer with status 200 whose body is nested too deeply for
    [.json()]. *)
Definition too_deep (body : string) : Response :=
  {| status_code := 200; history := []; text := body;
     json_body := None; json_error := DecodeRaised "RecursionError" |}.

(** A network where nothing answers. *)
Definition offline : string -> outcome := fun _ => RequestException.

(** A network where the page [home] answers with [body], the feed
    [feed] answers with a body that decodes to [decoded] (its text is
    not read), and nothing else answers. *)
Definition shop (home body feed : string) (decoded : option json)
    : string -> outcome :=
  fun url =>
    if String.eqb url home then ok body None
    else if String.eqb url feed then ok "" decoded
    else RequestException.

(** [{"products":[{"id":1,"title":"Widget","handle":"widget"}]}] *)
Definition widget_feed : json :=
  JDict [("products",
          JList [JDict [("id", JInt 1); ("title", JStr "Widget");
                        ("handle", JStr "widget")]])].

Definition widget : Product :=
  {| id := Some 1%Z; title := Some "Widget"; handle := Some "widget";
     variants := None; images := Some [] |}.

(** [{"products":[{"id":1,"images":["a.png"]}]}]: the images are
    strings, not objects. *)
Definition plain_images_feed : json :=
  JDict [("products",
          JList [JDict [("id", JInt 1); ("images", JList [JStr "a.png"])]])].

(** Scenario A: a title and a meta description. *)
Definition acme_html : string :=
  "<title>Acme Store</title><meta name='description' content='Acme sells widgets'>".

Definition acme_page : Soup.node :=
  document
    [Soup.Tag "title" [] None [Soup.NavigableString "Acme Store"];
     Soup.Tag "meta"
       [("name", "description"); ("content", "Acme sells widgets")] None []].

(** The aggregate of Scenario A. *)
Definition acme_context : BrandContext :=
  {| website_url := "https://acme.example";
     store_title := Some "Acme Store";
     about_text := Some "Acme sells widgets";
     products := [];
     hero_products := [];
     policies :=
       [("privacy_policy", None); ("refund_policy", None);
        ("terms_of_service", None)];
     faqs := [];
     social_handles := [];
     contact := {| emails := []; phones := []; addresses := [] |};
     important_links := [];
     metadata := [("found_products_count", 0%Z); ("found_hero_count", 0%Z)] |}.

(** A page that shows two e-mail addresses. *)
Definition two_emails_html : string := "<p>a@b.co c@d.co</p>".

Definition two_emails_page : Soup.node :=
  document [Soup.Tag "p" [] None [Soup.NavigableString "a@b.co c@d.co"]].

Definition two_links_html : string :=
  "<a href='https://facebook.com/brand'>Facebook</a><a href='https://instagram.com/share?u=facebook.com/brand'>Share</a>".

(** A page with two links; the second names both platforms. *)
Definition two_links_page : Soup.node :=
  document
    [link "https://facebook.com/brand" "Facebook";
     link "https://instagram.com/share?u=facebook.com/brand" "Share"].

(** [<div class="faq"><div class="c1">How?</div><div class="c2">So.</div></div>] *)
Definition faq_page (c1 c2 : string) : Soup.node :=
  document
    [Soup.Tag "div" [] (Some ["faq"])
       [element "div" c1 "How?"; element "div" c2 "So."]].

End Sample.

(* ================================================================== *)
(** ** Reading the loops of the pipeline *)

Module Lookup.

(** The key of a product in the lookup of the Hero Matcher:
    [(p.handle or '').lower()]. *)
Definition lowered_handle (p : Product) : string :=
  Str.lower (Str.or_empty (handle p)).

(** A product with a non-empty handle or a non-empty title. *)
Definition named_product (p : Product) : bool :=
  Str.truthy (handle p) || Str.truthy (title p).

End Lookup.

Module Feed.

Definition is_dict (x : json) : bool :=
  match x with JDict _ => true | _ => false end.

(** An entry the loop of the Catalog Normalizer can read: an object
    whose [images] value is missing, falsy, or a list of objects. *)
Definition entry_ok (p : json) : bool :=
  match p with
  | JDict d =>
      match Dict.get "images" d with
      | None => true
      | Some v =>
          negb (Py.truthy v)
          || match v with JList imgs => forallb is_dict imgs | _ => false end
      end
  | _ => false
  end.

(** The URL of the feed of a shop. *)
Definition url (base_url : string) : string :=
  (Str.rstrip_slash base_url ++ "/products.json")%string.

End Feed.

Module Paths.

(** Every path the Policy Resolver can probe. *)
Definition all : list string :=
  Policy.privacy_pats ++ Policy.refund_pats ++ Policy.terms_pats.

Definition policy_keys : list string :=
  ["privacy_policy"; "refund_policy"; "terms_of_service"].

End Paths.

Module Important.

Definition keys : list string := ["order_tracking"; "contact"; "blog"].

(** The three tests of the loop that fills [important]. *)
Definition tracks (kv : string * string) : bool :=
  Str.contains "track" (Str.lower (fst kv))
  || Str.contains "track" (Str.lower (snd kv)).

Definition contacts (kv : string * string) : bool :=
  Str.contains "contact" (Str.lower (fst kv))
  || Str.contains "contact" (Str.lower (snd kv)).

Definition blogs (kv : string * string) : bool :=
  Str.contains "blog" (Str.lower (fst kv))
  || Str.contains "/blogs" (Str.lower (snd kv)).

(** The last link of the table, with a non-empty href, that passes a
    test. *)
Definition last_link (test : string * string -> bool)
    (html_links : Dict.t string) : option (string * string) :=
  find (fun kv => Str.nonempty (snd kv) && test kv) (rev html_links).

(** A link whose href is joined: it has a non-empty href and passes
    one of the three tests. *)
Definition passes (kv : string * string) : bool :=
  Str.nonempty (snd kv) && (tracks kv || contacts kv || blogs kv).

(** What one turn of the loop writes for a link that is joined to
    [u]. *)
Definition written (u : string) (kv : string * string)
    (important : Dict.t string) : Dict.t string :=
  let i1 :=
    if tracks kv then Dict.set "order_tracking" u important
    else important in
  let i2 := if contacts kv then Dict.set "contact" u i1 else i1 in
  if blogs kv then Dict.set "blog" u i2 else i2.

(** The join of the website URL and the href of a link, if there is
    a link. *)
Definition joined_link (urljoin : string -> string -> option string)
    (website_url : string) (link : option (string * string))
    : option string :=
  match link with
  | Some kv => urljoin website_url (snd kv)
  | None => None
  end.

End Important.

Module Pydantic.

(** A validation of [HttpUrl] that keeps the scheme: a URL that
    starts with [http] is kept or normalised into one that does. *)
Definition keeps_scheme (HttpUrl : string -> option string) : Prop :=
  forall u v,
    HttpUrl u = Some v ->
    Str.startswith "http" u = true -> Str.startswith "http" v = true.

(** pydantic's [HttpUrl]: the scheme of a URL it accepts is [http] or
    [https], in pydantic 1, which keeps the string, and in pydantic 2,
    which renders the normalised URL. *)
Record HttpUrl_type : Type := mkHttpUrl {
  validate : string -> option string;
  validate_keeps_scheme : keeps_scheme validate
}.

(** The validation that accepts every URL and keeps it. *)
Definition kept : HttpUrl_type :=
  {| validate := Sample.kept;
     validate_keeps_scheme :=
       fun u v (H : Some u = Some v) (S : Str.startswith "http" u = true) =>
         eq_ind u (fun w => Str.startswith "http" w = true) S v
           (f_equal (fun o => match o with Some x => x | None => u end) H) |}.

End Pydantic.

Module Aggregate.

(** What every aggregate satisfies. *)
Definition well_formed (ctx : BrandContext) : Prop :=
  Str.startswith "http" (website_url ctx) = true
  /\ incl (hero_products ctx) (products ctx)
  /\ length (hero_products ctx) <= length (products ctx)
  /\ metadata ctx
     = [("found_products_count", Z.of_nat (length (products ctx)));
        ("found_hero_count", Z.of_nat (length (hero_products ctx)))]
  /\ Dict.keys (policies ctx) = Paths.policy_keys
  /\ incl (Dict.keys (social_handles ctx)) Social.platforms
  /\ incl (Dict.keys (important_links ctx)) Important.keys
  /\ addresses (contact ctx) = [].

End Aggregate.

Module FaqRead.

(** A [details] element that has a [summary] below it. *)
Definition with_summary (details : Soup.node) : bool :=
  match Soup.find (Soup.named "summary") details with
  | Some _ => true
  | None => false
  end.

(** The text of the [summary] of a [details] element. *)
Definition summary_text (details : Soup.node) : option string :=
  option_map Soup.get_text (Soup.find (Soup.named "summary") details).

(** An entry with exactly the keys [q] and [a]. *)
Definition keyed (e : Dict.t string) : Prop := Dict.keys e = ["q"; "a"].

End FaqRead.
(* ================================================================== *)
(** ** Properties of dictionaries *)

Module DictFacts.

Section Facts.
Variable V : Type.
Implicit Types (d : Dict.t V) (k : string) (v : V).

Lemma get_set k k' v d :
  Dict.get k (Dict.set k' v d)
  = if String.eqb k k' then Some v else Dict.get k d.
Proof.
  induction d as [|[k0 v0] r IH]; simpl.
  - reflexivity.
  - destruct (String.eqb_spec k' k0) as [->|Hne]; simpl.
    + destruct (String.eqb k k0); reflexivity.
    + rewrite IH. destruct (String.eqb_spec k k0) as [->|Hne'].
      * destruct (String.eqb_spec k0 k'); [congruence | reflexivity].
      * reflexivity.
Qed.

Lemma get_set_same k v d : Dict.get k (Dict.set k v d) = Some v.
Proof. now rewrite get_set, String.eqb_refl. Qed.

(** Writing a key twice leaves the second value. *)
Lemma set_set k v v' d : Dict.set k v' (Dict.set k v d) = Dict.set k v' d.
Proof.
  induction d as [|[k0 v0] r IH]; simpl.
  - now rewrite String.eqb_refl.
  - destruct (String.eqb k k0) eqn:E; simpl; rewrite E.
    + reflexivity.
    + now rewrite IH.
Qed.

Lemma get_in_keys k d : Dict.get k d <> None <-> In k (Dict.keys d).
Proof.
  induction d as [|[k0 v0] r IH]; simpl.
  - split; [congruence | intros []].
  - destruct (String.eqb_spec k k0) as [->|Hne].
    + split; [now left | discriminate].
    + rewrite IH. split; [now right | intros [E|H]; congruence].
Qed.

(** Writing a key that is there keeps the keys; a new key goes
    last. *)
Lemma keys_set k v d :
  Dict.keys (Dict.set k v d)
  = if Dict.mem k d then Dict.keys d else Dict.keys d ++ [k].
Proof.
  unfold Dict.mem. induction d as [|[k0 v0] r IH]; simpl.
  - reflexivity.
  - destruct (String.eqb k k0); simpl.
    + reflexivity.
    + rewrite IH. now destruct (Dict.get k r).
Qed.

Lemma keys_set_incl k v d (l : list string) :
  In k l -> incl (Dict.keys d) l -> incl (Dict.keys (Dict.set k v d)) l.
Proof.
  intros Hk Hd. rewrite keys_set. destruct (Dict.mem k d).
  - assumption.
  - apply incl_app; [assumption|]. intros x [<-|[]]. assumption.
Qed.

Lemma keys_set_NoDup k v d :
  NoDup (Dict.keys d) -> NoDup (Dict.keys (Dict.set k v d)).
Proof.
  intros Hd. rewrite keys_set. unfold Dict.mem.
  destruct (Dict.get k d) eqn:E; [assumption|].
  apply NoDup_app; [assumption | repeat constructor; intros [] |].
  intros x Hx [<-|[]]. apply get_in_keys in Hx. congruence.
Qed.
End Facts.

End DictFacts.

(* ================================================================== *)
(** ** Properties of the Hero Matcher *)

Module HeroFacts.
Import Hero.

Lemma dedup_keep_first heroes :
  forall unique seen,
    dedup heroes unique seen = unique ++ keep_first seen heroes.
Proof.
  induction heroes as [|h rest IH]; intros unique seen; simpl.
  - now rewrite app_nil_r.
  - destruct (seen_mem (identity_key h) seen).
    + apply IH.
    + rewrite IH, <- app_assoc. reflexivity.
Qed.

Lemma seen_mem_true key seen : seen_mem key seen = true <-> In key seen.
Proof.
  unfold seen_mem. rewrite existsb_exists. split.
  - intros [x [Hin Heq]]. apply String.eqb_eq in Heq. now subst.
  - intros Hin. exists key. split; [assumption | apply String.eqb_refl].
Qed.

Lemma seen_mem_false key seen : seen_mem key seen = false <-> ~ In key seen.
Proof.
  rewrite <- seen_mem_true. destruct (seen_mem key seen); split; congruence.
Qed.

Lemma keep_first_subseq heroes :
  forall seen, subseq (keep_first seen heroes) heroes.
Proof.
  induction heroes as [|h rest IH]; intros seen; simpl.
  - constructor.
  - destruct (seen_mem (identity_key h) seen); constructor; apply IH.
Qed.

Lemma subseq_incl (A : Type) (l1 l2 : list A) : subseq l1 l2 -> incl l1 l2.
Proof.
  induction 1; intros y Hy.
  - assumption.
  - right. auto.
  - destruct Hy as [->|Hy]; [now left | right; auto].
Qed.

Lemma keep_first_fresh heroes :
  forall seen x, In x (keep_first seen heroes) -> ~ In (identity_key x) seen.
Proof.
  induction heroes as [|h rest IH]; intros seen x; simpl.
  - intros [].
  - destruct (seen_mem (identity_key h) seen) eqn:Hm.
    + apply IH.
    + intros [<-|Hin].
      * now apply seen_mem_false.
      * intros Hs. apply (IH _ _ Hin). now right.
Qed.

Lemma keep_first_NoDup heroes :
  forall seen, NoDup (map identity_key (keep_first seen heroes)).
Proof.
  induction heroes as [|h rest IH]; intros seen; simpl.
  - constructor.
  - destruct (seen_mem (identity_key h) seen).
    + apply IH.
    + simpl. constructor; [|apply IH].
      intros Hin. apply in_map_iff in Hin. destruct Hin as [x [Hk Hx]].
      apply keep_first_fresh in Hx. apply Hx. left. now symmetry.
Qed.

Lemma keep_first_first heroes :
  forall seen h,
    In h heroes -> ~ In (identity_key h) seen ->
    exists h', find (same_key h) heroes = Some h'
               /\ In h' (keep_first seen heroes).
Proof.
  induction heroes as [|h0 rest IH]; intros seen h Hin Hfresh.
  - destruct Hin.
  - simpl. unfold same_key at 1.
    destruct (seen_mem (identity_key h0) seen) eqn:Hm.
    + apply seen_mem_true in Hm.
      destruct (String.eqb_spec (identity_key h0) (identity_key h)) as [E|E].
      * exfalso. apply Hfresh. now rewrite <- E.
      * destruct Hin as [->|Hin]; [congruence|]. now apply IH.
    + destruct (String.eqb_spec (identity_key h0) (identity_key h)) as [E|E].
      * exists h0. split; [reflexivity | now left].
      * destruct Hin as [->|Hin]; [congruence|].
        destruct (IH (identity_key h0 :: seen) h Hin) as [h' [Hf Hk]].
        { intros [F|F]; [congruence | contradiction]. }
        exists h'. split; [assumption | now right].
Qed.

(** The lookup built from the catalog only holds catalog products. *)
Lemma lookup_in_catalog l :
  forall (d : Dict.t Product) (all : list Product),
    incl l all ->
    (forall k p, Dict.get k d = Some p -> In p all) ->
    forall k p,
      Dict.get k
        (fold_left
           (fun d p => Dict.set (Str.lower (Str.or_empty (handle p))) p d)
           l d) = Some p ->
      In p all.
Proof.
  induction l as [|q r IH]; intros d all Hl Hd k p; simpl.
  - apply Hd.
  - apply IH.
    + intros x Hx. apply Hl. now right.
    + intros k0 p0. rewrite DictFacts.get_set.
      destruct (String.eqb k0 _).
      * intros [= <-]. apply Hl. now left.
      * apply Hd.
Qed.

Lemma handles_to_product_in products k p :
  Dict.get k (handles_to_product products) = Some p -> In p products.
Proof.
  unfold handles_to_product.
  apply lookup_in_catalog; [apply incl_refl | discriminate].
Qed.

Lemma card_match_in products card p :
  card_match products (handles_to_product products) card = Some p ->
  In p products.
Proof.
  unfold card_match.
  destruct (option_map Str.lower _) as [h|].
  - destruct (Str.nonempty h).
    + destruct (Dict.get h _) as [q|] eqn:Hg.
      * intros [= <-]. eapply handles_to_product_in; eauto.
      * intros Hf. now apply find_some in Hf.
    + intros Hf. now apply find_some in Hf.
  - intros Hf. now apply find_some in Hf.
Qed.

Lemma collect_in products cards :
  forall heroes,
    incl heroes products ->
    incl (collect products (handles_to_product products) cards heroes)
         products.
Proof.
  induction cards as [|card rest IH]; intros heroes Hh; simpl.
  - assumption.
  - destruct (card_match _ _ card) as [p|] eqn:Hm.
    + apply IH. apply incl_app; [assumption|].
      intros x [<-|[]]. eapply card_match_in; eauto.
    + now apply IH.
Qed.

Lemma matches_in product_cards products :
  incl (matches product_cards products) products.
Proof. apply collect_in. intros x []. Qed.

Lemma collect_empty_catalog cards :
  forall heroes, collect [] [] cards heroes = heroes.
Proof.
  induction cards as [|card rest IH]; intros heroes; simpl.
  - reflexivity.
  - unfold card_match. simpl.
    destruct (option_map Str.lower _) as [h|]; [destruct (Str.nonempty h)|];
      apply IH.
Qed.

(** C1. For every list of product-card candidates and every catalog,
    the list returned by [hero_product_matches] holds only products
    of the catalog, holds no two products with the same identity key
    ([handle], else [title], else [str(id)]), is the list of matches
    with elements left out and the order kept, holds for every match
    the first match carrying its key, and is empty when the catalog
    is empty. *)
Theorem hero_product_matches_sound :
  forall (product_cards : list (Dict.t string)) (products : list Product)
         (base_url : string),
    let out := hero_product_matches product_cards products base_url in
    let heroes := matches product_cards products in
    incl out products
    /\ NoDup (map identity_key out)
    /\ subseq out heroes
    /\ (forall h, In h heroes ->
          exists h', find (same_key h) heroes = Some h' /\ In h' out)
    /\ hero_product_matches product_cards [] base_url = [].
Proof.
  intros product_cards products base_url out heroes.
  assert (Hout : out = keep_first [] heroes).
  { unfold out, heroes, hero_product_matches.
    destruct products as [|p ps].
    - unfold matches. simpl. now rewrite collect_empty_catalog.
    - now rewrite dedup_keep_first. }
  rewrite Hout. repeat split.
  - intros x Hx. apply (matches_in product_cards products).
    exact (@subseq_incl _ _ _ (keep_first_subseq heroes []) x Hx).
  - apply keep_first_NoDup.
  - apply keep_first_subseq.
  - intros h Hin. apply keep_first_first; [assumption | intros []].
Qed.

End HeroFacts.

(* ================================================================== *)
(** ** Properties of the Fetcher and of the Catalog Normalizer *)

Module FetchFacts.

Section WithNetwork.
Variable requests_get : string -> outcome.

Lemma safe_get_log url log :
  snd (safe_get requests_get url log) = log ++ [url].
Proof.
  unfold safe_get. destruct (requests_get url) as [r| |name]; try reflexivity.
  destruct (status_code r =? 200)%Z; reflexivity.
Qed.

Lemma safe_get_some url log r :
  fst (safe_get requests_get url log) = Ok (Some r)
  <-> requests_get url = Returned r /\ status_code r = 200%Z.
Proof.
  unfold safe_get. destruct (requests_get url) as [r0| |name]; simpl.
  - destruct (Z.eqb_spec (status_code r0) 200); simpl; split.
    + intros [= ->]. now split.
    + intros [[= ->] _]. reflexivity.
    + discriminate.
    + intros [[= ->] E]. contradiction.
  - split; [discriminate | intros [[=] _]].
  - split; [discriminate | intros [[=] _]].
Qed.

Lemma safe_get_none url log :
  fst (safe_get requests_get url log) = Ok None
  <-> requests_get url = RequestException
      \/ exists r, requests_get url = Returned r /\ status_code r <> 200%Z.
Proof.
  unfold safe_get. destruct (requests_get url) as [r0| |name]; simpl.
  - destruct (Z.eqb_spec (status_code r0) 200); simpl; split.
    + discriminate.
    + intros [[=]|[r [[= ->] E]]]. contradiction.
    + intros _. right. exists r0. now split.
    + reflexivity.
  - split; [now left | reflexivity].
  - split; [discriminate | intros [[=]|[r [[=] _]]]].
Qed.

(** [safe_get] raises exactly what [requests.get] lets through. *)
Lemma safe_get_raise url log e :
  fst (safe_get requests_get url log) = Raise e
  <-> exists name, requests_get url = Raised name /\ e = LibraryError name.
Proof.
  unfold safe_get. destruct (requests_get url) as [r0| |name]; simpl.
  - destruct (status_code r0 =? 200)%Z; simpl;
      (split; [discriminate | intros [name [[=] _]]]).
  - split; [discriminate | intros [name [[=] _]]].
  - split.
    + intros [= <-]. now exists name.
    + intros [name' [[= ->] ->]]. reflexivity.
Qed.

(** One call of [safe_get]: it returns, or [requests.get] raised. *)
Lemma safe_get_cases url log :
  (exists o, safe_get requests_get url log = (Ok o, log ++ [url]))
  \/ (exists name,
         requests_get url = Raised name
         /\ safe_get requests_get url log
            = (Raise (LibraryError name), log ++ [url])).
Proof.
  unfold safe_get. destruct (requests_get url) as [r| |name].
  - left. destruct (status_code r =? 200)%Z; now eexists.
  - left. now eexists.
  - right. now exists name.
Qed.

(** The exceptions the body of the [try] block can meet. *)
Lemma get_raises x k e : Py.get x k = Raise e -> e = AttributeError.
Proof. destruct x; simpl; congruence. Qed.

Lemma iter_raises x e : Py.iter x = Raise e -> e = TypeError.
Proof. destruct x; simpl; congruence. Qed.

Lemma map_get_raises k l e :
  map_result (fun img => Py.get img k) l = Raise e -> e = AttributeError.
Proof.
  induction l as [|x r IH]; simpl; [discriminate|].
  destruct (Py.get x k) eqn:E; simpl.
  - destruct (map_result _ r); simpl; [discriminate | exact IH].
  - intros [= <-]. eapply get_raises; eauto.
Qed.

Lemma image_sources_raises p e :
  image_sources p = Raise e -> e = AttributeError \/ e = TypeError.
Proof.
  unfold image_sources.
  destruct (Py.get p "images") as [flag|e0] eqn:E; simpl.
  - destruct (Py.truthy flag); [|discriminate].
    destruct (Py.iter flag) eqn:E2; simpl.
    + intros H. left. eapply map_get_raises; eauto.
    + intros [= <-]. right. eapply iter_raises; eauto.
  - intros [= <-]. left. eapply get_raises; eauto.
Qed.

Lemma product_of_raises new_Product p e :
  product_of new_Product p = Raise e ->
  e = AttributeError \/ e = TypeError \/ e = ValueError.
Proof.
  unfold product_of.
  destruct (Py.get p "id") eqn:E1; simpl;
    [|intros [= <-]; left; eapply get_raises; eauto].
  destruct (Py.get p "title") eqn:E2; simpl;
    [|intros [= <-]; left; eapply get_raises; eauto].
  destruct (Py.get p "handle") eqn:E3; simpl;
    [|intros [= <-]; left; eapply get_raises; eauto].
  destruct (Py.get p "variants") eqn:E4; simpl;
    [|intros [= <-]; left; eapply get_raises; eauto].
  destruct (image_sources p) eqn:E5; simpl.
  - destruct (new_Product _ _ _ _ _); [discriminate|].
    intros [= <-]. tauto.
  - intros [= <-]. destruct (image_sources_raises _ E5); tauto.
Qed.

Lemma products_loop_raises new_Product raw :
  forall products ps e,
    products_loop new_Product raw products = (ps, Some e) ->
    e = AttributeError \/ e = TypeError \/ e = ValueError.
Proof.
  induction raw as [|p rest IH]; intros products ps e; simpl.
  - discriminate.
  - destruct (product_of new_Product p) eqn:E.
    + apply IH.
    + intros [= _ <-]. eapply product_of_raises; eauto.
Qed.

Lemma Response_json_raises r e :
  Response_json r = Raise e ->
  e = ValueError \/ exists name, e = LibraryError name.
Proof.
  unfold Response_json. destruct (json_body r); [discriminate|].
  destruct (json_error r) as [|name]; intros [= <-]; [now left|].
  right. now exists name.
Qed.

Lemma try_products_raises new_Product r ps e :
  try_products new_Product r = (ps, Some e) ->
  e = AttributeError \/ e = TypeError \/ e = ValueError
  \/ exists name, e = LibraryError name.
Proof.
  unfold try_products. destruct (Response_json r) as [data|e1] eqn:J.
  - destruct (raw_products data) as [raw|e0] eqn:E.
    + destruct (Py.iter raw) eqn:E2.
      * intros H. destruct (products_loop_raises _ _ _ H) as [-> | [-> | ->] ];
          tauto.
      * intros [= _ <-]. right. left. eapply iter_raises; eauto.
    + intros [= _ <-]. left. unfold raw_products in E.
      destruct (Py.get data "products") eqn:E1; simpl in E;
        [|injection E as <-; eapply get_raises; eauto].
      destruct (Py.truthy a); [discriminate|].
      destruct (Py.get data "items") eqn:E2; simpl in E;
        [|injection E as <-; eapply get_raises; eauto].
      destruct (Py.truthy a0); discriminate.
  - intros [= _ <-]. destruct (Response_json_raises _ J) as [->|H]; tauto.
Qed.

(** What escapes [fetch_products_json] is an [AttributeError], a
    [TypeError], or an exception a library call let through; never a
    [ValueError] and never an [HTTPException]. *)
Lemma fetch_products_json_escapes new_Product base_url log e :
  fst (fetch_products_json requests_get new_Product base_url log) = Raise e ->
  e = AttributeError \/ e = TypeError \/ exists name, e = LibraryError name.
Proof.
  unfold fetch_products_json, bind.
  destruct (safe_get_cases (Str.rstrip_slash base_url ++ "/products.json")
              log) as [[o ->]|[name [_ ->]]].
  - destruct o as [r|]; [|discriminate].
    destruct (try_products new_Product r) as [ps [e0|]] eqn:E; [|discriminate].
    destruct (try_products_raises _ _ E) as [H | [H | [H | [name H] ] ] ];
      subst e0; simpl.
    + intros [= <-]. now left.
    + intros [= <-]. right. now left.
    + discriminate.
    + intros [= <-]. right. right. now exists name.
  - intros [= <-]. right. right. now exists name.
Qed.

(** When the fetch helper yields nothing for the feed, the catalog
    is empty. *)
Lemma feed_soft_fail new_Product base_url log :
  fst (safe_get requests_get
         (Str.rstrip_slash base_url ++ "/products.json")%string log)
  = Ok None ->
  fetch_products_json requests_get new_Product base_url log
  = (Ok [], log ++ [(Str.rstrip_slash base_url ++ "/products.json")%string]).
Proof.
  intros H. unfold fetch_products_json, bind.
  destruct (safe_get_cases (Str.rstrip_slash base_url ++ "/products.json")
              log) as [[o Ho]|[name [_ Ho]]]; rewrite Ho in *; simpl in H.
  - injection H as ->. reflexivity.
  - discriminate.
Qed.

End WithNetwork.

(** C10. For every URL, [safe_get] makes one call of [requests.get]
    and yields a response exactly when that call returns one whose
    status code is 200; the status is the one of the final answer,
    whatever redirects were followed to reach it.  A
    [requests.RequestException] and every other final status (201,
    204, a 301 that was not followed, ...) give [None], and a feed for
    which it gives [None] makes the catalog empty.  An exception of
    another class that [requests.get] lets through is not caught:
    [safe_get] raises exactly then, and raises that exception. *)
Theorem safe_get_only_200 :
  forall (requests_get : string -> outcome) (url : string)
         (log : list string),
    (forall r,
        fst (safe_get requests_get url log) = Ok (Some r)
        <-> requests_get url = Returned r /\ status_code r = 200%Z)
    /\ (fst (safe_get requests_get url log) = Ok None
        <-> requests_get url = RequestException
            \/ exists r, requests_get url = Returned r
                         /\ status_code r <> 200%Z)
    /\ (forall e,
           fst (safe_get requests_get url log) = Raise e
           <-> exists name,
                 requests_get url = Raised name /\ e = LibraryError name)
    /\ snd (safe_get requests_get url log) = log ++ [url]
    /\ (forall new_Product base_url,
           url = (Str.rstrip_slash base_url ++ "/products.json")%string ->
           fst (safe_get requests_get url log) = Ok None ->
           fetch_products_json requests_get new_Product base_url log
           = (Ok [], log ++ [url])).
Proof.
  intros requests_get url log.
  split; [intros r; apply safe_get_some|].
  split; [apply safe_get_none|].
  split; [intros e; apply safe_get_raise|].
  split; [apply safe_get_log|].
  intros new_Product base_url -> H.
  exact (feed_soft_fail _ new_Product base_url log H).
Qed.

(** An exception of [requests.get] that is not a
    [requests.RequestException] leaves [safe_get], and with it
    [fetch_insights], instead of being reported as [None]; and a page
    that answered with a redirect is reported as a response when the
    redirect led to a page that answers 200. *)
Lemma safe_get_counterexample :
  safe_get (fun _ => Raised "LocationParseError")
    "https://www..example.com" []
  = (Raise (LibraryError "LocationParseError"), ["https://www..example.com"])
  /\ fetch_insights (fun _ => Raised "LocationParseError")
       Sample.concat_join Sample.typed_Product (fun _ => Sample.acme_page)
       Sample.first_seen Sample.kept
       [("website_url", "https://www..example.com")] []
     = (Raise (LibraryError "LocationParseError"),
        ["https://www..example.com"])
  /\ history (Sample.moved "<html></html>") = [301%Z]
  /\ safe_get (fun _ => Returned (Sample.moved "<html></html>"))
       "http://shop.example" []
     = (Ok (Some (Sample.moved "<html></html>")), ["http://shop.example"]).
Proof. repeat split. Qed.

(** C3. A feed that answers 200 with
    [{"products":[{"id":1,"images":["a.png"]}]}], or with the JSON
    array [[]], makes [fetch_products_json] raise an
    [AttributeError], whatever the base URL and the validator: the
    [except] clause only names [ValueError]. *)
Theorem fetch_products_json_raises :
  forall (new_Product : json -> json -> json -> json -> list json ->
                        option Product)
         (base_url : string) (log : list string),
    fst (fetch_products_json
           (fun _ => Sample.ok "" (Some Sample.plain_images_feed))
           new_Product base_url log) = Raise AttributeError
    /\ fst (fetch_products_json
              (fun _ => Sample.ok "[]" (Some (JList [])))
              new_Product base_url log) = Raise AttributeError.
Proof. intros. split; reflexivity. Qed.

(** C5. A shop whose page answers and whose feed answers 200 with
    [{"products":[{"id":1,"images":["a.png"]}]}] makes
    [fetch_insights] fail with an [AttributeError], which is neither
    of its two [HTTPException]s, after the two requests. *)
Theorem fetch_insights_feed_failure :
  forall (urljoin : string -> string -> option string)
         (new_Product : json -> json -> json -> json -> list json ->
                        option Product)
         (BeautifulSoup : string -> Soup.node)
         (list_of_set : list string -> list string)
         (HttpUrl : string -> option string),
    fetch_insights
      (Sample.shop "https://shop.example" "<html></html>"
         "https://shop.example/products.json"
         (Some Sample.plain_images_feed))
      urljoin new_Product BeautifulSoup list_of_set HttpUrl
      [("website_url", "https://shop.example")] []
    = (Raise AttributeError,
       ["https://shop.example"; "https://shop.example/products.json"]).
Proof. intros. reflexivity. Qed.

End FetchFacts.

(* ================================================================== *)
(** ** Properties of the FAQ Extractor *)

Module FaqFacts.
Import Faq.

(** The fallback is only reached when the first loop found nothing. *)
Lemma fallback_only_when_empty soup :
  Faq.details_loop (Soup.find_all (Soup.named "details") soup) [] <> [] ->
  try_fetch_faqs soup
  = Faq.details_loop (Soup.find_all (Soup.named "details") soup) [].
Proof.
  unfold try_fetch_faqs.
  destruct (details_loop _ []); [congruence | reflexivity].
Qed.

(** C8. A page without [details] whose [faq] container holds the
    classes [question] and [answer] gives one entry through the
    fallback; the same page with the classes [q] and [a] gives none,
    because neither pattern finds the bare letter: the [\b] of the
    two patterns is a backspace character. *)
Theorem faq_bare_letter_unmatched :
  try_fetch_faqs (Sample.faq_page "question" "answer") = [entry "How?" "So."]
  /\ try_fetch_faqs (Sample.faq_page "q" "a") = []
  /\ question_re "q" = false
  /\ answer_re "a" = false
  /\ question_re ("q" ++ backspace) = true.
Proof. repeat split; reflexivity. Qed.

End FaqFacts.

(* ================================================================== *)
(** ** Properties of the social-handle map *)

Module SocialFacts.
Import Social.

Lemma social_step_platform social href :
  social_step social href
  = match platform_of href with
    | Some p => Dict.set p href social
    | None => social
    end.
Proof.
  unfold social_step, platform_of.
  repeat match goal with |- context [if ?b then _ else _] => destruct b end;
    reflexivity.
Qed.

Lemma platform_of_known href p : platform_of href = Some p -> In p platforms.
Proof.
  unfold platform_of, platforms.
  repeat match goal with |- context [if ?b then _ else _] => destruct b end;
    intros [= <-]; simpl; tauto.
Qed.

Lemma get_social_step p social href :
  Dict.get p (social_step social href)
  = if filed p href then Some href else Dict.get p social.
Proof.
  rewrite social_step_platform. unfold filed.
  destruct (platform_of href) as [q|]; [|reflexivity].
  apply DictFacts.get_set.
Qed.

Lemma get_fold_social p hrefs :
  forall social,
    Dict.get p (fold_left social_step hrefs social)
    = match last_filed p hrefs with
      | Some x => Some x
      | None => Dict.get p social
      end.
Proof.
  induction hrefs as [|h r IH]; intros social; simpl.
  - reflexivity.
  - rewrite IH, get_social_step.
    destruct (last_filed p r); [reflexivity|].
    now destruct (filed p h).
Qed.

Lemma keys_fold_social hrefs :
  forall social,
    incl (Dict.keys social) platforms -> NoDup (Dict.keys social) ->
    incl (Dict.keys (fold_left social_step hrefs social)) platforms
    /\ NoDup (Dict.keys (fold_left social_step hrefs social)).
Proof.
  induction hrefs as [|h r IH]; intros social Hi Hn; simpl.
  - now split.
  - apply IH; rewrite social_step_platform;
      destruct (platform_of h) as [q|] eqn:E; try assumption.
    + apply DictFacts.keys_set_incl; [|assumption].
      eapply platform_of_known; eauto.
    + now apply DictFacts.keys_set_NoDup.
Qed.

(** C9, as the code has it.  For every page, the keys of the
    social-handle map are among the five platforms, no key occurs
    twice, and the entry of a platform is the href of the last anchor
    in document order that the [if]/[elif] chain files under it
    (absent when there is none). *)
Theorem social_handles_last_filed :
  forall (BeautifulSoup : string -> Soup.node)
         (list_of_set : list string -> list string) (html : string),
    let social :=
      parsed_social (extract_links_and_text BeautifulSoup list_of_set html) in
    let hrefs :=
      map (attr "href") (Soup.find_all anchor (BeautifulSoup html)) in
    incl (Dict.keys social) platforms
    /\ NoDup (Dict.keys social)
    /\ (forall p, Dict.get p social = last_filed p hrefs).
Proof.
  intros BeautifulSoup list_of_set html social hrefs.
  unfold social, extract_links_and_text. simpl. unfold page_social.
  fold hrefs.
  destruct (@keys_fold_social hrefs []) as [Hi Hn].
  - intros x [].
  - constructor.
  - split; [assumption|]. split; [assumption|].
    intros p. rewrite get_fold_social. simpl.
    now destruct (last_filed p hrefs).
Qed.

(** C9 as stated fails: a page without anchors gives a map without
    any key, and on a page whose second anchor names both Instagram
    and Facebook the Facebook entry stays the first anchor's. *)
Lemma social_handles_counterexample :
  parsed_social
    (extract_links_and_text (fun _ => Sample.document [])
       Sample.first_seen "") = []
  /\ parsed_social
       (extract_links_and_text (fun _ => Sample.two_links_page)
          Sample.first_seen Sample.two_links_html)
     = [("facebook", "https://facebook.com/brand");
        ("instagram", "https://instagram.com/share?u=facebook.com/brand")]
  /\ Str.contains "facebook.com"
       "https://instagram.com/share?u=facebook.com/brand" = true.
Proof. repeat split; reflexivity. Qed.

End SocialFacts.

(* ================================================================== *)
(** ** Properties of the Policy Resolver *)

Module PolicyFacts.
Import Policy.

Lemma set_unchanged (V : Type) k (v : V) d :
  Dict.get k d = Some v -> Dict.set k v d = d.
Proof.
  induction d as [|[k0 v0] r IH]; simpl.
  - discriminate.
  - destruct (String.eqb_spec k k0) as [->|Hne].
    + now intros [= ->].
    + intros H. now rewrite IH.
Qed.

Lemma hits_nonempty pats v :
  Forall (fun pat => Str.nonempty pat = true) pats ->
  hits pats v = true -> Str.nonempty v = true.
Proof.
  unfold hits. intros Hp Hh. apply existsb_exists in Hh.
  destruct Hh as [pat [Hin Hc]].
  rewrite Forall_forall in Hp. specialize (Hp pat Hin).
  destruct pat; [discriminate|]. destruct v; [discriminate | reflexivity].
Qed.

Lemma last_match_last pats l1 k v l2 :
  hits pats v = true ->
  (forall kv, In kv l2 -> hits pats (snd kv) = false) ->
  last_match pats (l1 ++ (k, v) :: l2) = Some v.
Proof.
  intros Hv Hl2.
  assert (E2 : last_match pats l2 = None).
  { induction l2 as [|[k0 v0] r IH]; simpl; [reflexivity|].
    rewrite IH by (intros kv Hkv; apply Hl2; now right).
    pose proof (Hl2 (k0, v0) (or_introl eq_refl)) as H0. simpl in H0.
    now rewrite H0. }
  induction l1 as [|[k0 v0] r IH]; simpl.
  - now rewrite E2, Hv.
  - now rewrite IH.
Qed.

Lemma last_match_none pats l :
  (forall kv, In kv l -> hits pats (snd kv) = false) ->
  last_match pats l = None.
Proof.
  induction l as [|[k0 v0] r IH]; intros H; simpl; [reflexivity|].
  rewrite IH by (intros kv Hkv; apply H; now right).
  pose proof (H (k0, v0) (or_introl eq_refl)) as H0. simpl in H0.
  now rewrite H0.
Qed.

Lemma last_match_split pats l v :
  last_match pats l = Some v ->
  exists l1 k l2,
    l = l1 ++ (k, v) :: l2 /\ hits pats v = true
    /\ (forall kv, In kv l2 -> hits pats (snd kv) = false).
Proof.
  induction l as [|[k0 v0] r IH]; simpl; [discriminate|].
  destruct (last_match pats r) as [x|] eqn:E.
  - intros [= ->]. destruct (IH eq_refl) as [l1 [k [l2 [-> [Hv Hl2]]]]].
    exists ((k0, v0) :: l1), k, l2. now repeat split.
  - destruct (hits pats v0) eqn:Hv0; [|discriminate].
    intros [= ->]. exists [], k0, r. repeat split; [assumption|].
    clear IH. induction r as [|[k1 v1] r' IH']; [intros kv []|].
    simpl in E. destruct (last_match pats r') eqn:E'; [discriminate|].
    destruct (hits pats v1) eqn:H1; [discriminate|].
    intros kv [<-|Hkv]; [assumption | now apply IH'].
Qed.

Lemma keys_set_present (V : Type) k (v : V) d :
  In k (Dict.keys d) -> Dict.keys (Dict.set k v d) = Dict.keys d.
Proof.
  intros H. rewrite DictFacts.keys_set. unfold Dict.mem.
  apply DictFacts.get_in_keys in H. now destruct (Dict.get k d).
Qed.

Lemma hits_incl pats pats' v :
  incl pats pats' -> hits pats v = true -> hits pats' v = true.
Proof.
  unfold hits. intros Hi H. apply existsb_exists in H.
  destruct H as [pat [Hin Hc]]. apply existsb_exists.
  exists pat. split; [now apply Hi | exact Hc].
Qed.

Section WithNetwork.
Variable requests_get : string -> outcome.
Variable urljoin : string -> string -> option string.

(** The three ways a call of [safe_get] ends. *)
Lemma safe_get_trichotomy url log :
  (reachable requests_get url = true /\ absent requests_get url = false
   /\ exists r,
        requests_get url = Returned r
        /\ safe_get requests_get url log = (Ok (Some r), log ++ [url]))
  \/ (reachable requests_get url = false /\ absent requests_get url = true
      /\ safe_get requests_get url log = (Ok None, log ++ [url]))
  \/ (reachable requests_get url = false /\ absent requests_get url = false
      /\ exists name,
           requests_get url = Raised name
           /\ safe_get requests_get url log
              = (Raise (LibraryError name), log ++ [url])).
Proof.
  unfold safe_get, reachable, absent.
  destruct (requests_get url) as [r| |name].
  - destruct (status_code r =? 200)%Z; simpl.
    + left. repeat split. now exists r.
    + right. left. now repeat split.
  - right. left. now repeat split.
  - right. right. repeat split. now exists name.
Qed.

(** Once written, the entry stays through the inner loop. *)
Lemma link_step_written base name pats v u :
  urljoin base v = Some u ->
  forall policies,
    link_step urljoin base name pats (Dict.set name (Some u) policies) v
    = Ok (Dict.set name (Some u) policies).
Proof.
  intros Hu. unfold link_step.
  induction pats as [|pat r IH]; intros policies; simpl; [reflexivity|].
  destruct (Str.contains pat v); simpl; [|apply IH].
  unfold joined at 1. rewrite Hu. simpl. rewrite DictFacts.set_set. apply IH.
Qed.

(** The inner loop over the patterns joins the href and writes the
    entry when one of them occurs in [v], and raises when the join
    does. *)
Lemma link_step_hits base name pats v :
  forall policies,
    link_step urljoin base name pats policies v
    = if hits pats v then
        match urljoin base v with
        | Some u => Ok (Dict.set name (Some u) policies)
        | None => Raise ValueError
        end
      else Ok policies.
Proof.
  induction pats as [|pat r IH]; intros policies; [reflexivity|].
  unfold link_step, hits. simpl. destruct (Str.contains pat v); simpl.
  - unfold joined at 1. destruct (urljoin base v) as [u|] eqn:Hu; simpl.
    + exact (@link_step_written base name r v u Hu policies).
    + reflexivity.
  - exact (IH policies).
Qed.

(** The scan of the link table for one category: it raises when some
    matching href cannot be joined, and otherwise writes the join of
    the last matching href. *)
Lemma link_scan_last base name pats html_links :
  Forall (fun pat => Str.nonempty pat = true) pats ->
  forall policies,
    link_scan urljoin base name pats html_links policies
    = if unjoinable urljoin base pats html_links then Raise ValueError
      else Ok (match last_match pats html_links with
               | Some v => Dict.set name (urljoin base v) policies
               | None => policies
               end).
Proof.
  intros Hp. unfold link_scan.
  induction html_links as [|[k v] r IH]; intros policies.
  - reflexivity.
  - cbn [fold_result snd unjoinable existsb last_match].
    rewrite link_step_hits.
    fold (unjoinable urljoin base pats r).
    destruct (hits pats v) eqn:Hv.
    + rewrite (@hits_nonempty pats v Hp Hv).
      destruct (urljoin base v) as [u|] eqn:Hu; simpl; [|reflexivity].
      rewrite IH. destruct (unjoinable urljoin base pats r); [reflexivity|].
      destruct (last_match pats r);
        [now rewrite DictFacts.set_set | now rewrite Hu].
    + assert (E : (if Str.nonempty v then Ok policies else Ok policies)
                  = Ok policies) by (now destruct (Str.nonempty v)).
      rewrite E. simpl. rewrite IH.
      destruct (unjoinable urljoin base pats r), (last_match pats r);
        reflexivity.
Qed.

Lemma unjoinable_false base pats html_links :
  (forall kv, In kv html_links -> hits pats (snd kv) = true ->
              exists u, urljoin base (snd kv) = Some u
                        /\ Str.nonempty u = true) ->
  unjoinable urljoin base pats html_links = false.
Proof.
  intros H. destruct (unjoinable urljoin base pats html_links) eqn:E;
    [|reflexivity].
  apply existsb_exists in E. destruct E as [kv [Hin Hc]].
  apply andb_prop in Hc. destruct Hc as [Hh Hn].
  destruct (H kv Hin Hh) as [u [Hu _]]. rewrite Hu in Hn. discriminate.
Qed.

(** Some matching href cannot be joined. *)
Lemma unjoinable_true base pats html_links :
  unjoinable urljoin base pats html_links = true
  <-> exists kv, In kv html_links /\ hits pats (snd kv) = true
                 /\ urljoin base (snd kv) = None.
Proof.
  unfold unjoinable. rewrite existsb_exists. split.
  - intros [kv [Hin Hc]]. apply andb_prop in Hc. destruct Hc as [Hh Hn].
    exists kv. repeat split; try assumption.
    destruct (urljoin base (snd kv)); [discriminate | reflexivity].
  - intros [kv [Hin [Hh Hn]]]. exists kv. split; [assumption|].
    now rewrite Hh, Hn.
Qed.

(** The probing loop: it requests candidates of the category, at most
    one each, and either records what it found or stops at the first
    exception that [requests.get] lets through. *)
Lemma probe_cases base name pats :
  forall policies log,
    exists probes,
      length probes <= length pats
      /\ (forall u, In u probes ->
                    exists pat, In pat pats /\ u = (base ++ pat)%string)
      /\ ((exists value,
              probe requests_get base name pats policies log
              = (Ok (match value with
                     | Some c => Dict.set name (Some c) policies
                     | None => policies
                     end), log ++ probes)
              /\ probed requests_get base pats probes value)
          \/ (exists pat lname,
                 In pat pats
                 /\ requests_get (base ++ pat)%string = Raised lname
                 /\ probe requests_get base name pats policies log
                    = (Raise (LibraryError lname), log ++ probes))).
Proof.
  induction pats as [|pat rest IH]; intros policies log.
  - exists []. split; [apply le_n|]. split; [intros u []|].
    left. exists None. simpl. rewrite app_nil_r.
    split; [reflexivity | constructor].
  - cbn [probe]. unfold bind.
    destruct (safe_get_trichotomy (base ++ pat) log)
      as [[R [_ [r [_ E]]]] | [[_ [A E]] | [_ [_ [lname [Er E]]]]]];
      rewrite E.
    + exists [(base ++ pat)%string]. split; [simpl; lia|]. split.
      * intros u [<-|[]]. exists pat. split; [now left | reflexivity].
      * left. exists (Some (base ++ pat)%string).
        split; [reflexivity | now constructor].
    + destruct (IH policies (log ++ [(base ++ pat)%string]))
        as [probes [Hlen [Hshape Hend]]].
      exists ((base ++ pat)%string :: probes).
      split; [simpl; lia|]. split.
      * intros u [<-|Hu]; [exists pat; split; [now left | reflexivity]|].
        destruct (Hshape u Hu) as [pat' [Hin ->]].
        exists pat'. split; [now right | reflexivity].
      * destruct Hend as [[value [Ep P]] | [pat' [lname [Hin [Er Ep]]]]].
        -- left. exists value. rewrite Ep, <- app_assoc.
           split; [reflexivity | now constructor].
        -- right. exists pat', lname. rewrite Ep, <- app_assoc.
           split; [now right | split; [exact Er | reflexivity]].
    + exists [(base ++ pat)%string]. split; [simpl; lia|]. split.
      * intros u [<-|[]]. exists pat. split; [now left | reflexivity].
      * right. exists pat, lname.
        split; [now left | split; [exact Er | reflexivity]].
Qed.

(** When [requests.get] raises nothing but a [RequestException] on
    the candidates, the probing loop returns. *)
Lemma probe_probed base name pats policies log :
  answered requests_get (map (fun pat => (base ++ pat)%string) pats) ->
  exists value probes,
    probe requests_get base name pats policies log
    = (Ok (match value with
           | Some c => Dict.set name (Some c) policies
           | None => policies
           end), log ++ probes)
    /\ probed requests_get base pats probes value.
Proof.
  intros Ha.
  destruct (probe_cases base name pats policies log)
    as [probes [_ [_ [[value [E P]] | [pat [lname [Hin [Er _]]]]]]]].
  - now exists value, probes.
  - exfalso. apply (Ha (base ++ pat)%string lname); [|exact Er].
    apply in_map_iff. now exists pat.
Qed.

(** One turn of the loop over the categories, for a category whose
    matching hrefs can be joined and whose candidates are answered. *)
Lemma category_turn base name pats rest html_links policies log :
  Forall (fun pat => Str.nonempty pat = true) pats ->
  Dict.get name policies = Some None ->
  (forall kv, In kv html_links -> hits pats (snd kv) = true ->
              exists u, urljoin base (snd kv) = Some u
                        /\ Str.nonempty u = true) ->
  answered requests_get (map (fun pat => (base ++ pat)%string) pats) ->
  exists value probes,
    categories requests_get urljoin base html_links ((name, pats) :: rest)
      policies log
    = categories requests_get urljoin base html_links rest
        (Dict.set name value policies) (log ++ probes)
    /\ category requests_get urljoin base html_links pats value probes.
Proof.
  intros Hp Hget Hj Ha. cbn [categories]. unfold bind at 1, lift.
  rewrite (@link_scan_last base name pats html_links Hp),
    (@unjoinable_false base pats html_links Hj).
  destruct (last_match pats html_links) as [v|] eqn:E.
  - destruct (@last_match_split pats html_links v E)
      as [l1 [k [l2 [El [Hv Hl2]]]]].
    destruct (Hj (k, v)) as [u [Hu Hn]];
      [rewrite El; apply in_or_app; right; now left | exact Hv |].
    simpl in Hu. exists (urljoin base v), [].
    unfold bind, resolved. rewrite DictFacts.get_set_same, Hu.
    unfold Str.truthy. rewrite Hn. unfold ret. rewrite app_nil_r.
    split; [reflexivity|]. split.
    + intros l1' k' v' l2' El' Hv' Hl2'.
      rewrite El', (@last_match_last pats l1' k' v' l2' Hv' Hl2') in E.
      injection E as ->. now split.
    + intros Hnone.
      rewrite (@last_match_none pats html_links Hnone) in E. discriminate.
  - unfold bind, resolved. rewrite Hget. simpl.
    destruct (@probe_probed base name pats policies log Ha)
      as [value [probes [Ep P]]].
    exists value, probes. rewrite Ep. split.
    + destruct value; [reflexivity|].
      now rewrite (@set_unchanged _ name None policies Hget).
    + split.
      * intros l1 k v l2 El Hv Hl2.
        rewrite El, (@last_match_last pats l1 k v l2 Hv Hl2) in E.
        discriminate.
      * intros _. exact P.
Qed.

Lemma library_raised_incl base html_links pats pats' e :
  incl pats pats' ->
  library_raised requests_get urljoin base html_links pats e ->
  library_raised requests_get urljoin base html_links pats' e.
Proof.
  intros Hi [[-> [kv [Hin [Hh Hn]]]] | [pat [lname [Hin [Hr ->]]]]].
  - left. split; [reflexivity|]. exists kv.
    split; [exact Hin|]. split; [|exact Hn].
    exact (@hits_incl pats pats' (snd kv) Hi Hh).
  - right. exists pat, lname. split; [now apply Hi | now split].
Qed.

(** One turn of the loop over the categories, whatever the
    libraries do: it goes on with the same keys, or it ends with the
    [ValueError] of a join or with an exception that [requests.get]
    let through; the requests are candidates of the category. *)
Lemma category_turn_shape base name pats rest html_links policies log :
  Forall (fun pat => Str.nonempty pat = true) pats ->
  In name (Dict.keys policies) ->
  exists probes,
    length probes <= length pats
    /\ (forall u, In u probes ->
                  exists pat, In pat pats /\ u = (base ++ pat)%string)
    /\ ((exists policies',
            categories requests_get urljoin base html_links
              ((name, pats) :: rest) policies log
            = categories requests_get urljoin base html_links rest
                policies' (log ++ probes)
            /\ Dict.keys policies' = Dict.keys policies)
        \/ (exists e,
               categories requests_get urljoin base html_links
                 ((name, pats) :: rest) policies log
               = (Raise e, log ++ probes)
               /\ library_raised requests_get urljoin base html_links
                    pats e)).
Proof.
  intros Hp Hname. cbn [categories]. unfold bind at 1, lift.
  rewrite (@link_scan_last base name pats html_links Hp).
  destruct (unjoinable urljoin base pats html_links) eqn:U.
  - exists []. split; [simpl; lia|]. split; [intros u []|].
    right. exists ValueError. rewrite app_nil_r.
    split; [reflexivity|]. left. split; [reflexivity|].
    now apply unjoinable_true.
  - set (scanned := match last_match pats html_links with
                    | Some v => Dict.set name (urljoin base v) policies
                    | None => policies
                    end).
    assert (Hk : Dict.keys scanned = Dict.keys policies).
    { unfold scanned. destruct (last_match pats html_links); [|reflexivity].
      now apply keys_set_present. }
    unfold bind. destruct (resolved name scanned).
    + exists []. split; [simpl; lia|]. split; [intros u []|].
      left. exists scanned. unfold ret. rewrite app_nil_r.
      split; [reflexivity | exact Hk].
    + destruct (probe_cases base name pats scanned log)
        as [probes [L [S [[value [E _]] | [pat [lname [Hin [Hr E]]]]]]]];
        rewrite E; exists probes; (split; [exact L|]); (split; [exact S|]).
      * left. eexists. split; [reflexivity|].
        destruct value; [|exact Hk].
        rewrite keys_set_present; [exact Hk | now rewrite Hk].
      * right. exists (LibraryError lname).
        split; [reflexivity|]. right. exists pat, lname. now repeat split.
Qed.

Lemma categories_shape base html_links cats :
  forall policies log,
    Forall (fun c => In (fst c) (Dict.keys policies)
                     /\ Forall (fun pat => Str.nonempty pat = true) (snd c))
           cats ->
    exists ending probes,
      categories requests_get urljoin base html_links cats policies log
      = (ending, log ++ probes)
      /\ length probes <= length (flat_map snd cats)
      /\ (forall u, In u probes ->
                    exists pat, In pat (flat_map snd cats)
                                /\ u = (base ++ pat)%string)
      /\ match ending with
         | Ok result => Dict.keys result = Dict.keys policies
         | Raise e =>
             library_raised requests_get urljoin base html_links
               (flat_map snd cats) e
         end.
Proof.
  induction cats as [|[name pats] rest IH]; intros policies log Hc.
  - exists (Ok policies), []. simpl. unfold ret. rewrite app_nil_r.
    split; [reflexivity|]. split; [lia|]. split; [intros u [] | reflexivity].
  - inversion Hc as [|? ? [Hname Hp] Hrest]; subst. simpl in Hname, Hp.
    destruct (@category_turn_shape base name pats rest html_links policies
                log Hp Hname)
      as [probes1 [L1 [S1 [[pol1 [E1 K1]] | [e [E1 He]]]]]]; rewrite E1.
    + destruct (IH pol1 (log ++ probes1))
        as [ending [probes2 [E2 [L2 [S2 K2]]]]].
      { rewrite K1. exact Hrest. }
      exists ending, (probes1 ++ probes2). rewrite E2, <- app_assoc.
      split; [reflexivity|].
      cbn [flat_map snd]. rewrite !length_app. split; [lia|]. split.
      * intros u Hu. apply in_app_or in Hu. destruct Hu as [Hu|Hu].
        -- destruct (S1 u Hu) as [pat [Hin ->]]. exists pat.
           split; [apply in_or_app; now left | reflexivity].
        -- destruct (S2 u Hu) as [pat [Hin ->]]. exists pat.
           split; [apply in_or_app; now right | reflexivity].
      * destruct ending; [now rewrite K2|].
        apply (@library_raised_incl base html_links (flat_map snd rest));
          [apply incl_appr, incl_refl | exact K2].
    + exists (Raise e), probes1. split; [reflexivity|].
      cbn [flat_map snd]. rewrite length_app. split; [lia|]. split.
      * intros u Hu. destruct (S1 u Hu) as [pat [Hin ->]]. exists pat.
        split; [apply in_or_app; now left | reflexivity].
      * apply (@library_raised_incl base html_links pats);
          [apply incl_appl, incl_refl | exact He].
Qed.

End WithNetwork.

(** The resolver on a link table whose matching hrefs can be joined
    and on a network that answers the candidates. *)
Lemma find_policy_links_resolved :
  forall (requests_get : string -> outcome)
         (urljoin : string -> string -> option string)
         (base_url : string) (html_links : Dict.t string)
         (log : list string),
    let base := Str.rstrip_slash base_url in
    (forall k v,
        In (k, v) html_links -> hits Paths.all v = true ->
        exists u, urljoin base v = Some u /\ Str.nonempty u = true) ->
    answered requests_get (map (fun pat => (base ++ pat)%string) Paths.all) ->
    exists v1 v2 v3 p1 p2 p3,
      find_policy_links requests_get urljoin base_url html_links log
      = (Ok [("privacy_policy", v1); ("refund_policy", v2);
             ("terms_of_service", v3)],
         log ++ p1 ++ p2 ++ p3)
      /\ category requests_get urljoin base html_links privacy_pats v1 p1
      /\ category requests_get urljoin base html_links refund_pats v2 p2
      /\ category requests_get urljoin base html_links terms_pats v3 p3.
Proof.
  intros requests_get urljoin base_url html_links log base Hj Ha.
  assert (Hjc : forall pats, incl pats Paths.all ->
            forall kv, In kv html_links -> hits pats (snd kv) = true ->
                       exists u, urljoin base (snd kv) = Some u
                                 /\ Str.nonempty u = true).
  { intros pats Hi [k v] Hin Hh. apply (Hj k v Hin).
    exact (@hits_incl pats Paths.all v Hi Hh). }
  assert (Hac : forall pats, incl pats Paths.all ->
            answered requests_get
              (map (fun pat => (base ++ pat)%string) pats)).
  { intros pats Hi url name Hin. apply Ha.
    apply in_map_iff in Hin. destruct Hin as [pat [<- Hin]].
    apply in_map_iff. exists pat. split; [reflexivity | now apply Hi]. }
  assert (I1 : incl privacy_pats Paths.all)
    by (unfold Paths.all; apply incl_appl, incl_refl).
  assert (I2 : incl refund_pats Paths.all)
    by (unfold Paths.all; apply incl_appr, incl_appl, incl_refl).
  assert (I3 : incl terms_pats Paths.all)
    by (unfold Paths.all; apply incl_appr, incl_appr, incl_refl).
  unfold find_policy_links, patterns. fold base.
  fold privacy_pats refund_pats terms_pats.
  destruct (@category_turn requests_get urljoin base "privacy_policy"
              privacy_pats
              [("refund_policy", refund_pats);
               ("terms_of_service", terms_pats)]
              html_links initial_policies log)
    as [v1 [p1 [E1 C1]]];
    [repeat constructor | reflexivity | exact (Hjc _ I1) | exact (Hac _ I1) |].
  rewrite E1.
  change (Dict.set "privacy_policy" v1 initial_policies)
    with [("privacy_policy", v1); ("refund_policy", @None string);
          ("terms_of_service", @None string)].
  destruct (@category_turn requests_get urljoin base "refund_policy"
              refund_pats [("terms_of_service", terms_pats)] html_links
              [("privacy_policy", v1); ("refund_policy", None);
               ("terms_of_service", None)] (log ++ p1))
    as [v2 [p2 [E2 C2]]];
    [repeat constructor | reflexivity | exact (Hjc _ I2) | exact (Hac _ I2) |].
  rewrite E2.
  change (Dict.set "refund_policy" v2
            [("privacy_policy", v1); ("refund_policy", None);
             ("terms_of_service", None)])
    with [("privacy_policy", v1); ("refund_policy", v2);
          ("terms_of_service", @None string)].
  destruct (@category_turn requests_get urljoin base "terms_of_service"
              terms_pats [] html_links
              [("privacy_policy", v1); ("refund_policy", v2);
               ("terms_of_service", None)] ((log ++ p1) ++ p2))
    as [v3 [p3 [E3 C3]]];
    [repeat constructor | reflexivity | exact (Hjc _ I3) | exact (Hac _ I3) |].
  rewrite E3.
  exists v1, v2, v3, p1, p2, p3.
  cbn [categories]. unfold ret. rewrite <- !app_assoc.
  split; [reflexivity|]. split; [exact C1|]. split; [exact C2 | exact C3].
Qed.

(** The resolver, whatever the libraries do: at most eight requests,
    all for candidates, and a dictionary with the three keys unless a
    join or a request raised. *)
Lemma find_policy_links_shape
    (requests_get : string -> outcome)
    (urljoin : string -> string -> option string)
    (base_url : string) (html_links : Dict.t string) (log : list string) :
  exists ending probes,
    find_policy_links requests_get urljoin base_url html_links log
    = (ending, log ++ probes)
    /\ length probes <= 8
    /\ (forall u, In u probes ->
                  exists pat,
                    In pat Paths.all
                    /\ u = (Str.rstrip_slash base_url ++ pat)%string)
    /\ match ending with
       | Ok result => Dict.keys result = Paths.policy_keys
       | Raise e =>
           library_raised requests_get urljoin (Str.rstrip_slash base_url)
             html_links Paths.all e
       end.
Proof.
  unfold find_policy_links.
  destruct (@categories_shape requests_get urljoin
              (Str.rstrip_slash base_url) html_links patterns
              initial_policies log)
    as [ending [probes [E [L [S K]]]]].
  - unfold patterns, initial_policies.
    repeat constructor; simpl; tauto.
  - exists ending, probes. split; [exact E|]. split; [exact L|].
    split; [exact S | exact K].
Qed.



(** Scenario C, evaluated: the privacy policy comes from the link
    table, and only the two other categories are probed. *)
Example scenario_C :
  find_policy_links Sample.offline Sample.concat_join
    "https://shop.example/" [("Privacy", "/policies/privacy-policy")] []
  = (Ok [("privacy_policy",
          Some "https://shop.example/policies/privacy-policy");
         ("refund_policy", None); ("terms_of_service", None)],
     ["https://shop.example/policies/refund-policy";
      "https://shop.example/policies/refund-policy/";
      "https://shop.example/policies/returns";
      "https://shop.example/policies/return-policy";
      "https://shop.example/policies/terms-of-service";
      "https://shop.example/policies/terms-of-service/"]).
Proof. reflexivity. Qed.

(** A link whose href [urljoin] refuses, evaluated: the resolver
    raises the [ValueError] of the join before any probe; and a
    candidate on which [requests.get] lets an exception through ends
    the resolver with that exception. *)
Example find_policy_links_raises :
  find_policy_links Sample.offline Sample.strict_join
    "https://shop.example" [("Privacy", "//[/policies/privacy-policy")] []
  = (Raise ValueError, [])
  /\ find_policy_links (fun _ => Raised "LocationParseError")
       Sample.concat_join "https://www..example.com" [] []
     = (Raise (LibraryError "LocationParseError"),
        ["https://www..example.com/policies/privacy-policy"]).
Proof. split; reflexivity. Qed.

End PolicyFacts.

(* ================================================================== *)
(** ** Scenario B: the feed and the Hero Matcher together *)

Module ScenarioB.

(** C2, as the code has it.  When the feed answers 200 with
    [{"products":[{"id":1,"title":"Widget","handle":"widget"}]}] and
    the validator accepts that entry as a product [p] with id 1 and
    handle [widget], the catalog is [[p]]; and for a single card
    whose href has [widget] (in any letter case) as the segment that
    follows its first [/products/], the Hero Matcher returns
    [[p]]. *)
Theorem scenario_B :
  forall (requests_get : string -> outcome)
         (new_Product : json -> json -> json -> json -> list json ->
                        option Product)
         (base_url : string) (log : list string)
         (r : Response) (p : Product) (card : Dict.t string),
    requests_get (Str.rstrip_slash base_url ++ "/products.json")%string
    = Returned r ->
    status_code r = 200%Z ->
    json_body r = Some Sample.widget_feed ->
    new_Product (JInt 1) (JStr "Widget") (JStr "widget") JNull [] = Some p ->
    id p = Some 1%Z ->
    handle p = Some "widget" ->
    option_map Str.lower
      (Hero.products_segment (Str.or_empty (Dict.get "href" card)))
    = Some "widget" ->
    fst (fetch_products_json requests_get new_Product base_url log) = Ok [p]
    /\ Hero.hero_product_matches [card] [p] base_url = [p].
Proof.
  intros requests_get new_Product base_url log r p card
         Hget Hstatus Hbody Hnew Hid Hhandle Hseg.
  split.
  - unfold fetch_products_json, bind, safe_get.
    rewrite Hget, Hstatus. simpl.
    unfold try_products, Response_json. rewrite Hbody. simpl.
    unfold product_of. simpl. rewrite Hnew. reflexivity.
  - destruct p as [pid ptitle phandle pvariants pimages].
    simpl in Hhandle. subst phandle.
    unfold Hero.hero_product_matches, Hero.matches, Hero.collect,
      Hero.card_match.
    rewrite Hseg. reflexivity.
Qed.

(** The theorem at the card that links to [/products/widget]. *)
Lemma scenario_B_witness :
  fst (fetch_products_json
         (fun _ => Sample.ok "" (Some Sample.widget_feed))
         Sample.typed_Product "https://shop.example" [])
  = Ok [Sample.widget]
  /\ Hero.hero_product_matches
       [card "/products/widget" "Widget"] [Sample.widget]
       "https://shop.example"
     = [Sample.widget].
Proof.
  apply (@scenario_B (fun _ => Sample.ok "" (Some Sample.widget_feed))
           Sample.typed_Product "https://shop.example" []
           (Sample.response 200 "" (Some Sample.widget_feed))
           Sample.widget (card "/products/widget" "Widget"));
    reflexivity.
Defined.

(** C2 as stated fails: the href [/products/widgets] contains
    [/products/widget], but its segment is [widgets], which is no
    handle of the catalog, and the card's text does not hold the
    title. *)
Lemma scenario_B_counterexample :
  Str.contains "/products/widget" "/products/widgets" = true
  /\ fst (fetch_products_json
            (fun _ => Sample.ok "" (Some Sample.widget_feed))
            Sample.typed_Product "https://shop.example" [])
     = Ok [Sample.widget]
  /\ Hero.hero_product_matches
       [card "/products/widgets" "New in"] [Sample.widget]
       "https://shop.example"
     = [].
Proof. repeat split; reflexivity. Qed.

End ScenarioB.

(* ================================================================== *)
(** ** Properties of the loop over the important links *)

Module ImportantFacts.
Import Important.

(** A loop whose turn writes a key under a test leaves, for that key,
    the value of the last element that passes the test, when it
    completes. *)
Lemma get_fold_result_last (A V : Type)
    (step : Dict.t V -> A -> result (Dict.t V))
    (k : string) (test : A -> bool) (val : A -> option V) :
  (forall d a d',
      step d a = Ok d' ->
      Dict.get k d' = if test a then val a else Dict.get k d) ->
  forall l d d',
    fold_result step l d = Ok d' ->
    Dict.get k d'
    = match find test (rev l) with
      | Some a => val a
      | None => Dict.get k d
      end.
Proof.
  intros Hstep. induction l as [|a r IH]; intros d d'; simpl.
  - now intros [= <-].
  - destruct (step d a) as [d1|e] eqn:E; simpl; [|discriminate].
    intros H. rewrite (IH d1 d' H), (Hstep d a d1 E).
    assert (F : forall l1 l2,
               find test (l1 ++ l2)
               = match find test l1 with
                 | Some x => Some x
                 | None => find test l2
                 end).
    { induction l1 as [|x l1 IH1]; intros l2; simpl; [reflexivity|].
      destruct (test x); [reflexivity | apply IH1]. }
    rewrite F. destruct (find test (rev r)); [reflexivity|].
    simpl. now destruct (test a).
Qed.

Lemma get_written_tracking u kv d :
  Dict.get "order_tracking" (written u kv d)
  = if tracks kv then Some u else Dict.get "order_tracking" d.
Proof.
  unfold written. destruct (tracks kv), (contacts kv), (blogs kv);
    rewrite ?DictFacts.get_set; reflexivity.
Qed.

Lemma get_written_contact u kv d :
  Dict.get "contact" (written u kv d)
  = if contacts kv then Some u else Dict.get "contact" d.
Proof.
  unfold written. destruct (tracks kv), (contacts kv), (blogs kv);
    rewrite ?DictFacts.get_set; reflexivity.
Qed.

Lemma get_written_blog u kv d :
  Dict.get "blog" (written u kv d)
  = if blogs kv then Some u else Dict.get "blog" d.
Proof.
  unfold written. destruct (tracks kv), (contacts kv), (blogs kv);
    rewrite ?DictFacts.get_set; reflexivity.
Qed.

Lemma keys_written u kv d :
  incl (Dict.keys d) keys -> NoDup (Dict.keys d) ->
  incl (Dict.keys (written u kv d)) keys
  /\ NoDup (Dict.keys (written u kv d)).
Proof.
  intros Hi Hn. unfold written.
  destruct (tracks kv), (contacts kv), (blogs kv);
    (split;
     [ repeat (apply DictFacts.keys_set_incl; [simpl; tauto|]); assumption
     | repeat apply DictFacts.keys_set_NoDup; assumption ]).
Qed.

Section Important.
Variable urljoin : string -> string -> option string.
Variable website_url : string.

(** One turn of the loop: a link with an empty href or that passes no
    test is skipped; a link that passes is joined, and the turn
    raises when the join does. *)
Lemma important_step_spec d kv :
  important_step urljoin website_url d kv
  = if passes kv then
      match urljoin website_url (snd kv) with
      | Some u => Ok (written u kv d)
      | None => Raise ValueError
      end
    else Ok d.
Proof.
  unfold important_step, passes, written, tracks, contacts, blogs,
    file_link, joined.
  destruct kv as [text href]. cbn [fst snd].
  destruct (Str.nonempty href); [|reflexivity].
  destruct (urljoin website_url href) as [u|];
    destruct (Str.contains "track" (Str.lower text)
              || Str.contains "track" (Str.lower href)),
      (Str.contains "contact" (Str.lower text)
       || Str.contains "contact" (Str.lower href)),
      (Str.contains "blog" (Str.lower text)
       || Str.contains "/blogs" (Str.lower href));
    reflexivity.
Qed.

Lemma important_step_get key (test : string * string -> bool) :
  (forall u kv d,
      Dict.get key (written u kv d)
      = if test kv then Some u else Dict.get key d) ->
  (forall kv, test kv = true -> tracks kv || contacts kv || blogs kv = true) ->
  forall d kv d',
    important_step urljoin website_url d kv = Ok d' ->
    Dict.get key d'
    = if Str.nonempty (snd kv) && test kv
      then urljoin website_url (snd kv)
      else Dict.get key d.
Proof.
  intros Hw Ht d kv d'. rewrite important_step_spec. unfold passes.
  destruct (Str.nonempty (snd kv)); simpl.
  - destruct (tracks kv || contacts kv || blogs kv) eqn:T.
    + destruct (urljoin website_url (snd kv)) as [u|]; [|discriminate].
      intros [= <-]. rewrite Hw. now destruct (test kv).
    + intros [= <-]. destruct (test kv) eqn:E; [|reflexivity].
      rewrite (Ht kv E) in T. discriminate.
  - now intros [= <-].
Qed.

Lemma important_step_keys d kv d' :
  important_step urljoin website_url d kv = Ok d' ->
  incl (Dict.keys d) keys -> NoDup (Dict.keys d) ->
  incl (Dict.keys d') keys /\ NoDup (Dict.keys d').
Proof.
  rewrite important_step_spec. destruct (passes kv).
  - destruct (urljoin website_url (snd kv)) as [u|]; [|discriminate].
    intros [= <-]. apply keys_written.
  - intros [= <-]. now split.
Qed.

Lemma important_fold_keys html_links :
  forall d d',
    fold_result (important_step urljoin website_url) html_links d = Ok d' ->
    incl (Dict.keys d) keys -> NoDup (Dict.keys d) ->
    incl (Dict.keys d') keys /\ NoDup (Dict.keys d').
Proof.
  induction html_links as [|kv r IH]; intros d d'; simpl.
  - intros [= <-]. now split.
  - destruct (important_step urljoin website_url d kv) as [d1|e] eqn:E;
      simpl; [|discriminate].
    intros H Hi Hn. destruct (important_step_keys _ _ E Hi Hn) as [Hi' Hn'].
    exact (IH d1 d' H Hi' Hn').
Qed.

(** The loop completes when every link that passes can be joined. *)
Lemma important_fold_completes html_links :
  (forall kv, In kv html_links -> passes kv = true ->
              urljoin website_url (snd kv) <> None) ->
  forall d,
    exists d',
      fold_result (important_step urljoin website_url) html_links d = Ok d'.
Proof.
  induction html_links as [|kv r IH]; intros H d; simpl.
  - now exists d.
  - rewrite important_step_spec.
    destruct (passes kv) eqn:P.
    + destruct (urljoin website_url (snd kv)) as [u|] eqn:U.
      * simpl. apply IH. intros kv' Hin. apply H. now right.
      * now destruct (H kv (or_introl eq_refl) P).
    + simpl. apply IH. intros kv' Hin. apply H. now right.
Qed.

(** All the loop can raise is the [ValueError] of a join. *)
Lemma important_fold_raises html_links :
  forall d e,
    fold_result (important_step urljoin website_url) html_links d = Raise e ->
    e = ValueError.
Proof.
  induction html_links as [|kv r IH]; intros d e; simpl; [discriminate|].
  rewrite important_step_spec.
  destruct (passes kv); [|apply IH].
  destruct (urljoin website_url (snd kv)); [apply IH|].
  now intros [= <-].
Qed.

(** The loop raises when some link that passes cannot be joined. *)
Lemma important_fold_stops html_links :
  (exists kv, In kv html_links /\ passes kv = true
              /\ urljoin website_url (snd kv) = None) ->
  forall d,
    fold_result (important_step urljoin website_url) html_links d
    = Raise ValueError.
Proof.
  induction html_links as [|kv r IH]; intros [kv' [Hin [P U]]] d.
  - destruct Hin.
  - simpl. rewrite important_step_spec. destruct Hin as [->|Hin].
    + now rewrite P, U.
    + assert (T : exists kv0, In kv0 r /\ passes kv0 = true
                              /\ urljoin website_url (snd kv0) = None)
        by (exists kv'; now repeat split).
      destruct (passes kv); [|exact (IH T d)].
      destruct (urljoin website_url (snd kv)); [|reflexivity].
      exact (IH T _).
Qed.

End Important.

End ImportantFacts.

(* ================================================================== *)
(** ** Properties of the Context Assembler *)

Module AssemblerFacts.

(** Where [old] does not occur, [replace] changes nothing. *)
Lemma replace_from_absent old new s :
  Str.contains old s = false -> Str.replace_from old new 0 s = s.
Proof.
  induction s as [|c r IH]; [reflexivity|].
  intros H. simpl in H. apply orb_false_iff in H. destruct H as [H1 H2].
  cbn [Str.replace_from]. rewrite H1. now rewrite IH.
Qed.

(** [replace] on a URL whose only [https://] is its scheme. *)
Lemma replace_scheme rest :
  Str.contains "https://" rest = false ->
  Str.replace "https://" "https://www." ("https://" ++ rest)
  = ("https://www." ++ rest)%string.
Proof.
  intros H. unfold Str.replace. cbn.
  now rewrite (replace_from_absent "https://" "https://www." rest H).
Qed.

Section WithEnvironment.
Variable requests_get : string -> outcome.
Variable urljoin : string -> string -> option string.
Variable new_Product :
  json -> json -> json -> json -> list json -> option Product.
Variable BeautifulSoup : string -> Soup.node.
Variable list_of_set : list string -> list string.
Variable HttpUrl : string -> option string.

(** The stages of [build_context], in the order the code runs them:
    the feed, the policies, the important links, the validation of
    the URL; the first one that raises ends it. *)
Lemma build_context_result website html log :
  let parsed := extract_links_and_text BeautifulSoup list_of_set html in
  let feed := fetch_products_json requests_get new_Product website log in
  fst (build_context requests_get urljoin new_Product BeautifulSoup
         list_of_set HttpUrl website html log)
  = match fst feed with
    | Raise e => Raise e
    | Ok ps =>
        match fst (find_policy_links requests_get urljoin website
                     (parsed_links parsed) (snd feed)) with
        | Raise e => Raise e
        | Ok pol =>
            match important_loop urljoin website (parsed_links parsed) with
            | Raise e => Raise e
            | Ok imp =>
                match HttpUrl website with
                | None => Raise ValueError
                | Some u =>
                    let heroes :=
                      Hero.hero_product_matches
                        (parsed_product_cards parsed) ps website in
                    Ok {| website_url := u;
                          store_title := parsed_title parsed;
                          about_text := parsed_about_text parsed;
                          products := ps;
                          hero_products := heroes;
                          policies := pol;
                          faqs := Faq.try_fetch_faqs (BeautifulSoup html);
                          social_handles := parsed_social parsed;
                          contact :=
                            {| emails := parsed_emails parsed;
                               phones := parsed_phones parsed;
                               addresses := [] |};
                          important_links := imp;
                          metadata :=
                            [("found_products_count",
                              Z.of_nat (length ps));
                             ("found_hero_count",
                              Z.of_nat (length heroes))] |}
                end
            end
        end
    end.
Proof.
  intros parsed feed. unfold build_context, bind, lift. fold parsed feed.
  destruct feed as [[ps|e] log1]; cbn [fst snd]; [|reflexivity].
  destruct (find_policy_links requests_get urljoin website
              (parsed_links parsed) log1) as [[pol|e] log2];
    cbn [fst snd]; [|reflexivity].
  destruct (important_loop urljoin website (parsed_links parsed)) as [imp|e];
    [|reflexivity].
  destruct (HttpUrl website); reflexivity.
Qed.

(** What [build_context] can raise: what escapes the feed, the
    [ValueError] of a join or of the validation, an exception that
    [requests.get] let through; never an [HTTPException]. *)
Lemma build_context_raises website html log e :
  fst (build_context requests_get urljoin new_Product BeautifulSoup
         list_of_set HttpUrl website html log) = Raise e ->
  e = AttributeError \/ e = TypeError \/ e = ValueError
  \/ exists name, e = LibraryError name.
Proof.
  rewrite build_context_result. cbv zeta.
  destruct (fst (fetch_products_json requests_get new_Product website log))
    as [ps|e0] eqn:F.
  - destruct (PolicyFacts.find_policy_links_shape requests_get urljoin
                website
                (parsed_links
                   (extract_links_and_text BeautifulSoup list_of_set html))
                (snd (fetch_products_json requests_get new_Product
                        website log)))
      as [ending [probes [E [_ [_ K]]]]].
    rewrite E. cbn [fst]. destruct ending as [pol|e1].
    + destruct (important_loop urljoin website _) as [imp|e2] eqn:I.
      * destruct (HttpUrl website); [discriminate|].
        intros [= <-]. tauto.
      * intros [= <-].
        rewrite (ImportantFacts.important_fold_raises _ _ _ _ I). tauto.
    + intros [= <-].
      destruct K as [[-> _] | [pat [lname [_ [_ ->]]]]]; [tauto|].
      right. right. right. now exists lname.
  - intros [= <-].
    destruct (FetchFacts.fetch_products_json_escapes _ _ _ _ F)
      as [-> | [-> | H] ]; tauto.
Qed.

(** [fetch_insights] once the first fetch has given [None]. *)
Lemma fetch_insights_after_failure payload requested log :
  Dict.get "website_url" payload = Some requested ->
  Str.nonempty requested = true ->
  let url :=
    if Str.startswith "http" requested then requested
    else ("https://" ++ requested)%string in
  Policy.absent requests_get url = true ->
  fetch_insights requests_get urljoin new_Product BeautifulSoup
    list_of_set HttpUrl payload log
  = match retry_www requests_get url (log ++ [url]) with
    | (Ok (Some r, website), log') =>
        build_context requests_get urljoin new_Product BeautifulSoup
          list_of_set HttpUrl website (text r) log'
    | (Ok (None, website), log') => (Raise (unreachable website), log')
    | (Raise e, log') => (Raise e, log')
    end.
Proof.
  intros Hget Hne url Hfail. unfold fetch_insights.
  rewrite Hget. cbn [Str.truthy Str.or_empty].
  rewrite Hne. fold url. unfold bind at 1 2.
  destruct (PolicyFacts.safe_get_trichotomy requests_get url log)
    as [[_ [A _]] | [[_ [_ E]] | [_ [A _]]]];
    [rewrite A in Hfail; discriminate | | rewrite A in Hfail; discriminate].
  rewrite E.
  destruct (retry_www requests_get url (log ++ [url]))
    as [[[[r|] website]|e] log']; reflexivity.
Qed.

(** [fetch_insights] when [requests.get] lets an exception through on
    the first fetch. *)
Lemma fetch_insights_after_raise payload requested log name :
  Dict.get "website_url" payload = Some requested ->
  Str.nonempty requested = true ->
  let url :=
    if Str.startswith "http" requested then requested
    else ("https://" ++ requested)%string in
  requests_get url = Raised name ->
  fetch_insights requests_get urljoin new_Product BeautifulSoup
    list_of_set HttpUrl payload log
  = (Raise (LibraryError name), log ++ [url]).
Proof.
  intros Hget Hne url Hraise. unfold fetch_insights.
  rewrite Hget. cbn [Str.truthy Str.or_empty].
  rewrite Hne. fold url. unfold bind at 1 2, safe_get.
  now rewrite Hraise.
Qed.

(** The retry, once the first fetch has given [None]. *)
Lemma fetch_insights_retry payload requested log :
  Dict.get "website_url" payload = Some requested ->
  Str.nonempty requested = true ->
  let url :=
    if Str.startswith "http" requested then requested
    else ("https://" ++ requested)%string in
  let alt := Str.replace "https://" "https://www." url in
  let run :=
    fetch_insights requests_get urljoin new_Product BeautifulSoup
      list_of_set HttpUrl payload log in
  Policy.absent requests_get url = true ->
  if Str.startswith "https://" url && negb (Str.contains "www." url)
  then
    if Policy.reachable requests_get alt
    then
      exists r,
        requests_get alt = Returned r
        /\ run = build_context requests_get urljoin new_Product
                   BeautifulSoup list_of_set HttpUrl alt (text r)
                   (log ++ [url; alt])
    else if Policy.absent requests_get alt
    then run = (Raise (unreachable url), log ++ [url; alt])
    else
      exists name,
        requests_get alt = Raised name
        /\ run = (Raise (LibraryError name), log ++ [url; alt])
  else run = (Raise (unreachable url), log ++ [url]).
Proof.
  intros Hget Hne url alt run Hfail. unfold run.
  rewrite (@fetch_insights_after_failure payload requested log Hget Hne
             Hfail).
  fold url. unfold retry_www.
  destruct (Str.startswith "https://" url && negb (Str.contains "www." url));
    [|reflexivity].
  fold alt.
  replace (log ++ [url; alt]) with ((log ++ [url]) ++ [alt])
    by now rewrite <- app_assoc.
  unfold bind.
  destruct (PolicyFacts.safe_get_trichotomy requests_get alt (log ++ [url]))
    as [[R [_ [r [G E]]]] | [[R [A E]] | [R [A [name [G E]]]]]];
    rewrite E, R; [|rewrite A..].
  - exists r. now split.
  - reflexivity.
  - exists name. now split.
Qed.

(** The ways [fetch_insights] can end: the 400 exception exactly when
    [website_url] is missing or empty; otherwise the 401 exception, an
    aggregate, an [AttributeError] or [TypeError] that escaped the
    Catalog Normalizer, the [ValueError] of a join or of the
    validation of the URL, or an exception that a library call let
    through. *)
Lemma fetch_insights_outcomes payload log :
  let run :=
    fst (fetch_insights requests_get urljoin new_Product BeautifulSoup
           list_of_set HttpUrl payload log) in
  (Str.truthy (Dict.get "website_url" payload) = false ->
   run = Raise (HTTPException 400 "website_url is required"))
  /\ (Str.truthy (Dict.get "website_url" payload) = true ->
      (exists website, run = Raise (unreachable website))
      \/ (exists ctx, run = Ok ctx)
      \/ run = Raise AttributeError
      \/ run = Raise TypeError
      \/ run = Raise ValueError
      \/ exists name, run = Raise (LibraryError name)).
Proof.
  intros run. unfold run, fetch_insights.
  destruct (Str.truthy (Dict.get "website_url" payload));
    split; try discriminate; [|reflexivity].
  intros _.
  assert (B : forall website html log0,
             let built :=
               fst (build_context requests_get urljoin new_Product
                      BeautifulSoup list_of_set HttpUrl website html log0) in
             (exists ctx, built = Ok ctx)
             \/ built = Raise AttributeError
             \/ built = Raise TypeError
             \/ built = Raise ValueError
             \/ exists name, built = Raise (LibraryError name)).
  { intros website html log0 built.
    pose proof (@build_context_raises website html log0) as R.
    fold built in R. destruct built as [ctx|e].
    - left. now exists ctx.
    - right. destruct (R e eq_refl) as [-> | [-> | [-> | [name ->] ] ] ];
        [tauto | tauto | tauto |].
      right. right. right. now exists name. }
  set (url := if Str.startswith "http" _ then _ else _).
  unfold bind.
  destruct (FetchFacts.safe_get_cases requests_get url log)
    as [[o ->] | [name [_ ->]]].
  2:{ cbn [fst]. do 5 right. now exists name. }
  destruct o as [r|].
  - unfold ret. right. apply B.
  - unfold retry_www.
    destruct (Str.startswith "https://" url && _).
    + unfold bind.
      destruct (FetchFacts.safe_get_cases requests_get
                  (Str.replace "https://" "https://www." url)
                  (log ++ [url])) as [[o ->] | [name [_ ->]]].
      * destruct o as [r|]; [right; apply B | left; now exists url].
      * cbn [fst]. do 5 right. now exists name.
    + left. now exists url.
Qed.

End WithEnvironment.

(** C6, as the code has it, for every requested URL whose first
    fetch yields no response.  When that fetch gave [None] (a
    [requests.RequestException], or a final status other than 200)
    and the URL starts with [https://] and [www.] occurs nowhere in
    it, exactly one more request is made, for the URL with [www.] put
    after the scheme (for a URL in which [https://] only occurs as the
    scheme).  If that request gives a response, the rest of the
    pipeline runs on the [www.] URL: the feed, the policies and the
    important links are looked for under it and it is the URL handed
    to the aggregate, so that an aggregate that is returned carries
    the [www.] URL as [HttpUrl] validated it, and one is returned when
    none of these stages raises.  If that request gives [None] the
    operation fails with the 401 exception, and if [requests.get] lets
    an exception through, with that exception.  In every other case
    where the first fetch gave [None], no retry is made and the
    operation fails with the 401 exception after the one request.
    When [requests.get] let an exception through on the first fetch,
    the operation fails with it after the one request. *)
Theorem www_retry :
  forall (requests_get : string -> outcome)
         (urljoin : string -> string -> option string)
         (new_Product : json -> json -> json -> json -> list json ->
                        option Product)
         (BeautifulSoup : string -> Soup.node)
         (list_of_set : list string -> list string)
         (HttpUrl : string -> option string)
         (payload : Dict.t string) (requested : string)
         (log : list string),
    Dict.get "website_url" payload = Some requested ->
    Str.nonempty requested = true ->
    let url :=
      if Str.startswith "http" requested then requested
      else ("https://" ++ requested)%string in
    let run :=
      fetch_insights requests_get urljoin new_Product BeautifulSoup
        list_of_set HttpUrl payload log in
    Policy.reachable requests_get url = false ->
    if Policy.absent requests_get url
    then
      if Str.startswith "https://" url && negb (Str.contains "www." url)
      then
        exists alt,
          (forall rest,
              url = ("https://" ++ rest)%string ->
              Str.contains "https://" rest = false ->
              alt = ("https://www." ++ rest)%string)
          /\ if Policy.reachable requests_get alt
             then
               exists r,
                 let links :=
                   parsed_links
                     (extract_links_and_text BeautifulSoup list_of_set
                        (text r)) in
                 let feed :=
                   fetch_products_json requests_get new_Product alt
                     (log ++ [url; alt]) in
                 requests_get alt = Returned r
                 /\ run = build_context requests_get urljoin new_Product
                            BeautifulSoup list_of_set HttpUrl alt (text r)
                            (log ++ [url; alt])
                 /\ (forall ctx,
                        fst run = Ok ctx ->
                        HttpUrl alt = Some (website_url ctx)
                        /\ fst feed = Ok (products ctx)
                        /\ fst (find_policy_links requests_get urljoin alt
                                  links (snd feed)) = Ok (policies ctx)
                        /\ important_loop urljoin alt links
                           = Ok (important_links ctx))
                 /\ (forall ps pol imp validated,
                        fst feed = Ok ps ->
                        fst (find_policy_links requests_get urljoin alt
                               links (snd feed)) = Ok pol ->
                        important_loop urljoin alt links = Ok imp ->
                        HttpUrl alt = Some validated ->
                        exists ctx,
                          fst run = Ok ctx
                          /\ website_url ctx = validated
                          /\ products ctx = ps
                          /\ policies ctx = pol
                          /\ important_links ctx = imp)
             else if Policy.absent requests_get alt
             then run = (Raise (unreachable url), log ++ [url; alt])
             else
               exists name,
                 requests_get alt = Raised name
                 /\ run = (Raise (LibraryError name), log ++ [url; alt])
      else run = (Raise (unreachable url), log ++ [url])
    else
      exists name,
        requests_get url = Raised name
        /\ run = (Raise (LibraryError name), log ++ [url]).
Proof.
  intros requests_get urljoin new_Product BeautifulSoup list_of_set HttpUrl
         payload requested log Hget Hne url run Hfail.
  destruct (Policy.absent requests_get url) eqn:A.
  2:{ destruct (PolicyFacts.safe_get_trichotomy requests_get url log)
        as [[R _] | [[_ [A' _]] | [_ [_ [name [G _]]]]]];
        [rewrite R in Hfail; discriminate | rewrite A' in A; discriminate |].
      exists name. split; [exact G|].
      exact (@fetch_insights_after_raise requests_get urljoin new_Product
               BeautifulSoup list_of_set HttpUrl payload requested log name
               Hget Hne G). }
  pose proof (@fetch_insights_retry requests_get urljoin new_Product
                BeautifulSoup list_of_set HttpUrl payload requested log
                Hget Hne A) as T.
  cbv zeta in T. fold url in T. fold run in T.
  destruct (Str.startswith "https://" url && negb (Str.contains "www." url));
    [|exact T].
  exists (Str.replace "https://" "https://www." url). split.
  - intros rest -> Hrest. now apply replace_scheme.
  - set (alt := Str.replace "https://" "https://www." url) in *.
    destruct (Policy.reachable requests_get alt); [|exact T].
    destruct T as [r [G E]]. exists r. cbv zeta.
    split; [exact G|]. split; [exact E|].
    pose proof (@build_context_result requests_get urljoin new_Product
                  BeautifulSoup list_of_set HttpUrl alt (text r)
                  (log ++ [url; alt])) as B.
    cbv zeta in B. rewrite <- E in B.
    split.
    + intros ctx Hctx. rewrite Hctx in B.
      destruct (fst (fetch_products_json requests_get new_Product alt
                       (log ++ [url; alt]))) as [ps|e]; [|discriminate].
      destruct (fst (find_policy_links requests_get urljoin alt _ _))
        as [pol|e]; [|discriminate].
      destruct (important_loop urljoin alt _) as [imp|e]; [|discriminate].
      destruct (HttpUrl alt) as [u|]; [|discriminate].
      injection B as ->. now repeat split.
    + intros ps pol imp validated Hps Hpol Himp Hv.
      rewrite Hps, Hpol, Himp, Hv in B.
      eexists. split; [exact B|]. now repeat split.
Qed.

(** The theorem on Scenario E: [example.com] does not answer,
    [https://www.example.com] does. *)
Lemma www_retry_witness :
  let requests_get :=
    Sample.shop "https://www.example.com" "<title>Acme</title>"
      "https://www.example.com/products.json" (Some Sample.widget_feed) in
  let url := "https://example.com" in
  let run :=
    fetch_insights requests_get Sample.concat_join Sample.typed_Product
      (fun _ => Sample.document []) Sample.first_seen Sample.kept
      [("website_url", "example.com")] [] in
  exists alt,
    (forall rest,
        url = ("https://" ++ rest)%string ->
        Str.contains "https://" rest = false ->
        alt = ("https://www." ++ rest)%string)
    /\ if Policy.reachable requests_get alt
       then
         exists r,
           let links :=
             parsed_links
               (extract_links_and_text (fun _ => Sample.document [])
                  Sample.first_seen (text r)) in
           let feed :=
             fetch_products_json requests_get Sample.typed_Product alt
               ([] ++ [url; alt]) in
           requests_get alt = Returned r
           /\ run = build_context requests_get Sample.concat_join
                      Sample.typed_Product (fun _ => Sample.document [])
                      Sample.first_seen Sample.kept alt (text r)
                      ([] ++ [url; alt])
           /\ (forall ctx,
                  fst run = Ok ctx ->
                  Sample.kept alt = Some (website_url ctx)
                  /\ fst feed = Ok (products ctx)
                  /\ fst (find_policy_links requests_get Sample.concat_join
                            alt links (snd feed)) = Ok (policies ctx)
                  /\ important_loop Sample.concat_join alt links
                     = Ok (important_links ctx))
           /\ (forall ps pol imp validated,
                  fst feed = Ok ps ->
                  fst (find_policy_links requests_get Sample.concat_join
                         alt links (snd feed)) = Ok pol ->
                  important_loop Sample.concat_join alt links = Ok imp ->
                  Sample.kept alt = Some validated ->
                  exists ctx,
                    fst run = Ok ctx
                    /\ website_url ctx = validated
                    /\ products ctx = ps
                    /\ policies ctx = pol
                    /\ important_links ctx = imp)
       else if Policy.absent requests_get alt
       then run = (Raise (unreachable url), [] ++ [url; alt])
       else
         exists name,
           requests_get alt = Raised name
           /\ run = (Raise (LibraryError name), [] ++ [url; alt]).
Proof.
  exact (@www_retry
           (Sample.shop "https://www.example.com" "<title>Acme</title>"
              "https://www.example.com/products.json"
              (Some Sample.widget_feed))
           Sample.concat_join Sample.typed_Product
           (fun _ => Sample.document []) Sample.first_seen Sample.kept
           [("website_url", "example.com")] "example.com" []
           eq_refl eq_refl eq_refl).
Defined.

(** Scenario A, evaluated: the title and the meta description are
    found, and the unreachable feed leaves the catalog empty. *)
Example scenario_A :
  match
    fst (fetch_insights
           (Sample.shop "https://acme.example" Sample.acme_html "" None)
           Sample.concat_join Sample.typed_Product
           (fun _ => Sample.acme_page) Sample.first_seen Sample.kept
           [("website_url", "https://acme.example")] [])
  with
  | Ok ctx =>
      store_title ctx = Some "Acme Store"
      /\ about_text ctx = Some "Acme sells widgets"
      /\ products ctx = []
  | Raise _ => False
  end.
Proof. repeat split; reflexivity. Qed.

(** Scenario E, evaluated: the aggregate carries the [www.] URL, and
    the requests are the page, the retry, the feed and the probes. *)
Example scenario_E :
  let run :=
    fetch_insights
      (Sample.shop "https://www.example.com" "<title>Acme</title>"
         "https://www.example.com/products.json" (Some Sample.widget_feed))
      Sample.concat_join Sample.typed_Product
      (fun _ => Sample.document []) Sample.first_seen Sample.kept
      [("website_url", "example.com")] [] in
  match fst run with
  | Ok ctx =>
      website_url ctx = "https://www.example.com"
      /\ products ctx = [Sample.widget]
  | Raise _ => False
  end
  /\ firstn 3 (snd run)
     = ["https://example.com"; "https://www.example.com";
        "https://www.example.com/products.json"].
Proof. split; [split|]; reflexivity. Qed.

(** Scenario E with a validation that writes the empty path out, with
    one that refuses the URL, and with a link that cannot be joined:
    the aggregate carries the normalised [www.] URL in the first case,
    and the operation ends with a [ValueError] after all its requests
    in the two others. *)
Example scenario_E_validated :
  let network :=
    Sample.shop "https://www.example.com" "<title>Acme</title>"
      "https://www.example.com/products.json" (Some Sample.widget_feed) in
  let run HttpUrl :=
    fetch_insights network Sample.concat_join Sample.typed_Product
      (fun _ => Sample.document []) Sample.first_seen HttpUrl
      [("website_url", "example.com")] [] in
  option_map website_url
    (match fst (run Sample.slashed) with Ok ctx => Some ctx | Raise _ => None end)
  = Some "https://www.example.com/"
  /\ fst (run (Sample.at_most 20)) = Raise ValueError
  /\ length (snd (run (Sample.at_most 20))) = 11
  /\ fst (fetch_insights network Sample.strict_join Sample.typed_Product
            (fun _ => Sample.document [Sample.link "//[v6/contact" "Contact"])
            Sample.first_seen Sample.kept
            [("website_url", "example.com")] [])
     = Raise ValueError.
Proof. repeat split. Qed.

(** C6 as stated fails: [https://example.com/?ref=www.partner.com]
    has the https scheme and a host without [www.], its fetch fails
    and [https://www.example.com/?ref=www.partner.com] would answer,
    yet no retry is made: the one request is followed by the 401
    exception. *)
Lemma www_retry_counterexample :
  fetch_insights
    (Sample.shop "https://www.example.com/?ref=www.partner.com"
       "<title>Acme</title>" "" None)
    Sample.concat_join Sample.typed_Product
    (fun _ => Sample.document []) Sample.first_seen Sample.kept
    [("website_url", "https://example.com/?ref=www.partner.com")] []
  = (Raise (unreachable "https://example.com/?ref=www.partner.com"),
     ["https://example.com/?ref=www.partner.com"])
  /\ Str.startswith "https://" "https://example.com/?ref=www.partner.com"
     = true
  /\ Str.startswith "www."
       (Str.drop 8 "https://example.com/?ref=www.partner.com") = false
  /\ Policy.absent
       (Sample.shop "https://www.example.com/?ref=www.partner.com"
          "<title>Acme</title>" "" None)
       "https://example.com/?ref=www.partner.com" = true
  /\ Policy.reachable
       (Sample.shop "https://www.example.com/?ref=www.partner.com"
          "<title>Acme</title>" "" None)
       "https://www.example.com/?ref=www.partner.com" = true.
Proof. repeat split; reflexivity. Qed.

End AssemblerFacts.

(* ================================================================== *)
(** ** Two runs on the same inputs *)

Module RunsFacts.
Import Runs.

Lemma first_seen_in l : forall x, In x (Sample.first_seen l) <-> In x l.
Proof.
  induction l as [|y r IH]; intros x; simpl; [tauto|].
  rewrite filter_In, IH.
  destruct (String.eqb_spec x y) as [->|Hne]; simpl.
  - split; [intros [H|[_ H]]; [now left | discriminate] | now left].
  - split.
    + intros [H|[H _]]; [now left | now right].
    + intros [H|H]; [now left | right; now split].
Qed.

Lemma first_seen_NoDup l : NoDup (Sample.first_seen l).
Proof.
  induction l as [|y r IH]; simpl; constructor.
  - rewrite filter_In. intros [_ H]. now rewrite String.eqb_refl in H.
  - now apply NoDup_filter.
Qed.

Lemma first_seen_set_order : set_order Sample.first_seen.
Proof. intros xs. split; [apply first_seen_NoDup | apply first_seen_in]. Qed.

Lemma last_seen_set_order : set_order Sample.last_seen.
Proof.
  intros xs. unfold Sample.last_seen. split.
  - apply NoDup_rev, first_seen_NoDup.
  - intros x. rewrite <- in_rev. apply first_seen_in.
Qed.

Lemma set_orders_permutation order1 order2 xs :
  set_order order1 -> set_order order2 ->
  Permutation (order1 xs) (order2 xs).
Proof.
  intros H1 H2. destruct (H1 xs) as [N1 M1], (H2 xs) as [N2 M2].
  apply NoDup_Permutation; try assumption.
  intros x. now rewrite M1, M2.
Qed.

Section WithEnvironment.
Variable requests_get : string -> outcome.
Variable urljoin : string -> string -> option string.
Variable new_Product :
  json -> json -> json -> json -> list json -> option Product.
Variable BeautifulSoup : string -> Soup.node.
Variable HttpUrl : string -> option string.
Variables order1 order2 : list string -> list string.
Hypothesis Horder1 : set_order order1.
Hypothesis Horder2 : set_order order2.

Lemma build_context_agree website html log :
  snd (build_context requests_get urljoin new_Product BeautifulSoup
         order1 HttpUrl website html log)
  = snd (build_context requests_get urljoin new_Product BeautifulSoup
           order2 HttpUrl website html log)
  /\ agree
       (fst (build_context requests_get urljoin new_Product BeautifulSoup
               order1 HttpUrl website html log))
       (fst (build_context requests_get urljoin new_Product BeautifulSoup
               order2 HttpUrl website html log)).
Proof.
  unfold build_context, bind.
  cbn [extract_links_and_text parsed_links parsed_product_cards
       parsed_title parsed_about_text parsed_social parsed_emails
       parsed_phones].
  destruct (fetch_products_json requests_get new_Product website log)
    as [[ps|e] log1]; [|now split].
  destruct (find_policy_links requests_get urljoin website
              (page_links (BeautifulSoup html)) log1)
    as [[pol|e] log2]; [|now split].
  unfold lift.
  destruct (important_loop urljoin website (page_links (BeautifulSoup html)))
    as [imp|e]; [|now split].
  destruct (HttpUrl website) as [u|]; [|now split].
  split; [reflexivity|]. unfold ret, agree, same_but_contact_order.
  cbn. repeat split; now apply set_orders_permutation.
Qed.

Lemma fetch_insights_agree payload log :
  snd (fetch_insights requests_get urljoin new_Product BeautifulSoup
         order1 HttpUrl payload log)
  = snd (fetch_insights requests_get urljoin new_Product BeautifulSoup
           order2 HttpUrl payload log)
  /\ agree
       (fst (fetch_insights requests_get urljoin new_Product BeautifulSoup
               order1 HttpUrl payload log))
       (fst (fetch_insights requests_get urljoin new_Product BeautifulSoup
               order2 HttpUrl payload log)).
Proof.
  unfold fetch_insights.
  destruct (Str.truthy (Dict.get "website_url" payload)); [|now split].
  set (url := if Str.startswith "http" _ then _ else _).
  unfold bind.
  destruct (FetchFacts.safe_get_cases requests_get url log)
    as [[o ->] | [name [_ ->]]]; [|now split].
  destruct o as [r|].
  - unfold ret. apply build_context_agree.
  - unfold retry_www.
    destruct (Str.startswith "https://" url && _); [|now split].
    unfold bind.
    destruct (FetchFacts.safe_get_cases requests_get
                (Str.replace "https://" "https://www." url)
                (log ++ [url])) as [[o ->] | [name [_ ->]]]; [|now split].
    destruct o as [r|]; [apply build_context_agree | now split].
Qed.

End WithEnvironment.

(** C7, as the code has it.  Two runs of [fetch_insights] on the
    same payload, network answers, parser, validator and [urljoin]
    make the same requests and end the same way: with the same
    exception, or with two aggregates that agree on every field
    except that the e-mail list and the phone list of one may be a
    reordering of those of the other, each run listing its set in the
    order its interpreter iterates it. *)
Theorem runs_agree_up_to_set_order :
  forall (requests_get : string -> outcome)
         (urljoin : string -> string -> option string)
         (new_Product : json -> json -> json -> json -> list json ->
                        option Product)
         (BeautifulSoup : string -> Soup.node)
         (HttpUrl : string -> option string)
         (order1 order2 : list string -> list string)
         (payload : Dict.t string) (log : list string),
    set_order order1 ->
    set_order order2 ->
    snd (fetch_insights requests_get urljoin new_Product BeautifulSoup
           order1 HttpUrl payload log)
    = snd (fetch_insights requests_get urljoin new_Product BeautifulSoup
             order2 HttpUrl payload log)
    /\ agree
         (fst (fetch_insights requests_get urljoin new_Product BeautifulSoup
                 order1 HttpUrl payload log))
         (fst (fetch_insights requests_get urljoin new_Product BeautifulSoup
                 order2 HttpUrl payload log)).
Proof.
  intros requests_get urljoin new_Product BeautifulSoup HttpUrl
         order1 order2 payload log H1 H2.
  now apply fetch_insights_agree.
Qed.

(** The theorem on a page with two e-mail addresses, for the two
    sample orders. *)
Lemma runs_agree_witness :
  snd (fetch_insights
         (Sample.shop "https://shop.example" Sample.two_emails_html
            "https://shop.example/products.json" (Some Sample.widget_feed))
         Sample.concat_join Sample.typed_Product
         (fun _ => Sample.two_emails_page) Sample.first_seen Sample.kept
         [("website_url", "https://shop.example")] [])
  = snd (fetch_insights
           (Sample.shop "https://shop.example" Sample.two_emails_html
              "https://shop.example/products.json" (Some Sample.widget_feed))
           Sample.concat_join Sample.typed_Product
           (fun _ => Sample.two_emails_page) Sample.last_seen Sample.kept
           [("website_url", "https://shop.example")] [])
  /\ agree
       (fst (fetch_insights
               (Sample.shop "https://shop.example" Sample.two_emails_html
                  "https://shop.example/products.json"
                  (Some Sample.widget_feed))
               Sample.concat_join Sample.typed_Product
               (fun _ => Sample.two_emails_page) Sample.first_seen Sample.kept
               [("website_url", "https://shop.example")] []))
       (fst (fetch_insights
               (Sample.shop "https://shop.example" Sample.two_emails_html
                  "https://shop.example/products.json"
                  (Some Sample.widget_feed))
               Sample.concat_join Sample.typed_Product
               (fun _ => Sample.two_emails_page) Sample.last_seen Sample.kept
               [("website_url", "https://shop.example")] [])).
Proof.
  exact (@runs_agree_up_to_set_order
           (Sample.shop "https://shop.example" Sample.two_emails_html
              "https://shop.example/products.json" (Some Sample.widget_feed))
           Sample.concat_join Sample.typed_Product
           (fun _ => Sample.two_emails_page) Sample.kept
           Sample.first_seen Sample.last_seen
           [("website_url", "https://shop.example")] []
           first_seen_set_order last_seen_set_order).
Defined.

(** C7 as stated fails: on a page with two e-mail addresses, a run
    whose interpreter iterates the set in one order and a run whose
    interpreter iterates it in the other return different e-mail
    lists, so their serialized outputs differ. *)
Lemma runs_differ_counterexample :
  set_order Sample.first_seen
  /\ set_order Sample.last_seen
  /\ match
       fst (fetch_insights
              (Sample.shop "https://shop.example" Sample.two_emails_html
                 "https://shop.example/products.json"
                 (Some Sample.widget_feed))
              Sample.concat_join Sample.typed_Product
              (fun _ => Sample.two_emails_page) Sample.first_seen Sample.kept
              [("website_url", "https://shop.example")] []),
       fst (fetch_insights
              (Sample.shop "https://shop.example" Sample.two_emails_html
                 "https://shop.example/products.json"
                 (Some Sample.widget_feed))
              Sample.concat_join Sample.typed_Product
              (fun _ => Sample.two_emails_page) Sample.last_seen Sample.kept
              [("website_url", "https://shop.example")] [])
     with
     | Ok c1, Ok c2 =>
         emails (contact c1) = ["a@b.co"; "c@d.co"]
         /\ emails (contact c2) = ["c@d.co"; "a@b.co"]
         /\ c1 <> c2
     | _, _ => False
     end.
Proof.
  split; [apply first_seen_set_order|].
  split; [apply last_seen_set_order|].
  vm_compute. split; [reflexivity|]. split; [reflexivity|].
  intros H. discriminate H.
Qed.

End RunsFacts.

(* ================================================================== *)
(** ** Dictionaries built by a loop *)

Module BuildFacts.

Section Build.
Variables (A V : Type) (key : A -> string) (val : A -> V).

(** A dictionary filled by [d[key(a)] = val(a)] for each [a] holds, for
    a key, the value of the last [a] that has the key. *)
Lemma get_built (k : string) (l : list A) :
  forall d : Dict.t V,
    Dict.get k (fold_left (fun d a => Dict.set (key a) (val a) d) l d)
    = match find (fun a => String.eqb k (key a)) (rev l) with
      | Some a => Some (val a)
      | None => Dict.get k d
      end.
Proof.
  induction l as [|a r IH]; intros d; simpl; [reflexivity|].
  rewrite IH, DictFacts.get_set.
  assert (F : forall l1 l2 (f : A -> bool),
             find f (l1 ++ l2)
             = match find f l1 with Some x => Some x | None => find f l2 end).
  { induction l1 as [|x l1 IH1]; intros l2 f; simpl; [reflexivity|].
    destruct (f x); [reflexivity | apply IH1]. }
  rewrite F. destruct (find _ (rev r)); [reflexivity|].
  simpl. now destruct (String.eqb k (key a)).
Qed.

Lemma keys_built_NoDup (l : list A) :
  forall d : Dict.t V,
    NoDup (Dict.keys d) ->
    NoDup (Dict.keys (fold_left (fun d a => Dict.set (key a) (val a) d) l d)).
Proof.
  induction l as [|a r IH]; intros d Hd; simpl; [assumption|].
  apply IH. now apply DictFacts.keys_set_NoDup.
Qed.

End Build.

End BuildFacts.

(* ================================================================== *)
(** ** More on the Hero Matcher *)

Module HeroMore.
Import Hero.

(** X1. The lookup from lowercased handle to product returns, for a
    key, the last product of the catalog whose lowercased handle
    ([''] for a product without handle) is the key, and nothing when
    there is none. *)
Theorem handles_to_product_last :
  forall (products : list Product) (k : string),
    Dict.get k (handles_to_product products)
    = find (fun p => String.eqb k (Lookup.lowered_handle p)) (rev products).
Proof.
  intros products k.
  pose proof (BuildFacts.get_built Lookup.lowered_handle (fun p => p) k
                products []) as H.
  unfold handles_to_product, Lookup.lowered_handle in *. rewrite H.
  now destruct (find _ (rev products)).
Qed.

Lemma products_segment_nonempty href seg :
  products_segment href = Some seg -> Str.nonempty seg = true.
Proof.
  induction href as [|c r IH]; [discriminate|].
  cbn [products_segment].
  destruct (Str.startswith "/products/" (String c r)); [|exact IH].
  destruct (Str.take_while segment_char (Str.drop 10 (String c r))) eqn:E;
    [exact IH|].
  now intros [= <-].
Qed.

Lemma lower_nonempty s : Str.nonempty (Str.lower s) = Str.nonempty s.
Proof. now destruct s. Qed.

Lemma handle_injective (products : list Product) :
  NoDup (map Lookup.lowered_handle products) ->
  forall p q,
    In p products -> In q products ->
    Lookup.lowered_handle p = Lookup.lowered_handle q -> p = q.
Proof.
  induction products as [|x r IH]; simpl; intros Hn p q Hp Hq E.
  - destruct Hp.
  - inversion Hn as [|? ? Hx Hr]; subst.
    destruct Hp as [<-|Hp], Hq as [<-|Hq]; try reflexivity.
    + exfalso. apply Hx. rewrite E. now apply in_map.
    + exfalso. apply Hx. rewrite <- E. now apply in_map.
    + now apply IH.
Qed.

Lemma matches_keep_first product_cards products base_url :
  hero_product_matches product_cards products base_url
  = keep_first [] (matches product_cards products).
Proof.
  unfold hero_product_matches. destruct products as [|p ps].
  - unfold matches. simpl. now rewrite HeroFacts.collect_empty_catalog.
  - now rewrite HeroFacts.dedup_keep_first.
Qed.

(** X2. A card whose href has, as the segment after its first
    [/products/], the handle of a catalog product up to letter case is
    matched through the handle, whatever its text: the result is one
    catalog product with that lowercased handle, and it is that very
    product when the lowercased handles of the catalog are pairwise
    distinct. *)
Theorem hero_handle_match :
  forall (products : list Product) (card : Dict.t string) (seg : string)
         (p : Product) (base_url : string),
    In p products ->
    products_segment (Str.or_empty (Dict.get "href" card)) = Some seg ->
    Lookup.lowered_handle p = Str.lower seg ->
    exists p',
      hero_product_matches [card] products base_url = [p']
      /\ In p' products
      /\ Lookup.lowered_handle p' = Str.lower seg
      /\ (NoDup (map Lookup.lowered_handle products) -> p' = p).
Proof.
  intros products card seg p base_url Hin Hseg Hkey.
  assert (Hfind : exists p',
             Dict.get (Str.lower seg) (handles_to_product products) = Some p'
             /\ In p' products
             /\ Lookup.lowered_handle p' = Str.lower seg).
  { pose proof (BuildFacts.get_built Lookup.lowered_handle (fun q => q)
                  (Str.lower seg) products []) as H.
    unfold handles_to_product. unfold Lookup.lowered_handle in H at 1.
    rewrite H. clear H.
    destruct (find (fun a => String.eqb (Str.lower seg)
                               (Lookup.lowered_handle a)) (rev products))
      as [p'|] eqn:F.
    - apply find_some in F. destruct F as [F1 F2].
      exists p'. split; [reflexivity|]. split; [now apply in_rev|].
      symmetry. now apply String.eqb_eq.
    - exfalso. apply in_rev in Hin.
      pose proof (find_none _ _ F p Hin) as Hp. cbv beta in Hp.
      rewrite Hkey, String.eqb_refl in Hp. discriminate. }
  destruct Hfind as [p' [Hget [Hin' Hkey']]].
  exists p'. split; [|split; [assumption | split; [assumption|]]].
  - rewrite matches_keep_first. unfold matches, collect, card_match.
    rewrite Hseg. cbn [option_map].
    rewrite lower_nonempty, (products_segment_nonempty _ Hseg), Hget.
    cbn [app keep_first seen_mem existsb]. reflexivity.
  - intros Hn. apply (@handle_injective products Hn); try assumption.
    now rewrite Hkey, Hkey'.
Qed.

(** The theorem on the one-product catalog of Scenario B and a card
    with an upper-case segment and a query string. *)
Lemma hero_handle_match_witness :
  exists p',
    hero_product_matches
      [card "https://shop.example/products/WIDGET?variant=2" "Sale"]
      [Sample.widget] "https://shop.example" = [p']
    /\ In p' [Sample.widget]
    /\ Lookup.lowered_handle p' = Str.lower "WIDGET"
    /\ (NoDup (map Lookup.lowered_handle [Sample.widget]) -> p' = Sample.widget).
Proof.
  apply (@hero_handle_match [Sample.widget]
           (card "https://shop.example/products/WIDGET?variant=2" "Sale")
           "WIDGET" Sample.widget "https://shop.example").
  - now left.
  - reflexivity.
  - reflexivity.
Defined.

Lemma subseq_length (A : Type) (l1 l2 : list A) :
  subseq l1 l2 -> length l1 <= length l2.
Proof. induction 1; simpl; lia. Qed.

Lemma collect_length products lookup cards :
  forall heroes,
    length (collect products lookup cards heroes)
    <= length heroes + length cards.
Proof.
  induction cards as [|c r IH]; intros heroes; simpl; [lia|].
  destruct (card_match products lookup c).
  - specialize (IH (heroes ++ [p])). rewrite length_app in IH. simpl in IH. lia.
  - specialize (IH heroes). lia.
Qed.

(** X3. The Hero Matcher returns at most one product per card and at
    most as many products as the catalog holds. *)
Theorem hero_count_bounds :
  forall (product_cards : list (Dict.t string)) (products : list Product)
         (base_url : string),
    length (hero_product_matches product_cards products base_url)
    <= length product_cards
    /\ length (hero_product_matches product_cards products base_url)
       <= length products.
Proof.
  intros product_cards products base_url. rewrite matches_keep_first.
  split.
  - pose proof (subseq_length
                  (HeroFacts.keep_first_subseq
                     (matches product_cards products) [])) as H1.
    pose proof (collect_length products (handles_to_product products)
                  product_cards []) as H2.
    unfold matches in *. simpl in H2. lia.
  - rewrite <- (length_map identity_key),
      <- (length_map identity_key products).
    apply NoDup_incl_length; [apply HeroFacts.keep_first_NoDup|].
    apply incl_map. intros x Hx.
    apply (HeroFacts.matches_in product_cards products).
    exact (@HeroFacts.subseq_incl _ _ _
             (HeroFacts.keep_first_subseq (matches product_cards products) [])
             x Hx).
Qed.

End HeroMore.

(* ================================================================== *)
(** ** More on the Catalog Normalizer *)

Module CatalogMore.

Section WithNetwork.
Variable requests_get : string -> outcome.
Variable new_Product :
  json -> json -> json -> json -> list json -> option Product.

Lemma map_get_dicts k l :
  forallb Feed.is_dict l = true ->
  exists ys, map_result (fun img => Py.get img k) l = Ok ys.
Proof.
  induction l as [|x r IH]; simpl; [now eexists|].
  intros H. apply andb_true_iff in H. destruct H as [Hx Hr].
  destruct x; try discriminate. simpl.
  destruct (IH Hr) as [ys ->]. simpl. now eexists.
Qed.

Lemma image_sources_ok p :
  Feed.entry_ok p = true -> exists imgs, image_sources p = Ok imgs.
Proof.
  destruct p; try discriminate. unfold Feed.entry_ok, image_sources. simpl.
  destruct (Dict.get "images" d) as [v|]; simpl; [|now eexists].
  destruct (Py.truthy v); simpl; [|now eexists].
  destruct v; try discriminate. simpl. apply map_get_dicts.
Qed.

(** A readable entry gives a product or a validation error. *)
Lemma product_of_entry_ok p :
  Feed.entry_ok p = true ->
  (exists prod, product_of new_Product p = Ok prod)
  \/ product_of new_Product p = Raise ValueError.
Proof.
  intros H. destruct (image_sources_ok p H) as [imgs E].
  destruct p; try discriminate. unfold product_of. rewrite E. simpl.
  destruct (new_Product _ _ _ _ imgs); [left; now eexists | now right].
Qed.

Lemma products_loop_entries_ok raw :
  forallb Feed.entry_ok raw = true ->
  forall products,
    exists ps,
      (products_loop new_Product raw products = (ps, None)
       \/ products_loop new_Product raw products = (ps, Some ValueError))
      /\ length ps <= length products + length raw.
Proof.
  induction raw as [|p rest IH]; simpl; intros H products.
  - exists products. split; [now left | lia].
  - apply andb_true_iff in H. destruct H as [Hp Hrest].
    destruct (product_of_entry_ok p Hp) as [[prod ->]| ->].
    + destruct (IH Hrest (products ++ [prod])) as [ps [E L]].
      exists ps. split; [exact E|]. rewrite length_app in L. simpl in L. lia.
    + exists products. split; [now right | lia].
Qed.

(** The loop over a list whose first entries are accepted. *)
Lemma products_loop_accepted pre :
  forall ps rest products,
    Forall2 (fun p prod => product_of new_Product p = Ok prod) pre ps ->
    products_loop new_Product (pre ++ rest) products
    = products_loop new_Product rest (products ++ ps).
Proof.
  induction pre as [|p pre IH]; intros ps rest products F.
  - inversion F; subst. now rewrite app_nil_r.
  - inversion F as [|? prod ? ps' Hp F']; subst. simpl. rewrite Hp.
    rewrite (IH ps' rest (products ++ [prod]) F'), <- app_assoc.
    reflexivity.
Qed.

Lemma fetch_products_json_200 base_url log r :
  requests_get (Feed.url base_url) = Returned r ->
  status_code r = 200%Z ->
  fetch_products_json requests_get new_Product base_url log
  = match try_products new_Product r with
    | (products, None) => (Ok products, log ++ [Feed.url base_url])
    | (products, Some ValueError) => (Ok products, log ++ [Feed.url base_url])
    | (_, Some e) => (Raise e, log ++ [Feed.url base_url])
    end.
Proof.
  intros Hget Hstatus. unfold fetch_products_json, bind, safe_get.
  fold (Feed.url base_url). rewrite Hget, Hstatus. simpl.
  destruct (try_products new_Product r) as [ps [[]|]]; reflexivity.
Qed.

End WithNetwork.

(** X4. When the feed answers 200 with JSON whose product array is a
    list of entries that are objects, each with an [images] value that
    is missing, falsy or a list of objects, [fetch_products_json] does
    not raise: it returns a catalog of at most one product per entry,
    after one request. *)
Theorem readable_feed_never_raises :
  forall (requests_get : string -> outcome)
         (new_Product : json -> json -> json -> json -> list json ->
                        option Product)
         (base_url : string) (log : list string) (r : Response)
         (data : json) (items : list json),
    requests_get (Feed.url base_url) = Returned r ->
    status_code r = 200%Z ->
    json_body r = Some data ->
    raw_products data = Ok (JList items) ->
    forallb Feed.entry_ok items = true ->
    exists ps,
      fetch_products_json requests_get new_Product base_url log
      = (Ok ps, log ++ [Feed.url base_url])
      /\ length ps <= length items.
Proof.
  intros requests_get new_Product base_url log r data items
         Hget Hstatus Hbody Hraw Hok.
  rewrite (fetch_products_json_200 requests_get new_Product base_url log
             Hget Hstatus).
  unfold try_products, Response_json. rewrite Hbody. cbv beta iota.
  rewrite Hraw. cbn [Py.iter].
  destruct (products_loop_entries_ok new_Product items Hok [])
    as [ps [[-> | ->] L]]; exists ps; simpl in L; now split.
Qed.

(** The theorem on the feed of Scenario B. *)
Lemma readable_feed_witness :
  exists ps,
    fetch_products_json (fun _ => Sample.ok "" (Some Sample.widget_feed))
      Sample.typed_Product "https://shop.example/" []
    = (Ok ps, [] ++ [Feed.url "https://shop.example/"])
    /\ length ps <= 1.
Proof.
  exact (@readable_feed_never_raises
           (fun _ => Sample.ok "" (Some Sample.widget_feed))
           Sample.typed_Product "https://shop.example/" []
           (Sample.response 200 "" (Some Sample.widget_feed))
           Sample.widget_feed
           [JDict [("id", JInt 1); ("title", JStr "Widget");
                   ("handle", JStr "widget")]]
           eq_refl eq_refl eq_refl eq_refl eq_refl).
Defined.

(** X5. The catalog holds the products of the entries in feed order,
    up to the first entry the model rejects: when the entries [pre]
    are accepted as the products [ps] and they are all the entries, or
    the next entry fails validation, [fetch_products_json] returns
    [ps]; the entries after a rejected one are dropped without an
    error. *)
Theorem catalog_is_accepted_prefix :
  forall (requests_get : string -> outcome)
         (new_Product : json -> json -> json -> json -> list json ->
                        option Product)
         (base_url : string) (log : list string) (r : Response)
         (data : json) (pre rest : list json) (ps : list Product),
    requests_get (Feed.url base_url) = Returned r ->
    status_code r = 200%Z ->
    json_body r = Some data ->
    raw_products data = Ok (JList (pre ++ rest)) ->
    Forall2 (fun p prod => product_of new_Product p = Ok prod) pre ps ->
    rest = []
    \/ (exists bad post,
           rest = bad :: post
           /\ product_of new_Product bad = Raise ValueError) ->
    fetch_products_json requests_get new_Product base_url log
    = (Ok ps, log ++ [Feed.url base_url]).
Proof.
  intros requests_get new_Product base_url log r data pre rest ps
         Hget Hstatus Hbody Hraw Hpre Hrest.
  rewrite (fetch_products_json_200 requests_get new_Product base_url log
             Hget Hstatus).
  unfold try_products, Response_json. rewrite Hbody. cbv beta iota.
  rewrite Hraw. cbn [Py.iter].
  rewrite (products_loop_accepted new_Product rest [] Hpre).
  destruct Hrest as [-> | [bad [post [-> Hbad]]]]; simpl.
  - reflexivity.
  - now rewrite Hbad.
Qed.

(** The theorem on a feed whose second entry has a string for id,
    which the sample validator rejects: the third entry is lost. *)
Lemma catalog_is_accepted_prefix_witness :
  fetch_products_json
    (fun _ =>
       Sample.ok ""
         (Some (JDict [("products",
                        JList [JDict [("id", JInt 1); ("title", JStr "Widget");
                                      ("handle", JStr "widget")];
                               JDict [("id", JStr "two")];
                               JDict [("id", JInt 3)]])])))
    Sample.typed_Product "https://shop.example" []
  = (Ok [Sample.widget], [] ++ [Feed.url "https://shop.example"]).
Proof.
  apply (@catalog_is_accepted_prefix
           (fun _ =>
              Sample.ok ""
                (Some (JDict [("products",
                               JList [JDict [("id", JInt 1);
                                             ("title", JStr "Widget");
                                             ("handle", JStr "widget")];
                                      JDict [("id", JStr "two")];
                                      JDict [("id", JInt 3)]])])))
           Sample.typed_Product "https://shop.example" []
           (Sample.response 200 ""
              (Some (JDict [("products",
                             JList [JDict [("id", JInt 1);
                                           ("title", JStr "Widget");
                                           ("handle", JStr "widget")];
                                    JDict [("id", JStr "two")];
                                    JDict [("id", JInt 3)]])])))
           (JDict [("products",
                    JList [JDict [("id", JInt 1); ("title", JStr "Widget");
                                  ("handle", JStr "widget")];
                           JDict [("id", JStr "two")];
                           JDict [("id", JInt 3)]])])
           [JDict [("id", JInt 1); ("title", JStr "Widget");
                   ("handle", JStr "widget")]]
           [JDict [("id", JStr "two")]; JDict [("id", JInt 3)]]
           [Sample.widget]);
    try reflexivity.
  - repeat constructor.
  - right. exists (JDict [("id", JStr "two")]), [JDict [("id", JInt 3)]].
    split; reflexivity.
Defined.

(** X6. When the feed answers 200 with a body on which [.json()]
    raises a [ValueError] (a body that is not JSON), or with a JSON
    object whose [products] and [items] values are both missing or
    falsy (null, empty list, empty string, zero), the catalog is empty
    and nothing is raised. *)
Theorem feed_without_array_is_empty :
  forall (requests_get : string -> outcome)
         (new_Product : json -> json -> json -> json -> list json ->
                        option Product)
         (base_url : string) (log : list string) (r : Response),
    requests_get (Feed.url base_url) = Returned r ->
    status_code r = 200%Z ->
    Response_json r = Raise ValueError
    \/ (exists d a b,
           Response_json r = Ok (JDict d)
           /\ Py.get (JDict d) "products" = Ok a /\ Py.truthy a = false
           /\ Py.get (JDict d) "items" = Ok b /\ Py.truthy b = false) ->
    fetch_products_json requests_get new_Product base_url log
    = (Ok [], log ++ [Feed.url base_url]).
Proof.
  intros requests_get new_Product base_url log r Hget Hstatus Hbody.
  rewrite (fetch_products_json_200 requests_get new_Product base_url log
             Hget Hstatus).
  unfold try_products.
  destruct Hbody as [-> | [d [a [b [-> [Ha [Fa [Hb Fb]]]]]]]]; [reflexivity|].
  unfold raw_products. rewrite Ha. cbn [rbind]. rewrite Fa, Hb.
  cbn [rbind]. rewrite Fb. reflexivity.
Qed.

(** The theorem on the body [{"products": null, "items": []}]. *)
Lemma feed_without_array_witness :
  fetch_products_json
    (fun _ =>
       Sample.ok ""
         (Some (JDict [("products", JNull); ("items", JList [])])))
    Sample.typed_Product "https://shop.example" []
  = (Ok [], [] ++ [Feed.url "https://shop.example"]).
Proof.
  apply (@feed_without_array_is_empty
           (fun _ =>
              Sample.ok ""
                (Some (JDict [("products", JNull); ("items", JList [])])))
           Sample.typed_Product "https://shop.example" []
           (Sample.response 200 ""
              (Some (JDict [("products", JNull); ("items", JList [])]))));
    try reflexivity.
  right. exists [("products", JNull); ("items", JList [])], JNull, (JList []).
  repeat split; reflexivity.
Defined.

(** A body that is not JSON, evaluated, and a body nested too deeply
    for [.json()]: the [RecursionError] is no [ValueError], so it
    leaves [fetch_products_json]. *)
Example feed_undecoded :
  fetch_products_json (fun _ => Sample.ok "<html>" None)
    Sample.typed_Product "https://shop.example" []
  = (Ok [], [Feed.url "https://shop.example"])
  /\ fetch_products_json (fun _ => Returned (Sample.too_deep "[[[["))
       Sample.typed_Product "https://shop.example" []
     = (Raise (LibraryError "RecursionError"),
        [Feed.url "https://shop.example"]).
Proof. split; reflexivity. Qed.

End CatalogMore.

(* ================================================================== *)
(** ** More on the Policy Resolver *)

Module PolicyMore.
Import Policy.

(** X7. Whatever the link table, the network and [urljoin],
    [find_policy_links] makes at most eight requests, and requests
    nothing but the base URL, stripped of its trailing slashes,
    followed by one of the eight known policy paths.  It ends with a
    dictionary that has exactly the three policy keys, or with an
    exception a library raised: the [ValueError] of [urljoin] on an
    href that contains one of the policy paths, or what [requests.get]
    let through on a candidate.  It returns the dictionary when
    [urljoin] returns a non-empty URL on every such href and
    [requests.get] raises nothing but a [RequestException] on the
    candidates. *)
Theorem policy_probes_bounded :
  forall (requests_get : string -> outcome)
         (urljoin : string -> string -> option string)
         (base_url : string) (html_links : Dict.t string)
         (log : list string),
    let base := Str.rstrip_slash base_url in
    exists ending probes,
      find_policy_links requests_get urljoin base_url html_links log
      = (ending, log ++ probes)
      /\ length probes <= 8
      /\ (forall u, In u probes ->
                    exists pat,
                      In pat Paths.all /\ u = (base ++ pat)%string)
      /\ match ending with
         | Ok result => Dict.keys result = Paths.policy_keys
         | Raise e =>
             library_raised requests_get urljoin base html_links Paths.all e
         end
      /\ ((forall k v,
              In (k, v) html_links -> hits Paths.all v = true ->
              exists u, urljoin base v = Some u /\ Str.nonempty u = true) ->
          answered requests_get
            (map (fun pat => (base ++ pat)%string) Paths.all) ->
          exists result, ending = Ok result).
Proof.
  intros requests_get urljoin base_url html_links log base.
  destruct (PolicyFacts.find_policy_links_shape requests_get urljoin
              base_url html_links log)
    as [ending [probes [E [L [S K]]]]].
  exists ending, probes. split; [exact E|]. split; [exact L|].
  split; [exact S|]. split; [exact K|].
  intros Hj Ha.
  destruct (@PolicyFacts.find_policy_links_resolved requests_get urljoin
              base_url html_links log Hj Ha)
    as [v1 [v2 [v3 [p1 [p2 [p3 [E' _]]]]]]].
  rewrite E' in E. injection E as <- _. now eexists.
Qed.

Lemma rstrip_by_last f s c :
  f c = true ->
  Str.rstrip_by f (s ++ String c EmptyString) = Str.rstrip_by f s.
Proof.
  intros Hc. induction s as [|a r IH]; simpl.
  - now rewrite Hc.
  - now rewrite IH.
Qed.

(** X8. A trailing slash on the base URL changes nothing for the two
    functions that strip it: the feed and the policy pages are looked
    for at the same URLs, with the same result. *)
Theorem trailing_slash_ignored :
  forall (requests_get : string -> outcome)
         (urljoin : string -> string -> option string)
         (new_Product : json -> json -> json -> json -> list json ->
                        option Product)
         (base_url : string) (html_links : Dict.t string)
         (log : list string),
    fetch_products_json requests_get new_Product (base_url ++ "/") log
    = fetch_products_json requests_get new_Product base_url log
    /\ find_policy_links requests_get urljoin (base_url ++ "/") html_links log
       = find_policy_links requests_get urljoin base_url html_links log.
Proof.
  intros. unfold fetch_products_json, find_policy_links, Str.rstrip_slash.
  now rewrite (rstrip_by_last (fun c => Ascii.eqb c "/") base_url "/" eq_refl).
Qed.

End PolicyMore.

(* ================================================================== *)
(** ** The link table and the important links *)

Module LinksMore.

(** X9. The link table has one entry per distinct anchor text, and the
    entry of a text is the href of the last anchor, in document order,
    that carries an href and has that text. *)
Theorem link_table_last_anchor :
  forall (BeautifulSoup : string -> Soup.node)
         (list_of_set : list string -> list string)
         (html text : string),
    let links :=
      parsed_links (extract_links_and_text BeautifulSoup list_of_set html) in
    let anchors := Soup.find_all anchor (BeautifulSoup html) in
    NoDup (Dict.keys links)
    /\ Dict.get text links
       = option_map (attr "href")
           (find (fun a => String.eqb text (Soup.get_text a)) (rev anchors)).
Proof.
  intros BeautifulSoup list_of_set html text links anchors.
  unfold links, extract_links_and_text. cbn [parsed_links].
  unfold page_links. fold anchors. split.
  - apply BuildFacts.keys_built_NoDup. constructor.
  - rewrite (BuildFacts.get_built Soup.get_text (attr "href") text anchors []).
    now destruct (find _ (rev anchors)).
Qed.

(** X10. The loop of [fetch_insights] that fills the dictionary of
    important links joins the href of every link that has a non-empty
    href and passes one of its three tests: [track] in the lowercased
    text or href, [contact] in either, [blog] in the text or [/blogs]
    in the href.  When [urljoin] raises on none of these links the
    loop completes, and its dictionary has its keys among
    [order_tracking], [contact] and [blog], each at most once; the
    entry of each key is the join of the website URL and the href of
    the last link of the table, with a non-empty href, that passes the
    key's test, and the key is absent when no link passes.  When
    [urljoin] raises on one of these links the loop raises its
    [ValueError] and builds no dictionary. *)
Theorem important_links_last_link :
  forall (urljoin : string -> string -> option string)
         (website_url : string) (html_links : Dict.t string),
    ((forall kv,
         In kv html_links -> Important.passes kv = true ->
         urljoin website_url (snd kv) <> None) ->
     exists important,
       important_loop urljoin website_url html_links = Ok important
       /\ incl (Dict.keys important) Important.keys
       /\ NoDup (Dict.keys important)
       /\ Dict.get "order_tracking" important
          = Important.joined_link urljoin website_url
              (Important.last_link Important.tracks html_links)
       /\ Dict.get "contact" important
          = Important.joined_link urljoin website_url
              (Important.last_link Important.contacts html_links)
       /\ Dict.get "blog" important
          = Important.joined_link urljoin website_url
              (Important.last_link Important.blogs html_links))
    /\ ((exists kv,
            In kv html_links /\ Important.passes kv = true
            /\ urljoin website_url (snd kv) = None) ->
        important_loop urljoin website_url html_links = Raise ValueError).
Proof.
  intros urljoin website_url html_links. unfold important_loop. split.
  - intros H.
    destruct (@ImportantFacts.important_fold_completes urljoin website_url
                html_links H []) as [important E].
    exists important. split; [exact E|].
    destruct (@ImportantFacts.important_fold_keys urljoin website_url
                html_links [] important E) as [Hi Hn];
      [intros x [] | constructor |].
    split; [exact Hi|]. split; [exact Hn|].
    unfold Important.joined_link, Important.last_link.
    split; [|split].
    + rewrite (ImportantFacts.get_fold_result_last _ _ _
                 (fun kv => urljoin website_url (snd kv))
                 (@ImportantFacts.important_step_get urljoin website_url
                    "order_tracking" Important.tracks
                    ImportantFacts.get_written_tracking
                    (fun kv T => f_equal (fun b => b || Important.contacts kv
                                                   || Important.blogs kv) T))
                 _ _ E).
      now destruct (find _ (rev html_links)).
    + assert (T : forall kv, Important.contacts kv = true ->
                             Important.tracks kv || Important.contacts kv
                             || Important.blogs kv = true).
      { intros kv ->. now destruct (Important.tracks kv). }
      rewrite (ImportantFacts.get_fold_result_last _ _ _
                 (fun kv => urljoin website_url (snd kv))
                 (@ImportantFacts.important_step_get urljoin website_url
                    "contact" Important.contacts
                    ImportantFacts.get_written_contact T)
                 _ _ E).
      now destruct (find _ (rev html_links)).
    + assert (T : forall kv, Important.blogs kv = true ->
                             Important.tracks kv || Important.contacts kv
                             || Important.blogs kv = true).
      { intros kv ->. apply orb_true_r. }
      rewrite (ImportantFacts.get_fold_result_last _ _ _
                 (fun kv => urljoin website_url (snd kv))
                 (@ImportantFacts.important_step_get urljoin website_url
                    "blog" Important.blogs
                    ImportantFacts.get_written_blog T)
                 _ _ E).
      now destruct (find _ (rev html_links)).
  - intros H.
    exact (@ImportantFacts.important_fold_stops urljoin website_url
             html_links H []).
Qed.

(** The loop on two links, evaluated: with a join that appends, the
    contact page is found; with one that refuses the second href, the
    loop raises. *)
Example important_links_sample :
  important_loop Sample.concat_join "https://shop.example"
    [("Contact us", "/pages/contact"); ("IPv6", "//[v6/contact")]
  = Ok [("contact", "https://shop.example//[v6/contact")]
  /\ important_loop Sample.strict_join "https://shop.example"
       [("Contact us", "/pages/contact"); ("IPv6", "//[v6/contact")]
     = Raise ValueError.
Proof. split; reflexivity. Qed.

End LinksMore.

(* ================================================================== *)
(** ** More on the Context Assembler *)

Module AssemblerMore.

Lemma startswith_split p :
  forall s, Str.startswith p s = true -> exists rest, s = (p ++ rest)%string.
Proof.
  induction p as [|a p IH]; intros s H; simpl in *.
  - now exists s.
  - destruct s as [|b s]; [discriminate|].
    apply andb_true_iff in H. destruct H as [Hab Hp].
    apply Ascii.eqb_eq in Hab. subst b.
    destruct (IH s Hp) as [rest ->]. now exists rest.
Qed.

Lemma replaced_scheme_is_http url :
  Str.startswith "https://" url = true ->
  Str.startswith "http" (Str.replace "https://" "https://www." url) = true.
Proof.
  intros H. destruct (startswith_split _ _ H) as [rest ->]. reflexivity.
Qed.

Lemma normalized_is_http requested :
  Str.startswith "http"
    (if Str.startswith "http" requested then requested
     else ("https://" ++ requested)%string) = true.
Proof. destruct (Str.startswith "http" requested) eqn:E; [exact E | reflexivity]. Qed.

Lemma hero_incl product_cards products base_url :
  incl (Hero.hero_product_matches product_cards products base_url) products.
Proof.
  rewrite HeroMore.matches_keep_first. intros x Hx.
  apply (HeroFacts.matches_in product_cards products).
  exact (@HeroFacts.subseq_incl _ _ _
           (HeroFacts.keep_first_subseq
              (Hero.matches product_cards products) []) x Hx).
Qed.

Lemma hero_length product_cards products base_url :
  length (Hero.hero_product_matches product_cards products base_url)
  <= length products.
Proof.
  rewrite HeroMore.matches_keep_first.
  rewrite <- (length_map Hero.identity_key),
    <- (length_map Hero.identity_key products).
  apply NoDup_incl_length; [apply HeroFacts.keep_first_NoDup|].
  apply incl_map. intros x Hx.
  apply (HeroFacts.matches_in product_cards products).
  exact (@HeroFacts.subseq_incl _ _ _
           (HeroFacts.keep_first_subseq
              (Hero.matches product_cards products) []) x Hx).
Qed.

Section WithEnvironment.
Variable requests_get : string -> outcome.
Variable urljoin : string -> string -> option string.
Variable new_Product :
  json -> json -> json -> json -> list json -> option Product.
Variable BeautifulSoup : string -> Soup.node.
Variable list_of_set : list string -> list string.
Variable HttpUrl : string -> option string.

Lemma fetch_products_json_log base_url log :
  snd (fetch_products_json requests_get new_Product base_url log)
  = log ++ [Feed.url base_url].
Proof.
  unfold fetch_products_json, bind. fold (Feed.url base_url).
  destruct (FetchFacts.safe_get_cases requests_get (Feed.url base_url) log)
    as [[o ->] | [name [_ ->]]]; [|reflexivity].
  destruct o as [r|]; [|reflexivity].
  destruct (try_products new_Product r) as [ps [[]|]]; reflexivity.
Qed.

Lemma build_context_shape website html log :
  Str.startswith "http" website = true ->
  exists reqs,
    snd (build_context requests_get urljoin new_Product BeautifulSoup
           list_of_set HttpUrl website html log) = log ++ reqs
    /\ length reqs <= 9
    /\ (forall e,
           fst (build_context requests_get urljoin new_Product BeautifulSoup
                  list_of_set HttpUrl website html log) = Raise e ->
           e = AttributeError \/ e = TypeError \/ e = ValueError
           \/ exists name, e = LibraryError name)
    /\ (Pydantic.keeps_scheme HttpUrl ->
        forall ctx,
          fst (build_context requests_get urljoin new_Product BeautifulSoup
                 list_of_set HttpUrl website html log) = Ok ctx ->
          Aggregate.well_formed ctx).
Proof.
  intros Hhttp.
  pose proof (@AssemblerFacts.build_context_raises requests_get urljoin
                new_Product BeautifulSoup list_of_set HttpUrl website html
                log) as Hraise.
  unfold build_context, bind in *.
  pose proof (fetch_products_json_log website log) as Hlog.
  destruct (fetch_products_json requests_get new_Product website log)
    as [[ps|e] log1]; simpl in Hlog; subst log1.
  - destruct (PolicyFacts.find_policy_links_shape requests_get urljoin website
                (parsed_links
                   (extract_links_and_text BeautifulSoup list_of_set html))
                (log ++ [Feed.url website]))
      as [ending [probes [E [L [_ K]]]]].
    rewrite E in *. exists (Feed.url website :: probes).
    destruct ending as [pol|e].
    + unfold lift in *.
      destruct (important_loop urljoin website _) as [imp|e] eqn:I.
      * destruct (HttpUrl website) as [u|] eqn:V;
          cbn [fst snd ret raise] in *; rewrite <- app_assoc;
          (split; [reflexivity|]); (split; [simpl; lia|]);
          (split; [exact Hraise|]); [|discriminate].
        intros Hkeep ctx [= <-]. unfold Aggregate.well_formed.
        cbn [website_url products hero_products metadata policies
             social_handles important_links contact addresses].
        split; [exact (Hkeep website u V Hhttp)|].
        split; [apply hero_incl|].
        split; [apply hero_length|]. split; [reflexivity|].
        split; [exact K|]. split.
        -- cbn [extract_links_and_text parsed_social]. unfold page_social.
           apply SocialFacts.keys_fold_social; [intros x [] | constructor].
        -- split; [|reflexivity].
           unfold important_loop in I.
           destruct (@ImportantFacts.important_fold_keys urljoin website
                       _ [] imp I) as [Hi _];
             [intros x [] | constructor | exact Hi].
      * cbn [fst snd] in *. rewrite <- app_assoc.
        split; [reflexivity|]. split; [simpl; lia|].
        split; [exact Hraise | discriminate].
    + cbn [fst snd] in *. rewrite <- app_assoc.
      split; [reflexivity|]. split; [simpl; lia|].
      split; [exact Hraise | discriminate].
  - exists [Feed.url website]. cbn [fst snd] in *.
    split; [reflexivity|]. split; [simpl; lia|].
    split; [exact Hraise | discriminate].
Qed.

(** The requests and the ending of [fetch_insights]. *)
Lemma fetch_insights_shape payload log :
  exists reqs,
    snd (fetch_insights requests_get urljoin new_Product BeautifulSoup
           list_of_set HttpUrl payload log) = log ++ reqs
    /\ length reqs <= 11
    /\ (Str.truthy (Dict.get "website_url" payload) = false -> reqs = [])
    /\ (forall code detail,
           fst (fetch_insights requests_get urljoin new_Product BeautifulSoup
                  list_of_set HttpUrl payload log)
           = Raise (HTTPException code detail) ->
           length reqs <= 2)
    /\ (Pydantic.keeps_scheme HttpUrl ->
        forall ctx,
          fst (fetch_insights requests_get urljoin new_Product BeautifulSoup
                 list_of_set HttpUrl payload log) = Ok ctx ->
          Aggregate.well_formed ctx).
Proof.
  unfold fetch_insights.
  destruct (Str.truthy (Dict.get "website_url" payload)).
  2:{ exists []. rewrite app_nil_r. cbn.
      repeat split; try reflexivity; try lia; discriminate. }
  pose proof (normalized_is_http
                (Str.or_empty (Dict.get "website_url" payload))) as Hhttp.
  set (url := if Str.startswith "http" _ then _ else _) in *.
  assert (NoHTTP : forall e code detail,
             e = AttributeError \/ e = TypeError \/ e = ValueError
             \/ (exists name, e = LibraryError name) ->
             e <> HTTPException code detail).
  { intros e code detail [-> | [-> | [-> | [name ->] ] ] ]; discriminate. }
  unfold bind.
  destruct (FetchFacts.safe_get_cases requests_get url log)
    as [[o ->] | [name [_ ->]]].
  2:{ exists [url]. cbn [fst snd].
      split; [reflexivity|]. split; [simpl; lia|]. split; [discriminate|].
      split; [intros; simpl; lia | discriminate]. }
  destruct o as [r|].
  - unfold ret.
    destruct (build_context_shape url (text r) (log ++ [url]) Hhttp)
      as [reqs [Hs [Hl [He Hc]]]].
    exists (url :: reqs). rewrite Hs, <- app_assoc.
    split; [reflexivity|]. split; [simpl; lia|]. split; [discriminate|].
    split; [|exact Hc].
    intros code detail H. now destruct (NoHTTP _ code detail (He _ H)).
  - unfold retry_www.
    destruct (Str.startswith "https://" url && negb (Str.contains "www." url))
      eqn:G.
    + apply andb_true_iff in G. destruct G as [G _].
      unfold bind.
      destruct (FetchFacts.safe_get_cases requests_get
                  (Str.replace "https://" "https://www." url)
                  (log ++ [url])) as [[o ->] | [name [_ ->]]].
      2:{ exists [url; Str.replace "https://" "https://www." url].
          cbn [fst snd]. rewrite <- app_assoc.
          split; [reflexivity|]. split; [simpl; lia|].
          split; [discriminate|].
          split; [intros; simpl; lia | discriminate]. }
      destruct o as [r|].
      * unfold ret.
        destruct (build_context_shape
                    (Str.replace "https://" "https://www." url) (text r)
                    ((log ++ [url])
                     ++ [Str.replace "https://" "https://www." url])
                    (replaced_scheme_is_http url G))
          as [reqs [Hs [Hl [He Hc]]]].
        exists (url :: Str.replace "https://" "https://www." url :: reqs).
        cbv beta iota.
        split; [rewrite Hs; now rewrite <- !app_assoc|].
        split; [simpl; lia|]. split; [discriminate|].
        split; [|exact Hc].
        intros code detail H. now destruct (NoHTTP _ code detail (He _ H)).
      * exists [url; Str.replace "https://" "https://www." url].
        unfold ret, raise. cbn [fst snd]. rewrite <- app_assoc.
        split; [reflexivity|]. split; [simpl; lia|]. split; [discriminate|].
        split; [intros; simpl; lia | discriminate].
    + exists [url]. unfold ret, raise. cbn [fst snd].
      split; [reflexivity|]. split; [simpl; lia|]. split; [discriminate|].
      split; [intros; simpl; lia | discriminate].
Qed.

End WithEnvironment.

(** X11. One call of [fetch_insights] makes at most eleven requests
    (the page, the www retry, the feed, eight policy probes); it makes
    none when [website_url] is missing or empty, and at most two when
    it ends with one of its [HTTPException]s, so that neither the feed
    nor a policy page is requested for a shop that cannot be
    reached. *)
Theorem fetch_insights_request_bound :
  forall (requests_get : string -> outcome)
         (urljoin : string -> string -> option string)
         (new_Product : json -> json -> json -> json -> list json ->
                        option Product)
         (BeautifulSoup : string -> Soup.node)
         (list_of_set : list string -> list string)
         (HttpUrl : string -> option string)
         (payload : Dict.t string) (log : list string),
    exists reqs,
      snd (fetch_insights requests_get urljoin new_Product BeautifulSoup
             list_of_set HttpUrl payload log) = log ++ reqs
      /\ length reqs <= 11
      /\ (Str.truthy (Dict.get "website_url" payload) = false -> reqs = [])
      /\ (forall code detail,
             fst (fetch_insights requests_get urljoin new_Product
                    BeautifulSoup list_of_set HttpUrl payload log)
             = Raise (HTTPException code detail) ->
             length reqs <= 2).
Proof.
  intros requests_get urljoin new_Product BeautifulSoup list_of_set HttpUrl
         payload log.
  destruct (fetch_insights_shape requests_get urljoin new_Product
              BeautifulSoup list_of_set HttpUrl payload log)
    as [reqs [H1 [H2 [H3 [H4 _]]]]].
  exists reqs. now repeat split.
Qed.

(** X12. Every aggregate [fetch_insights] returns has a [website_url]
    that starts with [http], hero products that are all catalog
    products and no more numerous than the catalog, the two counts of
    [metadata] equal to the lengths of the two product lists, exactly
    the three policy keys, social keys among the five platforms,
    important-link keys among the three categories, and no
    address.  The URL of the aggregate is the one [HttpUrl] validated,
    which keeps the scheme of the URL it is given. *)
Theorem aggregate_well_formed :
  forall (requests_get : string -> outcome)
         (urljoin : string -> string -> option string)
         (new_Product : json -> json -> json -> json -> list json ->
                        option Product)
         (BeautifulSoup : string -> Soup.node)
         (list_of_set : list string -> list string)
         (HttpUrl : Pydantic.HttpUrl_type)
         (payload : Dict.t string) (log : list string)
         (ctx : BrandContext),
    fst (fetch_insights requests_get urljoin new_Product BeautifulSoup
           list_of_set (Pydantic.validate HttpUrl) payload log) = Ok ctx ->
    Aggregate.well_formed ctx.
Proof.
  intros requests_get urljoin new_Product BeautifulSoup list_of_set HttpUrl
         payload log ctx H.
  destruct (fetch_insights_shape requests_get urljoin new_Product
              BeautifulSoup list_of_set (Pydantic.validate HttpUrl)
              payload log)
    as [reqs [_ [_ [_ [_ Hc]]]]].
  exact (Hc (Pydantic.validate_keeps_scheme HttpUrl) ctx H).
Qed.

(** The theorem on Scenario A. *)
Lemma aggregate_well_formed_witness : Aggregate.well_formed Sample.acme_context.
Proof.
  apply (@aggregate_well_formed
           (Sample.shop "https://acme.example" Sample.acme_html "" None)
           Sample.concat_join Sample.typed_Product
           (fun _ => Sample.acme_page) Sample.first_seen Pydantic.kept
           [("website_url", "https://acme.example")] []
           Sample.acme_context).
  reflexivity.
Defined.

End AssemblerMore.

(* ================================================================== *)
(** ** More on the FAQ Extractor *)

Module FaqMore.
Import Faq.

Lemma details_loop_keyed ds :
  forall faqs, Forall FaqRead.keyed faqs -> Forall FaqRead.keyed (details_loop ds faqs).
Proof.
  induction ds as [|d r IH]; intros faqs H; simpl; [assumption|].
  destruct (Soup.find (Soup.named "summary") d); [|now apply IH].
  apply IH. apply Forall_app. split; [assumption|].
  constructor; [reflexivity | constructor].
Qed.

Lemma fallback_loop_keyed lis :
  forall faqs, Forall FaqRead.keyed faqs -> Forall FaqRead.keyed (fallback_loop lis faqs).
Proof.
  induction lis as [|li r IH]; intros faqs H; simpl; [assumption|].
  destruct (Soup.find (Soup.class_search question_re) li);
    [|now apply IH].
  destruct (Soup.find (Soup.class_search answer_re) li); [|now apply IH].
  apply IH. apply Forall_app. split; [assumption|].
  constructor; [reflexivity | constructor].
Qed.

(** The first loop appends one entry per [details] with a [summary],
    whose question is the text of the summary. *)
Lemma details_loop_questions ds :
  forall faqs,
    map (Dict.get "q") (details_loop ds faqs)
    = map (Dict.get "q") faqs
      ++ map FaqRead.summary_text (filter FaqRead.with_summary ds).
Proof.
  induction ds as [|d r IH]; intros faqs.
  - simpl. now rewrite app_nil_r.
  - cbn [details_loop filter]. unfold FaqRead.with_summary at 1.
    destruct (Soup.find (Soup.named "summary") d) as [s|] eqn:F;
      [|apply IH].
    assert (Hs : FaqRead.summary_text d = Some (Soup.get_text s))
      by (unfold FaqRead.summary_text; now rewrite F).
    rewrite IH, map_app, <- app_assoc. cbn [map]. rewrite Hs. reflexivity.
Qed.

Lemma details_loop_none ds :
  filter FaqRead.with_summary ds = [] ->
  forall faqs, details_loop ds faqs = faqs.
Proof.
  induction ds as [|d r IH]; intros H faqs; simpl; [reflexivity|].
  simpl in H. unfold FaqRead.with_summary in H at 1.
  destruct (Soup.find (Soup.named "summary") d); [discriminate|].
  now apply IH.
Qed.

(** X13. Every entry [try_fetch_faqs] returns has exactly the keys [q]
    and [a].  When some [details] element of the page has a [summary],
    there is one entry per such element, in document order, its
    question being the text of the summary, and the class-based
    containers are not looked at; when none has, the result is what
    the class-based fallback finds. *)
Theorem faq_entries_shape :
  forall soup : Soup.node,
    let ds :=
      filter FaqRead.with_summary
        (Soup.find_all (Soup.named "details") soup) in
    Forall (fun e => Dict.keys e = ["q"; "a"]) (try_fetch_faqs soup)
    /\ match ds with
       | [] =>
           try_fetch_faqs soup
           = fallback_loop (Soup.select containers soup) []
       | _ =>
           map (Dict.get "q") (try_fetch_faqs soup)
           = map FaqRead.summary_text ds
       end.
Proof.
  intros soup ds. split.
  - unfold try_fetch_faqs.
    pose proof (details_loop_keyed
                  (Soup.find_all (Soup.named "details") soup) (Forall_nil _))
      as H.
    destruct (details_loop _ []) eqn:E; [|exact H].
    apply fallback_loop_keyed. constructor.
  - pose proof (details_loop_questions
                  (Soup.find_all (Soup.named "details") soup) []) as Q.
    simpl in Q. fold ds in Q. unfold try_fetch_faqs.
    destruct ds as [|d0 ds0] eqn:E.
    + now rewrite (details_loop_none _ E).
    + destruct (details_loop _ []) eqn:D; [discriminate Q | exact Q].
Qed.

End FaqMore.

(* ================================================================== *)
(** ** The e-mail addresses and phone numbers found *)

Module ScanMore.

Lemma sapp_assoc (a b c : string) :
  ((a ++ b) ++ c)%string = (a ++ (b ++ c))%string.
Proof. induction a as [|x a IH]; simpl; [reflexivity | now rewrite IH]. Qed.

Lemma startswith_app m post : Str.startswith m (m ++ post) = true.
Proof.
  induction m as [|x m IH]; simpl; [reflexivity|].
  now rewrite Ascii.eqb_refl, IH.
Qed.

(** A string occurs in whatever is written around it. *)
Lemma contains_mid m pre post : Str.contains m (pre ++ m ++ post) = true.
Proof.
  assert (U : forall sub s,
             Str.startswith sub s = true -> Str.contains sub s = true).
  { intros sub s H. destruct s; simpl; now rewrite H. }
  induction pre as [|x pre IH]; simpl.
  - apply U, startswith_app.
  - rewrite IH. apply orb_true_r.
Qed.

Lemma take_drop f s :
  s = (Str.take_while f s
       ++ Str.drop (String.length (Str.take_while f s)) s)%string.
Proof.
  induction s as [|c r IH]; simpl; [reflexivity|].
  destruct (f c); simpl; [now rewrite <- IH | reflexivity].
Qed.

Lemma rstrip_prefix f t :
  exists tail, t = (Str.rstrip_by f t ++ tail)%string.
Proof.
  induction t as [|c r [tail IH]]; simpl; [now exists EmptyString|].
  destruct (Str.rstrip_by f r) as [|x r'] eqn:E.
  - simpl in IH. destruct (f c).
    + now exists (String c r).
    + exists r. reflexivity.
  - exists tail. simpl. f_equal. exact IH.
Qed.

(** What a scan returns occurs in the text scanned, at a place where
    the pattern matches. *)
Lemma findall_occurs (at_start : string -> option string) :
  (forall s m, at_start s = Some m -> exists rest, s = (m ++ rest)%string) ->
  forall s skip m,
    In m (Re.findall at_start skip s) ->
    exists pre post suffix,
      s = (pre ++ m ++ post)%string /\ at_start suffix = Some m.
Proof.
  intros Hat. induction s as [|c r IH]; intros skip m Hin; [destruct Hin|].
  assert (Hr : forall k,
             In m (Re.findall at_start k r) ->
             exists pre post suffix,
               String c r = (pre ++ m ++ post)%string
               /\ at_start suffix = Some m).
  { intros k Hk. destruct (IH k m Hk) as [pre [post [suf [E A]]]].
    exists (String c pre), post, suf. split; [simpl; now rewrite <- E | exact A]. }
  cbn [Re.findall] in Hin. destruct skip as [|k]; [|now apply (Hr k)].
  destruct (at_start (String c r)) as [m0|] eqn:A; [|now apply (Hr 0)].
  destruct Hin as [<-|Hin]; [|now apply (Hr (String.length m0 - 1))].
  destruct (Hat _ _ A) as [rest E].
  exists EmptyString, rest, (String c r). split; [exact E | exact A].
Qed.

Lemma email_at_occurs s m :
  Re.email_at s = Some m ->
  exists rest, s = (m ++ rest)%string /\ Str.contains "@" m = true.
Proof.
  unfold Re.email_at. cbv zeta.
  pose proof (take_drop Re.email_local s) as Ea.
  destruct (Str.take_while Re.email_local s) as [|a0 a'] eqn:A;
    [discriminate|].
  destruct (Str.drop (String.length (String a0 a')) s) as [|c1 r1] eqn:D1;
    [discriminate|].
  destruct c1 as [[] [] [] [] [] [] [] []]; try discriminate.
  pose proof (take_drop Re.email_domain r1) as Eb.
  destruct (Str.take_while Re.email_domain r1) as [|b0 b'] eqn:B;
    [discriminate|].
  destruct (Str.drop (String.length (String b0 b')) r1) as [|c2 r2] eqn:D2;
    [discriminate|].
  destruct c2 as [[] [] [] [] [] [] [] []]; try discriminate.
  pose proof (take_drop Re.email_tail r2) as Ec.
  destruct (Str.take_while Re.email_tail r2) as [|t0 t'] eqn:C;
    [discriminate|].
  intros [= <-].
  exists (Str.drop (String.length (String t0 t')) r2). split.
  - rewrite Ea at 1. rewrite Eb at 1. rewrite Ec at 1.
    simpl. f_equal. rewrite sapp_assoc. simpl. do 3 f_equal.
    rewrite sapp_assoc. reflexivity.
  - apply (contains_mid "@" (String a0 a')).
Qed.

Lemma phone_body_occurs s m :
  Re.phone_body s = Some m ->
  exists rest, s = (m ++ rest)%string /\ 8 <= String.length m.
Proof.
  unfold Re.phone_body. destruct s as [|d r]; [discriminate|].
  destruct (Str.is_digit d); [|discriminate]. cbv zeta.
  destruct (7 <=? String.length _)%nat eqn:L; [|discriminate].
  intros [= <-]. apply Nat.leb_le in L.
  destruct (rstrip_prefix (fun c => negb (Str.is_digit c))
              (Str.take_while Re.phone_mid r)) as [tail Et].
  exists (tail ++ Str.drop (String.length (Str.take_while Re.phone_mid r)) r)%string.
  split; [|simpl; lia].
  simpl. f_equal. rewrite <- sapp_assoc, <- Et. apply take_drop.
Qed.

Lemma phone_at_occurs s m :
  Re.phone_at s = Some m ->
  exists rest, s = (m ++ rest)%string /\ 8 <= String.length m.
Proof.
  unfold Re.phone_at. destruct s as [|c r]; [apply phone_body_occurs|].
  destruct c as [[] [] [] [] [] [] [] []]; try apply phone_body_occurs.
  destruct (Re.phone_body r) as [m0|] eqn:E; [|discriminate].
  intros [= <-]. destruct (phone_body_occurs _ E) as [rest [-> L]].
  exists rest. split; [reflexivity | simpl; lia].
Qed.

(** X14. When [list(set(..))] returns the distinct elements of its
    argument, the e-mail and phone lists of the Page Analyzer hold no
    string twice; every e-mail listed occurs verbatim in the raw
    markup and contains an [@]; every phone number listed occurs
    verbatim in the raw markup and has at least eight characters. *)
Theorem contact_strings_occur :
  forall (BeautifulSoup : string -> Soup.node)
         (list_of_set : list string -> list string) (html : string),
    Runs.set_order list_of_set ->
    let parsed := extract_links_and_text BeautifulSoup list_of_set html in
    NoDup (parsed_emails parsed)
    /\ NoDup (parsed_phones parsed)
    /\ (forall e, In e (parsed_emails parsed) ->
                  Str.contains e html = true /\ Str.contains "@" e = true)
    /\ (forall p, In p (parsed_phones parsed) ->
                  Str.contains p html = true /\ 8 <= String.length p).
Proof.
  intros BeautifulSoup list_of_set html Hset parsed.
  unfold parsed, extract_links_and_text. cbn [parsed_emails parsed_phones].
  destruct (Hset (Re.findall_emails html)) as [Ne Me].
  destruct (Hset (Re.findall_phones html)) as [Np Mp].
  split; [exact Ne|]. split; [exact Np|]. split.
  - intros e He. apply Me in He. unfold Re.findall_emails in He.
    destruct (findall_occurs Re.email_at
                (fun s m H => match email_at_occurs s H with
                              | ex_intro _ rest (conj E _) =>
                                  ex_intro _ rest E
                              end) html 0 e He)
      as [pre [post [suffix [E A]]]].
    destruct (email_at_occurs _ A) as [_ [_ Hat]].
    split; [|exact Hat]. rewrite E. apply contains_mid.
  - intros p Hp. apply Mp in Hp. unfold Re.findall_phones in Hp.
    destruct (findall_occurs Re.phone_at
                (fun s m H => match phone_at_occurs s H with
                              | ex_intro _ rest (conj E _) =>
                                  ex_intro _ rest E
                              end) html 0 p Hp)
      as [pre [post [suffix [E A]]]].
    destruct (phone_at_occurs _ A) as [_ [_ L]].
    split; [|exact L]. rewrite E. apply contains_mid.
Qed.

(** The theorem on the page with two e-mail addresses. *)
Lemma contact_strings_occur_witness :
  let parsed :=
    extract_links_and_text (fun _ => Sample.two_emails_page)
      Sample.first_seen Sample.two_emails_html in
  NoDup (parsed_emails parsed)
  /\ NoDup (parsed_phones parsed)
  /\ (forall e, In e (parsed_emails parsed) ->
                Str.contains e Sample.two_emails_html = true
                /\ Str.contains "@" e = true)
  /\ (forall p, In p (parsed_phones parsed) ->
                Str.contains p Sample.two_emails_html = true
                /\ 8 <= String.length p).
Proof.
  exact (@contact_strings_occur (fun _ => Sample.two_emails_page)
           Sample.first_seen Sample.two_emails_html
           RunsFacts.first_seen_set_order).
Defined.

End ScanMore.

(* ================================================================== *)
(** ** What a card can match *)

Module MatchMore.
Import Hero.

Lemma lookup_named products k p :
  Str.nonempty k = true ->
  Dict.get k (handles_to_product products) = Some p ->
  Lookup.named_product p = true.
Proof.
  intros Hk Hget.
  pose proof (BuildFacts.get_built Lookup.lowered_handle (fun q => q) k
                products []) as H.
  unfold handles_to_product in Hget. unfold Lookup.lowered_handle in H at 1.
  rewrite H in Hget. clear H.
  destruct (find _ (rev products)) as [q|] eqn:F; [|discriminate].
  injection Hget as ->. apply find_some in F. destruct F as [_ F].
  apply String.eqb_eq in F. unfold Lookup.named_product, Lookup.lowered_handle in *.
  destruct (handle p) as [[|c h]|]; simpl in *; subst; try discriminate.
  reflexivity.
Qed.

Lemma card_match_named products card p :
  card_match products (handles_to_product products) card = Some p ->
  Lookup.named_product p = true.
Proof.
  unfold card_match.
  assert (T : forall text q,
             find (title_in text) products = Some q -> Lookup.named_product q = true).
  { intros text q F. apply find_some in F. destruct F as [_ F].
    unfold title_in in F. unfold Lookup.named_product.
    destruct (title q) as [t|]; [|discriminate].
    apply andb_true_iff in F. destruct F as [F _]. simpl. rewrite F.
    apply orb_true_r. }
  destruct (option_map Str.lower _) as [h|]; [|apply T].
  destruct (Str.nonempty h) eqn:N; [|apply T].
  destruct (Dict.get h (handles_to_product products)) as [q|] eqn:G;
    [|apply T].
  intros [= <-]. eapply lookup_named; eauto.
Qed.

Lemma collect_named products cards :
  forall heroes,
    Forall (fun p => Lookup.named_product p = true) heroes ->
    Forall (fun p => Lookup.named_product p = true)
           (collect products (handles_to_product products) cards heroes).
Proof.
  induction cards as [|c r IH]; intros heroes H; simpl; [assumption|].
  destruct (card_match products (handles_to_product products) c) as [p|] eqn:E;
    [|now apply IH].
  apply IH. apply Forall_app. split; [assumption|].
  constructor; [|constructor]. eapply card_match_named; eauto.
Qed.

(** X15. Every product the Hero Matcher returns has a non-empty handle
    or a non-empty title: a product with neither can never be matched,
    so the [str(id)] branch of the identity key is never the key of a
    hero product. *)
Theorem hero_has_handle_or_title :
  forall (product_cards : list (Dict.t string)) (products : list Product)
         (base_url : string),
    Forall (fun p =>
              (Str.truthy (handle p) || Str.truthy (title p) = true)
              /\ identity_key p
                 = if Str.truthy (handle p) then Str.or_empty (handle p)
                   else Str.or_empty (title p))
           (hero_product_matches product_cards products base_url).
Proof.
  intros product_cards products base_url.
  rewrite HeroMore.matches_keep_first.
  pose proof (collect_named products product_cards (Forall_nil _)) as H.
  fold (matches product_cards products) in H.
  rewrite Forall_forall in *. intros p Hp.
  assert (Hn : Lookup.named_product p = true).
  { apply H.
    exact (@HeroFacts.subseq_incl _ _ _
             (HeroFacts.keep_first_subseq (matches product_cards products) [])
             p Hp). }
  split; [exact Hn|].
  unfold identity_key, Lookup.named_product in *.
  destruct (Str.truthy (handle p)); [reflexivity|].
  simpl in Hn. now rewrite Hn.
Qed.

Lemma take_while_all f s :
  Forall (fun c => f c = true) (list_ascii_of_string (Str.take_while f s)).
Proof.
  induction s as [|c r IH]; simpl; [constructor|].
  destruct (f c) eqn:E; simpl; [now constructor | constructor].
Qed.

Lemma contains_cons sub c s :
  Str.contains sub s = true -> Str.contains sub (String c s) = true.
Proof. intros H. simpl. rewrite H. apply orb_true_r. Qed.

(** X16. The handle read from an href is never empty, holds none of
    [/], [?] and [#], and [/products/] followed by it occurs in the
    href. *)
Theorem products_segment_sound :
  forall href seg : string,
    products_segment href = Some seg ->
    Str.nonempty seg = true
    /\ Forall (fun c => segment_char c = true) (list_ascii_of_string seg)
    /\ Str.contains ("/products/" ++ seg) href = true.
Proof.
  induction href as [|c r IH]; intros seg H; [discriminate|].
  cbn [products_segment] in H.
  assert (Hr : products_segment r = Some seg ->
               Str.nonempty seg = true
               /\ Forall (fun c => segment_char c = true)
                         (list_ascii_of_string seg)
               /\ Str.contains ("/products/" ++ seg) (String c r) = true).
  { intros H'. destruct (IH seg H') as [A [B C]].
    split; [exact A|]. split; [exact B|]. now apply contains_cons. }
  destruct (Str.startswith "/products/" (String c r)) eqn:S; [|now apply Hr].
  destruct (Str.take_while segment_char (Str.drop 10 (String c r))) as [|x t]
    eqn:E; [now apply Hr|].
  injection H as <-. split; [reflexivity|]. split.
  - rewrite <- E. apply take_while_all.
  - destruct (AssemblerMore.startswith_split _ _ S) as [rest Er].
    rewrite Er. rewrite Er in E.
    change (Str.drop 10 ("/products/" ++ rest)) with rest in E.
    rewrite (ScanMore.take_drop segment_char rest), E.
    rewrite <- ScanMore.sapp_assoc.
    apply (ScanMore.contains_mid ("/products/" ++ String x t) EmptyString).
Qed.

(** The theorem on an href with a host and a query string. *)
Lemma products_segment_witness :
  Str.nonempty "widget" = true
  /\ Forall (fun c => segment_char c = true) (list_ascii_of_string "widget")
  /\ Str.contains ("/products/" ++ "widget")
       "https://shop.example/products/widget?variant=2" = true.
Proof.
  apply (@products_segment_sound
           "https://shop.example/products/widget?variant=2" "widget").
  reflexivity.
Defined.

End MatchMore.
